(** * retrux-shelf-eye: the camera / shelf controller (cam_service/gui_camera_server.py)

    A shallow embedding of the worker and orchestration code of
    [gui_camera_server.py] and of the path helpers it calls, followed by the
    properties of the specification that were checked against it.

    Conventions.
    - A Python [str] is the [string] of the bytes of its UTF-8 encoding.
      The path functions, [sorted] and the comparisons with ASCII literals
      act on these bytes as Python acts on the characters; the white space
      of [strip] and [rstrip] is the Unicode white space of [str.isspace],
      by its encodings.  [lower] changes the ASCII letters only, which is
      what [.lower()] needs where the source compares its result with the
      ASCII literals "devices" and ".jpg".
    - [os.path] is [posixpath]: the development is about the program on a
      POSIX system (the functions below follow CPython's posixpath.py).
      On Windows [os.path] is [ntpath], which is not modelled.
    - A worker's [run] is a function from the behaviour of its environment
      (a record of oracles: what the filesystem answers, which external call
      raises, when the stop flag is seen) to the trace of effects it
      performs, in order.  *)

From Stdlib Require Import String Ascii List ZArith Lia DecimalString DecimalPos DecimalZ
  Sorting.Sorted Sorting.Permutation.
From stdpp Require Import base list strings gmap.
Import ListNotations.
Open Scope string_scope.

(* ===================================================================== *)
(** * Part I. Definitions                                                 *)
(* ===================================================================== *)

(** ** Python string methods used by the source *)

Definition ascii_lower (c : ascii) : ascii :=
  let n := nat_of_ascii c in
  if (65 <=? n)%nat && (n <=? 90)%nat then ascii_of_nat (n + 32) else c.

(** [s.lower()] *)
Fixpoint lower (s : string) : string :=
  match s with
  | EmptyString => EmptyString
  | String c s' => String (ascii_lower c) (lower s')
  end.

(** [s.startswith(p)] *)
Definition startswith (s p : string) : bool := String.prefix p s.

(** [s.endswith(suf)] *)
Fixpoint endswith (s suf : string) : bool :=
  if String.eqb s suf then true
  else match s with
       | EmptyString => false
       | String _ s' => endswith s' suf
       end.

(** The characters [str.strip] and [str.rstrip] remove are those of
    [str.isspace].  Encoded in one byte: U+0009 to U+000D, U+001C to
    U+0020. *)
Definition is_space (c : ascii) : bool :=
  let n := nat_of_ascii c in
  ((9 <=? n)%nat && (n <=? 13)%nat) || ((28 <=? n)%nat && (n <=? 32)%nat).

(** In two bytes: U+0085 (C2 85) and U+00A0 (C2 A0). *)
Definition is_space2 (c1 c2 : ascii) : bool :=
  Ascii.eqb c1 (ascii_of_nat 194)
  && (Ascii.eqb c2 (ascii_of_nat 133) || Ascii.eqb c2 (ascii_of_nat 160)).

(** In three bytes: U+1680 (E1 9A 80), U+2000 to U+200A (E2 80 80 to
    E2 80 8A), U+2028, U+2029 and U+202F (E2 80 A8, A9, AF), U+205F
    (E2 81 9F) and U+3000 (E3 80 80). *)
Definition is_space3 (c1 c2 c3 : ascii) : bool :=
  let n3 := nat_of_ascii c3 in
  (Ascii.eqb c1 (ascii_of_nat 225) && Ascii.eqb c2 (ascii_of_nat 154)
   && Ascii.eqb c3 (ascii_of_nat 128))
  || (Ascii.eqb c1 (ascii_of_nat 226) && Ascii.eqb c2 (ascii_of_nat 128)
      && (((128 <=? n3)%nat && (n3 <=? 138)%nat)
          || Ascii.eqb c3 (ascii_of_nat 168) || Ascii.eqb c3 (ascii_of_nat 169)
          || Ascii.eqb c3 (ascii_of_nat 175)))
  || (Ascii.eqb c1 (ascii_of_nat 226) && Ascii.eqb c2 (ascii_of_nat 129)
      && Ascii.eqb c3 (ascii_of_nat 159))
  || (Ascii.eqb c1 (ascii_of_nat 227) && Ascii.eqb c2 (ascii_of_nat 128)
      && Ascii.eqb c3 (ascii_of_nat 128)).

(** [s] is one white-space character. *)
Definition is_space_char (s : string) : bool :=
  match s with
  | String c1 EmptyString => is_space c1
  | String c1 (String c2 EmptyString) => is_space2 c1 c2
  | String c1 (String c2 (String c3 EmptyString)) => is_space3 c1 c2 c3
  | _ => false
  end.

(** [s.rstrip()]: from the right, what is left of [s] once its tail is
    stripped ends in white space only if it is one white-space character. *)
Fixpoint rstrip (s : string) : string :=
  match s with
  | EmptyString => EmptyString
  | String c s' =>
      let r := String c (rstrip s') in
      if is_space_char r then EmptyString else r
  end.

(** [s.lstrip()] *)
Fixpoint lstrip (s : string) : string :=
  match s with
  | EmptyString => EmptyString
  | String c1 s1 =>
      if is_space c1 then lstrip s1
      else match s1 with
           | String c2 s2 =>
               if is_space2 c1 c2 then lstrip s2
               else match s2 with
                    | String c3 s3 => if is_space3 c1 c2 c3 then lstrip s3 else s
                    | EmptyString => s
                    end
           | EmptyString => s
           end
  end.

(** [s.strip()] *)
Definition strip (s : string) : string := rstrip (lstrip s).

(** [str(n)] for an [int] *)
Definition str_of_int (n : Z) : string := NilZero.string_of_int (Z.to_int n).

Fixpoint zeros (n : nat) : string :=
  match n with
  | O => EmptyString
  | S n' => String "0" (zeros n')
  end.

(** [s.zfill(width)]: pads with zeros on the left, after a leading sign. *)
Definition zfill (s : string) (width : nat) : string :=
  if (width <=? String.length s)%nat then s
  else
    let fill := zeros (width - String.length s) in
    match s with
    | String c rest =>
        if Ascii.eqb c "+" || Ascii.eqb c "-" then String c (fill ++ rest)
        else fill ++ s
    | EmptyString => fill
    end.

(** [s.split("/")] *)
Fixpoint split_sep (s : string) : list string :=
  match s with
  | EmptyString => [EmptyString]
  | String c s' =>
      if Ascii.eqb c "/" then EmptyString :: split_sep s'
      else match split_sep s' with
           | [] => [String c EmptyString]
           | h :: t => String c h :: t
           end
  end.

(** ["/".join(comps)] *)
Fixpoint join_sep (comps : list string) : string :=
  match comps with
  | [] => EmptyString
  | [c] => c
  | c :: rest => c ++ "/" ++ join_sep rest
  end.

(** [" ".join(words)] *)
Fixpoint join_space (words : list string) : string :=
  match words with
  | [] => EmptyString
  | [w] => w
  | w :: rest => w ++ " " ++ join_space rest
  end.

Fixpoint string_drop (n : nat) (s : string) : string :=
  match n, s with
  | O, _ => s
  | S n', String _ s' => string_drop n' s'
  | S _, EmptyString => EmptyString
  end.

Fixpoint string_take (n : nat) (s : string) : string :=
  match n, s with
  | O, _ => EmptyString
  | S n', String c s' => String c (string_take n' s')
  | S _, EmptyString => EmptyString
  end.

(** ** os.path (posixpath) *)

Module posixpath.

(** [p.rfind("/") + 1]: the index just after the last separator, 0 when
    there is none. *)
Fixpoint rfind_sep_succ (p : string) : nat :=
  match p with
  | EmptyString => 0
  | String c p' =>
      match rfind_sep_succ p' with
      | O => if Ascii.eqb c "/" then 1 else 0
      | S i => S (S i)
      end
  end.

(** [os.path.basename(p)]: [p[i:]] with [i = p.rfind("/") + 1]. *)
Definition basename (p : string) : string := string_drop (rfind_sep_succ p) p.

Fixpoint all_sep (s : string) : bool :=
  match s with
  | EmptyString => true
  | String c s' => Ascii.eqb c "/" && all_sep s'
  end.

(** [head.rstrip("/")] *)
Fixpoint rstrip_sep (s : string) : string :=
  match s with
  | EmptyString => EmptyString
  | String c s' =>
      match rstrip_sep s' with
      | EmptyString => if Ascii.eqb c "/" then EmptyString else String c EmptyString
      | r => String c r
      end
  end.

(** [os.path.dirname(p)] *)
Definition dirname (p : string) : string :=
  let head := string_take (rfind_sep_succ p) p in
  if negb (String.eqb head "") && negb (all_sep head) then rstrip_sep head else head.

(** [os.path.join(a, b)] *)
Definition join (a b : string) : string :=
  if startswith b "/" then b
  else if String.eqb a "" || endswith a "/" then a ++ b
  else a ++ "/" ++ b.

(** [os.path.join(a, *p)] *)
Definition join_all (a : string) (p : list string) : string := fold_left join p a.

(** The number of leading slashes [normpath] keeps: POSIX allows one or
    two, and three or more count as one. *)
Definition initial_slashes (path : string) : nat :=
  if startswith path "/" then
    if startswith path "//" && negb (startswith path "///") then 2 else 1
  else 0.

(** One iteration of the [for comp in comps] loop of [normpath]. *)
Definition normpath_step (slashes : nat) (new_comps : list string) (comp : string)
  : list string :=
  if String.eqb comp "" || String.eqb comp "." then new_comps
  else if negb (String.eqb comp "..")
          || ((slashes =? 0)%nat && bool_decide (new_comps = []))
          || (negb (bool_decide (new_comps = []))
              && bool_decide (last new_comps = Some ".."))
       then (new_comps ++ [comp])%list
       else if negb (bool_decide (new_comps = [])) then removelast new_comps
            else new_comps.

Fixpoint slashes_string (n : nat) : string :=
  match n with
  | O => EmptyString
  | S n' => String "/" (slashes_string n')
  end.

(** [os.path.normpath(path)] *)
Definition normpath (path : string) : string :=
  if String.eqb path "" then "."
  else
    let k := initial_slashes path in
    let comps := fold_left (normpath_step k) (split_sep path) [] in
    let path' := slashes_string k ++ join_sep comps in
    if String.eqb path' "" then "." else path'.

End posixpath.

(** ** Device-directory normalization *)

(** The canonical device-folder name the two normalizations compare with. *)
Definition devices_folder : string := "devices".

(** The three lines shared by [CameraServerWorker.__init__] (lines 70-72)
    and [MainWindow.get_devices_dir_normalized] (lines 547-550):
    [normpath], then append "devices" unless the last segment already is
    that name up to case. *)
Definition normalize_devices_dir (root_devices_dir : string) : string :=
  let root_devices_dir := posixpath.normpath root_devices_dir in
  if negb (String.eqb (lower (posixpath.basename root_devices_dir)) devices_folder)
  then posixpath.join root_devices_dir devices_folder
  else root_devices_dir.

(** [MainWindow.get_devices_dir_normalized], as a function of the text of
    the path field. *)
Definition get_devices_dir_normalized (path_edit_text : string) : string :=
  normalize_devices_dir (strip path_edit_text).

(** [MainWindow.get_active_state_dir] *)
Definition get_active_state_dir (path_edit_text : string) : string :=
  posixpath.dirname (get_devices_dir_normalized path_edit_text).

(* ===================================================================== *)
(** ** Effects, faults and the worker monad                               *)
(* ===================================================================== *)

(** A raised Python [Exception]: what [str(e)] (and [f"{e}"]) prints, and
    what ["".join(traceback.format_exception(e))] prints. *)
Record PyException := mkException {
  exc_str : string;
  exc_format : string;
}.

(** A [BackgroundCameraService] object, known by the arguments
    [CameraServerWorker.run] constructs it with (line 112). *)
Record BackgroundCameraService := mkService {
  svc_camera_str : string;
  svc_camera_index : Z;
  svc_latest_frame_file : string;
}.

(** What a worker thread does to the world around it, one constructor per
    call of the source that is visible outside the worker. *)
Inductive Effect : Type :=
| log_emit (msg : string)                          (* self.log.emit(msg) *)
| running_changed_emit (running : bool)            (* self.running_changed.emit(b) *)
| mode_changed_emit (mode : string)                (* self.mode_changed.emit(mode) *)
| finished_emit                                    (* self.finished.emit() *)
| shutil_rmtree (path : string)                    (* shutil.rmtree(path, ignore_errors=True) *)
| os_makedirs (path : string)                      (* os.makedirs(path, exist_ok=True) *)
| service_init (svc : BackgroundCameraService)     (* BackgroundCameraService(str, id, file) *)
| service_start (svc : BackgroundCameraService)    (* svc.start() *)
| service_stop (svc : BackgroundCameraService)     (* svc.stop() *)
| thread_join (svc : BackgroundCameraService) (timeout : Z)  (* svc.thread.join(timeout=5) *)
| sleep_staggered                                  (* time.sleep(1.0 + random.uniform(-0.5, 0.5)) *)
| sleep_1                                          (* time.sleep(1) *)
| QMessageBox_critical (title text : string)       (* QMessageBox.critical(None, title, text) *)
| QMessageBox_information (title text : string)    (* QMessageBox.information(self, title, text) *)
| QMessageBox_warning (title text : string)        (* QMessageBox.warning(self, title, text) *)
| QThread_start (thread : nat)                     (* worker.start() *)
| subprocess_Popen (cmd : list string) (cwd : string) (creationflags : Z)
                   (env_set : list (string * string))
| stdout_readline (line : string)                  (* one self._process.stdout.readline() *)
| stdout_readline_raises (e : PyException)         (* a readline() that raises *)
| process_wait (rc : Z).                           (* self._process.wait() *)

(** How a (prefix of a) run ends: it returned, it raised, or the fuel ran
    out while it was still polling its stop flag. *)
Inductive Outcome (A : Type) : Type :=
| Returned (a : A)
| Raised (e : PyException)
| Unfinished.
Arguments Returned {A} a.
Arguments Raised {A} e.
Arguments Unfinished {A}.

(** A computation: the effects performed so far, in order, and the outcome. *)
Definition M (A : Type) : Type := (list Effect * Outcome A)%type.

Definition trace {A} (m : M A) : list Effect := fst m.
Definition outcome {A} (m : M A) : Outcome A := snd m.

#[export] Instance M_ret : MRet M := fun A a => ([], Returned a).

#[export] Instance M_bind : MBind M := fun A B f m =>
  match m with
  | (t, Returned a) => let '(t', o) := f a in ((t ++ t')%list, o)
  | (t, Raised e) => (t, Raised e)
  | (t, Unfinished) => (t, Unfinished)
  end.

Definition perform (e : Effect) : M unit := ([e], Returned tt).

Definition raise {A} (e : PyException) : M A := ([], Raised e).

(** An external call that either raises or returns: the effect is recorded
    either way. *)
Definition call (e : Effect) (fault : option PyException) : M unit :=
  match fault with
  | Some exn => ([e], Raised exn)
  | None => ([e], Returned tt)
  end.

(** [try: body / except Exception as e: handler e] *)
Definition try_except {A} (body : M A) (handler : PyException -> M A) : M A :=
  match body with
  | (t, Raised e) => let '(t', o) := handler e in ((t ++ t')%list, o)
  | other => other
  end.

(** [try: body / finally: final].  A run whose fuel ran out is still inside
    [body]: the [finally] block has not been reached. *)
Definition try_finally {A} (body : M A) (final : M unit) : M A :=
  match body with
  | (t, Unfinished) => (t, Unfinished)
  | (t, o) =>
      match final with
      | (t', Returned _) => ((t ++ t')%list, o)
      | (t', Raised e) => ((t ++ t')%list, Raised e)
      | (t', Unfinished) => ((t ++ t')%list, Unfinished)
      end
  end.

(** [for x in xs: body x] *)
Fixpoint for_each {A} (xs : list A) (body : A -> M unit) : M unit :=
  match xs with
  | [] => mret tt
  | x :: xs' => body x ;; for_each xs' body
  end.

(** [while not self._stop_event.is_set(): time.sleep(1)].
    [is_set n] is what the [n]-th evaluation of the loop condition sees. *)
Fixpoint wait_for_stop (is_set : nat -> bool) (fuel n : nat) : M unit :=
  match fuel with
  | O => ([], Unfinished)
  | S fuel' =>
      if is_set n then mret tt
      else perform sleep_1 ;; wait_for_stop is_set fuel' (S n)
  end.

Definition newline : string := String (ascii_of_nat 10) EmptyString.

Definition len {A} (l : list A) : Z := Z.of_nat (length l).

(* ===================================================================== *)
(** ** CameraServerWorker (lines 61-148)                                  *)
(* ===================================================================== *)

(** The part of the world a [CameraServerWorker] thread interacts with. *)
Record CameraWorld := mkCameraWorld {
  (* os.makedirs(path, exist_ok=True) raising, e.g. PermissionError *)
  makedirs_raises : string -> option PyException;
  (* the constructor of the external class raising *)
  init_raises : BackgroundCameraService -> option PyException;
  (* how f"{svc.camera_id}" prints: an attribute of the external class *)
  camera_id_attr : BackgroundCameraService -> string;
  start_raises : BackgroundCameraService -> option PyException;
  stop_raises : BackgroundCameraService -> option PyException;
  (* hasattr(svc, "thread") and svc.thread is not None *)
  has_thread : BackgroundCameraService -> bool;
  join_raises : BackgroundCameraService -> option PyException;
  (* self._stop_event.is_set() at the n-th poll *)
  stop_event_is_set : nat -> bool;
}.

Record CameraServerWorker := mkCameraServerWorker {
  root_devices_dir : string;
  camera_indices : list Z;
}.

(** [CameraServerWorker.__init__] (lines 67-77) *)
Definition CameraServerWorker_init (root_devices_dir : string) (camera_indices : list Z)
  : CameraServerWorker :=
  {| root_devices_dir := normalize_devices_dir root_devices_dir;
     camera_indices := camera_indices |}.

(** The body of the first loop (lines 108-112): the service built for one
    camera index. *)
Definition new_service (root : string) (camera_id : Z) : BackgroundCameraService :=
  let camera_str := zfill (str_of_int camera_id) 3 in
  let latest_frame_file :=
    posixpath.join root ("camera_" ++ camera_str ++ "_frame.jpg") in
  mkService camera_str camera_id latest_frame_file.

(** Lines 106-113: [running_services] is emptied and refilled. *)
Fixpoint build_services (w : CameraWorld) (root : string) (ids : list Z)
  : M (list BackgroundCameraService) :=
  match ids with
  | [] => mret []
  | camera_id :: ids' =>
      let svc := new_service root camera_id in
      call (service_init svc) (init_raises w svc) ;;
      rest ← build_services w root ids' ;
      mret (svc :: rest)
  end.

(** Lines 115-118 *)
Definition start_services (w : CameraWorld) (running_services : list BackgroundCameraService)
  : M unit :=
  for_each running_services (fun svc =>
    perform (log_emit ("Starting " ++ camera_id_attr w svc ++ " ...")) ;;
    call (service_start svc) (start_raises w svc) ;;
    perform sleep_staggered).

(** Lines 128-132 *)
Definition stop_services (w : CameraWorld) (running_services : list BackgroundCameraService)
  : M unit :=
  for_each running_services (fun svc =>
    try_except
      (call (service_stop svc) (stop_raises w svc))
      (fun e => perform (log_emit ("Error during stop() on " ++ camera_id_attr w svc
                                   ++ ": " ++ exc_str e)))).

(** Lines 134-139 *)
Definition join_services (w : CameraWorld) (running_services : list BackgroundCameraService)
  : M unit :=
  for_each running_services (fun svc =>
    try_except
      (if has_thread w svc then call (thread_join svc 5) (join_raises w svc)
       else mret tt)
      (fun e => perform (log_emit ("Error during join() on " ++ camera_id_attr w svc
                                   ++ ": " ++ exc_str e)))).

(** Lines 87-141: the [try] block of [run]. *)
Definition CameraServerWorker_run_body (w : CameraWorld) (self : CameraServerWorker)
  (fuel : nat) : M unit :=
  perform (log_emit "Background Camera Server System") ;;
  perform (running_changed_emit true) ;;
  perform (log_emit ("Preparing directory: " ++ root_devices_dir self)) ;;
  perform (shutil_rmtree (root_devices_dir self)) ;;
  call (os_makedirs (root_devices_dir self)) (makedirs_raises w (root_devices_dir self)) ;;
  perform (log_emit "Searching For Valid Cameras...") ;;
  if bool_decide (camera_indices self = []) then
    perform (log_emit "No cameras selected.")
  else
    perform (log_emit ("Found " ++ str_of_int (len (camera_indices self)) ++ " Cameras")) ;;
    perform (log_emit "Starting Background Services...") ;;
    running_services ← build_services w (root_devices_dir self) (camera_indices self) ;
    start_services w running_services ;;
    perform (log_emit "All Service Is Running") ;;
    wait_for_stop (stop_event_is_set w) fuel 0 ;;
    perform (log_emit "Stopping all services...") ;;
    stop_services w running_services ;;
    join_services w running_services ;;
    perform (log_emit "All Services are Finished.").

(** Lines 143-145: the [except Exception as e] block. *)
Definition CameraServerWorker_handler (e : PyException) : M unit :=
  perform (log_emit ("FATAL ERROR:" ++ newline ++ exc_format e)) ;;
  perform (QMessageBox_critical "Camera Server Error" (exc_str e)).

(** Lines 146-148: the [finally] block. *)
Definition source_worker_finally : M unit :=
  perform (running_changed_emit false) ;;
  perform finished_emit.

(** The [try / except Exception / finally] frame of [CameraServerWorker.run]
    around an arbitrary body. *)
Definition CameraServerWorker_frame (body : M unit) : M unit :=
  try_finally (try_except body CameraServerWorker_handler) source_worker_finally.

(** [CameraServerWorker.run] (lines 85-148) *)
Definition CameraServerWorker_run (w : CameraWorld) (self : CameraServerWorker)
  (fuel : nat) : M unit :=
  CameraServerWorker_frame (CameraServerWorker_run_body w self fuel).

(* ===================================================================== *)
(** ** ImageSourceWorker (lines 151-193)                                  *)
(* ===================================================================== *)

Record ImageSourceWorker := mkImageSourceWorker {
  devices_dir : string;
  selected_images : list string;
}.

(** Lines 174-188: the [try] block of [run]. *)
Definition ImageSourceWorker_run_body (is_set : nat -> bool) (self : ImageSourceWorker)
  (fuel : nat) : M unit :=
  perform (running_changed_emit true) ;;
  perform (log_emit "Image Source Mode (no camera capture)") ;;
  perform (log_emit ("Devices folder: " ++ devices_dir self)) ;;
  (if bool_decide (selected_images self = []) then
     perform (log_emit "No images selected.")
   else
     perform (log_emit ("Using " ++ str_of_int (len (selected_images self)) ++ " image(s):")) ;;
     for_each (selected_images self) (fun p =>
       perform (log_emit (" - " ++ posixpath.basename p)))) ;;
  wait_for_stop is_set fuel 0 ;;
  perform (log_emit "Image source stopped.").

(** Lines 189-190 *)
Definition ImageSourceWorker_handler (e : PyException) : M unit :=
  perform (log_emit ("FATAL ERROR:" ++ newline ++ exc_format e)).

Definition ImageSourceWorker_frame (body : M unit) : M unit :=
  try_finally (try_except body ImageSourceWorker_handler) source_worker_finally.

(** [ImageSourceWorker.run] (lines 172-193) *)
Definition ImageSourceWorker_run (is_set : nat -> bool) (self : ImageSourceWorker)
  (fuel : nat) : M unit :=
  ImageSourceWorker_frame (ImageSourceWorker_run_body is_set self fuel).

(* ===================================================================== *)
(** ** ShelfScanWorker (lines 196-285) and CamDisplayWorker (288-369)     *)
(* ===================================================================== *)

(** The part of the world a tool worker thread interacts with. *)
Record ToolWorld := mkToolWorld {
  (* os.path.isfile *)
  isfile : string -> bool;
  (* os.name *)
  os_name : string;
  (* subprocess.Popen(cmd, ...): raises (the executable cannot be launched)
     or returns a process with this pid *)
  Popen_result : list string -> PyException + Z;
  (* the lines self._process.stdout.readline() returns before end of file *)
  child_lines : list string;
  (* the k-th readline() (from 0) raising instead of returning: the output
     is decoded strictly (text=True, no errors=), so bytes that are not
     text raise UnicodeDecodeError *)
  readline_raises : nat -> option PyException;
  (* when another thread's stop() executes [self._stop = True]: after this
     many steps of the reader loop, a step being one readline returning or
     one test of the flag (they alternate, a readline first); None = never *)
  stop_at : option nat;
  (* what self._process.wait() returns *)
  wait_rc : Z;
}.

(** [self._stop] as the test of line 252 sees it for the [k]-th line read
    (counting from 0): the stop came before step [2k+1]. *)
Definition stop_seen_at_check (w : ToolWorld) (k : nat) : bool :=
  match stop_at w with
  | Some n => (n <=? 2 * k + 1)%nat
  | None => false
  end.

(** The [k]-th readline returned after [self._stop] was set: the stop came
    before step [2k]. *)
Definition read_after_stop (w : ToolWorld) (k : nat) : bool :=
  match stop_at w with
  | Some n => (n <=? 2 * k)%nat
  | None => false
  end.

(** The [mode] argument; the constructor asserts it is one of the two. *)
Inductive ScanMode : Type := setup | service.

Definition mode_str (m : ScanMode) : string :=
  match m with setup => "setup" | service => "service" end.

Definition is_service (m : ScanMode) : bool :=
  match m with service => true | setup => false end.

Record ShelfScanWorker := mkShelfScanWorker {
  scan_project_root : string;
  scan_mode : ScanMode;
  scan_python_exe : string;
  shelf_scan_path : string;
}.

(** [python_exe or sys.executable] *)
Definition or_executable (python_exe : option string) (sys_executable : string) : string :=
  match python_exe with
  | Some exe => if String.eqb exe "" then sys_executable else exe
  | None => sys_executable
  end.

(** [ShelfScanWorker.__init__] (lines 205-213) *)
Definition ShelfScanWorker_init (sys_executable project_root : string) (mode : ScanMode)
  (python_exe : option string) : ShelfScanWorker :=
  {| scan_project_root := project_root;
     scan_mode := mode;
     scan_python_exe := or_executable python_exe sys_executable;
     shelf_scan_path := posixpath.join_all project_root ["product_scan"; "shelf_scan.py"] |}.

(** [subprocess.CREATE_NEW_PROCESS_GROUP] *)
Definition CREATE_NEW_PROCESS_GROUP : Z := 512.

(** Lines 227-229 and 320-322 *)
Definition creationflags_for (os_name : string) : Z :=
  if String.eqb os_name "nt" then CREATE_NEW_PROCESS_GROUP else 0.

(** Lines 222-224 and 311-313: what is set in the copy of [os.environ]. *)
Definition unbuffered_env : list (string * string) :=
  [("PYTHONUNBUFFERED", "1"); ("PYTHONIOENCODING", "utf-8")].

(** [subprocess.Popen(cmd, cwd=..., ...)]: the call, then the pid or the
    exception. *)
Definition Popen (w : ToolWorld) (cmd : list string) (cwd : string) : M Z :=
  match Popen_result w cmd with
  | inl exn => ([subprocess_Popen cmd cwd (creationflags_for (os_name w)) unbuffered_env],
                Raised exn)
  | inr pid => ([subprocess_Popen cmd cwd (creationflags_for (os_name w)) unbuffered_env],
                Returned pid)
  end.

(** One [self._process.stdout.readline()], the [k]-th of the run: it
    raises, or returns [line]. *)
Definition readline (w : ToolWorld) (k : nat) (line : string) : M unit :=
  match readline_raises w k with
  | Some e => ([stdout_readline_raises e], Raised e)
  | None => perform (stdout_readline line)
  end.

(** Lines 251-256: [for line in iter(stdout.readline, "")], the [k]-th
    iteration onwards.  [iter] ends the loop when readline returns the
    empty string, at end of file. *)
Fixpoint scan_reader_loop (w : ToolWorld) (mode : ScanMode) (lines : list string) (k : nat)
  : M unit :=
  match lines with
  | [] => readline w k ""
  | line :: rest =>
      readline w k line ;;
      if String.eqb line "" then mret tt
      else if stop_seen_at_check w k && is_service mode then mret tt
      else if String.eqb line "" then mret tt
      else perform (log_emit (rstrip line)) ;; scan_reader_loop w mode rest (S k)
  end.

(** Lines 217-259: the [try] block of [ShelfScanWorker.run]. *)
Definition ShelfScanWorker_run_body (w : ToolWorld) (self : ShelfScanWorker) : M unit :=
  if negb (isfile w (shelf_scan_path self)) then
    perform (log_emit ("Not found: " ++ shelf_scan_path self))
  else
    let cmd := [scan_python_exe self; "-u"; shelf_scan_path self; mode_str (scan_mode self)] in
    perform (log_emit ("Executing with interpreter: " ++ scan_python_exe self)) ;;
    perform (log_emit ("Command: " ++ join_space cmd)) ;;
    perform (mode_changed_emit (mode_str (scan_mode self))) ;;
    pid ← Popen w cmd (scan_project_root self) ;
    perform (log_emit ("shelf_scan.py (" ++ mode_str (scan_mode self) ++ ") started (pid="
                       ++ str_of_int pid ++ ")")) ;;
    scan_reader_loop w (scan_mode self) (child_lines w) 0 ;;
    perform (process_wait (wait_rc w)) ;;
    perform (log_emit ("shelf_scan.py (" ++ mode_str (scan_mode self) ++ ") exited with code "
                       ++ str_of_int (wait_rc w))).

(** Lines 260-261 *)
Definition ShelfScanWorker_handler (self : ShelfScanWorker) (e : PyException) : M unit :=
  perform (log_emit ("Error running shelf_scan.py (" ++ mode_str (scan_mode self) ++ "): "
                     ++ exc_str e)).

(** Lines 262-263 and 347-348 *)
Definition tool_worker_finally : M unit := perform finished_emit.

Definition ShelfScanWorker_frame (self : ShelfScanWorker) (body : M unit) : M unit :=
  try_finally (try_except body (ShelfScanWorker_handler self)) tool_worker_finally.

(** [ShelfScanWorker.run] (lines 215-263) *)
Definition ShelfScanWorker_run (w : ToolWorld) (self : ShelfScanWorker) : M unit :=
  ShelfScanWorker_frame self (ShelfScanWorker_run_body w self).

Record CamDisplayWorker := mkCamDisplayWorker {
  display_project_root : string;
  display_root_dir : string;
  display_title : string;
  display_python_exe : string;
}.

(** [CamDisplayWorker.__init__] (lines 296-302) *)
Definition CamDisplayWorker_init (sys_executable project_root root_dir title : string)
  (python_exe : option string) : CamDisplayWorker :=
  {| display_project_root := project_root;
     display_root_dir := root_dir;
     display_title := title;
     display_python_exe := or_executable python_exe sys_executable |}.

(** Lines 338-341, the [k]-th iteration onwards. *)
Fixpoint display_reader_loop (w : ToolWorld) (lines : list string) (k : nat) : M unit :=
  match lines with
  | [] => readline w k ""
  | line :: rest =>
      readline w k line ;;
      if String.eqb line "" then mret tt
      else if String.eqb line "" then mret tt
      else perform (log_emit (rstrip line)) ;; display_reader_loop w rest (S k)
  end.

(** Lines 306-344: the [try] block of [CamDisplayWorker.run]. *)
Definition CamDisplayWorker_run_body (w : ToolWorld) (self : CamDisplayWorker) : M unit :=
  let display_path :=
    posixpath.join_all (display_project_root self) ["cam_display"; "display_camera.py"] in
  if negb (isfile w display_path) then
    perform (log_emit ("Not found: " ++ display_path))
  else
    let cmd := [display_python_exe self; "-u"; display_path;
                "--root-dir"; display_root_dir self;
                "--title"; display_title self] in
    perform (log_emit ("Executing cam display: " ++ join_space cmd)) ;;
    pid ← Popen w cmd (display_project_root self) ;
    perform (log_emit ("cam_display started (pid=" ++ str_of_int pid ++ ")")) ;;
    display_reader_loop w (child_lines w) 0 ;;
    perform (process_wait (wait_rc w)) ;;
    perform (log_emit ("cam_display exited with code " ++ str_of_int (wait_rc w))).

(** Lines 345-346 *)
Definition CamDisplayWorker_handler (e : PyException) : M unit :=
  perform (log_emit ("Error running cam_display: " ++ exc_str e)).

Definition CamDisplayWorker_frame (body : M unit) : M unit :=
  try_finally (try_except body CamDisplayWorker_handler) tool_worker_finally.

(** [CamDisplayWorker.run] (lines 304-348) *)
Definition CamDisplayWorker_run (w : ToolWorld) (self : CamDisplayWorker) : M unit :=
  CamDisplayWorker_frame (CamDisplayWorker_run_body w self).

(* ===================================================================== *)
(** ** find_jpg_images (lines 49-57)                                      *)
(* ===================================================================== *)

(** What the filesystem answers to the two queries of [find_jpg_images]. *)
Record FileSystem := mkFileSystem {
  (* os.path.isdir: it does not raise *)
  isdir : string -> bool;
  (* os.listdir: it raises (the directory cannot be read, or has gone), or
     returns the entry names, in any order *)
  listdir : string -> PyException + list string;
}.

Fixpoint insert_sorted (x : string) (l : list string) : list string :=
  match l with
  | [] => [x]
  | y :: l' => if String.leb x y then x :: l else y :: insert_sorted x l'
  end.

(** [sorted(names)] on strings: ascending lexicographic order. *)
Fixpoint sorted (names : list string) : list string :=
  match names with
  | [] => []
  | x :: l => insert_sorted x (sorted l)
  end.

(** The test of line 55. *)
Definition is_jpg_name (name : string) : bool := endswith (lower name) ".jpg".

(** The loop of lines 54-56. *)
Fixpoint collect_jpg (devices_dir : string) (names : list string) : list string :=
  match names with
  | [] => []
  | name :: rest =>
      if is_jpg_name name then posixpath.join devices_dir name :: collect_jpg devices_dir rest
      else collect_jpg devices_dir rest
  end.

(** [find_jpg_images]: the list it returns, or the exception of
    [os.listdir], which it does not catch. *)
Definition find_jpg_images (fs : FileSystem) (devices_dir : string)
  : PyException + list string :=
  if negb (isdir fs devices_dir) then inr []
  else match listdir fs devices_dir with
       | inl e => inl e
       | inr names => inr (collect_jpg devices_dir (sorted names))
       end.

(** [os.path.isabs] *)
Definition isabs (p : string) : bool := startswith p "/".

(* ===================================================================== *)
(** ** MainWindow (lines 373-746): the three worker slots                 *)
(* ===================================================================== *)

(** What the window needs from the process it runs in.  [int_of_str] is
    Python's builtin [int] on a [str], which the model does not define. *)
Record Host := mkHost {
  sys_executable : string;                       (* sys.executable *)
  project_root_dir : string;                     (* project_root_dir() *)
  int_of_str : string -> PyException + Z;        (* int(s) *)
  int_of_None : PyException;                     (* the TypeError of int(None) *)
  (* os.makedirs(path, exist_ok=True) of line 663 raising, e.g. for a path
     under a file or without permission *)
  host_makedirs_raises : string -> option PyException;
}.

(** [source_combo.currentData()] *)
Inductive Source : Type := src_images | src_cameras.

(** The [userData] of an entry of [item_combo]; [no_item] is the [None]
    that [currentData()] returns on an empty combo box. *)
Inductive ItemData : Type :=
| no_item
| ALL_IMG
| ALL_CAM
| image_item (name : string)
| camera_item (idx : Z).

#[export] Instance ItemData_eq_dec : EqDecision ItemData.
Proof. solve_decision. Defined.

(** The worker object a [QThread] of the window is. *)
Inductive Worker : Type :=
| W_CameraServer (w : CameraServerWorker)
| W_ImageSource (w : ImageSourceWorker)
| W_ShelfScan (w : ShelfScanWorker)
| W_CamDisplay (w : CamDisplayWorker).

(** The slot a worker's [finished] signal is connected to. *)
Inductive FinishedSlot : Type :=
| on_source_finished (label : string)
| on_shelf_setup_finished
| on_shelf_service_finished
| on_display_finished.

(** A worker object on the heap, with the state of its thread. *)
Record QThread := mkQThread {
  thread_worker : Worker;
  finished_slot : FinishedSlot;
  isRunning : bool;          (* QThread.isRunning() *)
  stop_requested : bool;     (* request_stop() or stop() has been called *)
}.

Record Inputs := mkInputs {
  path_edit : string;               (* self.path_edit.text() *)
  source_combo : Source;
  item_combo_items : list ItemData;
  item_combo : ItemData;            (* self.item_combo.currentData() *)
  display_title_edit : string;
}.

(** [isEnabled()] of the six buttons the toggles act on. *)
Record Buttons := mkButtons {
  start_btn : bool;
  stop_btn : bool;
  shelf_service_start_btn : bool;
  shelf_service_stop_btn : bool;
  display_start_btn : bool;
  display_stop_btn : bool;
}.

Record Caches := mkCaches {
  detected_cameras : list Z;
  detected_images : list string;
  image_name_to_path : gmap string string;
}.

(** The three worker holders: references to objects of [threads]. *)
Record Holders := mkHolders {
  active_worker : option nat;
  shelf_worker : option nat;
  display_worker : option nat;
}.

Record MainWindow := mkMainWindow {
  inputs : Inputs;
  buttons : Buttons;
  caches : Caches;
  holders : Holders;
  threads : list QThread;      (* every worker object constructed so far *)
  log_view : list string;
}.

Definition set_inputs (i : Inputs) (self : MainWindow) : MainWindow :=
  mkMainWindow i (buttons self) (caches self) (holders self) (threads self) (log_view self).
Definition set_buttons (b : Buttons) (self : MainWindow) : MainWindow :=
  mkMainWindow (inputs self) b (caches self) (holders self) (threads self) (log_view self).
Definition set_caches (c : Caches) (self : MainWindow) : MainWindow :=
  mkMainWindow (inputs self) (buttons self) c (holders self) (threads self) (log_view self).
Definition set_holders (h : Holders) (self : MainWindow) : MainWindow :=
  mkMainWindow (inputs self) (buttons self) (caches self) h (threads self) (log_view self).
Definition set_threads (t : list QThread) (self : MainWindow) : MainWindow :=
  mkMainWindow (inputs self) (buttons self) (caches self) (holders self) t (log_view self).

(** [MainWindow.append_log] *)
Definition append_log (text : string) (self : MainWindow) : MainWindow :=
  mkMainWindow (inputs self) (buttons self) (caches self) (holders self) (threads self)
    (log_view self ++ [text])%list.

Definition toggle_source_buttons (running : bool) (self : MainWindow) : MainWindow :=
  let b := buttons self in
  set_buttons (mkButtons (negb running) running (shelf_service_start_btn b)
                 (shelf_service_stop_btn b) (display_start_btn b) (display_stop_btn b)) self.

Definition toggle_shelf_service_buttons (running : bool) (self : MainWindow) : MainWindow :=
  let b := buttons self in
  set_buttons (mkButtons (start_btn b) (stop_btn b) (negb running) running
                 (display_start_btn b) (display_stop_btn b)) self.

Definition toggle_display_buttons (running : bool) (self : MainWindow) : MainWindow :=
  let b := buttons self in
  set_buttons (mkButtons (start_btn b) (stop_btn b) (shelf_service_start_btn b)
                 (shelf_service_stop_btn b) (negb running) running) self.

(** [holder and holder.isRunning()] *)
Definition holder_is_running (self : MainWindow) (holder : option nat) : bool :=
  match holder with
  | Some i => match threads self !! i with
              | Some t => isRunning t
              | None => false
              end
  | None => false
  end.

(** Constructing a worker object: a new entry of the heap, not running. *)
Definition new_thread (worker : Worker) (slot : FinishedSlot) (self : MainWindow)
  : nat * MainWindow :=
  (length (threads self),
   set_threads (threads self ++ [mkQThread worker slot false false])%list self).

Definition set_running (b : bool) (t : QThread) : QThread :=
  mkQThread (thread_worker t) (finished_slot t) b (stop_requested t).

Definition set_stop_requested (t : QThread) : QThread :=
  mkQThread (thread_worker t) (finished_slot t) (isRunning t) true.

(** [worker.start()]: the thread is running when the call returns. *)
Definition QThread_start_method (i : nat) (self : MainWindow) : M MainWindow :=
  perform (QThread_start i) ;;
  mret (set_threads (alter (set_running true) i (threads self)) self).

(** [repr] of a list of ints, as an f-string prints it. *)
Fixpoint join_comma (words : list string) : string :=
  match words with
  | [] => EmptyString
  | [w] => w
  | w :: rest => w ++ ", " ++ join_comma rest
  end.
Definition repr_int_list (l : list Z) : string := "[" ++ join_comma (map str_of_int l) ++ "]".

(** [str(sel)] *)
Definition str_of_item (sel : ItemData) : string :=
  match sel with
  | no_item => "None"
  | ALL_IMG => "ALL_IMG"
  | ALL_CAM => "ALL_CAM"
  | image_item name => name
  | camera_item idx => str_of_int idx
  end.

(** [int(sel)] *)
Definition int_of_item (h : Host) (sel : ItemData) : M Z :=
  match sel with
  | camera_item idx => mret idx
  | no_item => raise (int_of_None h)
  | ALL_IMG => match int_of_str h "ALL_IMG" with inl e => raise e | inr z => mret z end
  | ALL_CAM => match int_of_str h "ALL_CAM" with inl e => raise e | inr z => mret z end
  | image_item name => match int_of_str h name with inl e => raise e | inr z => mret z end
  end.

(** [MainWindow.wire_source_worker] (lines 604-611), with the construction
    of the worker that precedes it. *)
Definition wire_source_worker (worker : Worker) (label : string) (self : MainWindow)
  : nat * MainWindow :=
  let '(i, self) := new_thread worker (on_source_finished label) self in
  let self := set_holders (mkHolders (Some i) (shelf_worker (holders self))
                             (display_worker (holders self))) self in
  (i, toggle_source_buttons true self).

(** [MainWindow.start_source] (lines 559-602) *)
Definition start_source (h : Host) (self : MainWindow) : M MainWindow :=
  if holder_is_running self (active_worker (holders self)) then
    perform (QMessageBox_information "Running" "Source is already running.") ;;
    mret self
  else
    let devices_dir := get_devices_dir_normalized (path_edit (inputs self)) in
    let sel := item_combo (inputs self) in
    match source_combo (inputs self) with
    | src_images =>
        let start_with (selected_list : list string) : M MainWindow :=
          let '(i, self) :=
            wire_source_worker (W_ImageSource (mkImageSourceWorker devices_dir selected_list))
              "Image Source" self in
          let self := append_log ("=== Starting Image Source (images="
                                  ++ str_of_int (len selected_list) ++ ") ===") self in
          QThread_start_method i self in
        if bool_decide (sel = ALL_IMG) then
          let selected_list := detected_images (caches self) in
          if bool_decide (selected_list = []) then
            perform (QMessageBox_warning "No Images" "No images found. Try 'Rescan'.") ;;
            mret self
          else start_with selected_list
        else
          match image_name_to_path (caches self) !! str_of_item sel with
          | Some path =>
              if String.eqb path "" then
                perform (QMessageBox_warning "Selection" "Selected image not found.") ;;
                mret self
              else start_with [path]
          | None =>
              perform (QMessageBox_warning "Selection" "Selected image not found.") ;;
              mret self
          end
    | src_cameras =>
        let start_with (camera_list : list Z) : M MainWindow :=
          let '(i, self) :=
            wire_source_worker (W_CameraServer (CameraServerWorker_init devices_dir camera_list))
              "Camera Server" self in
          let self := append_log ("=== Starting Camera Server (cameras="
                                  ++ repr_int_list camera_list ++ ") ===") self in
          QThread_start_method i self in
        if bool_decide (sel = ALL_CAM) then
          let camera_list := detected_cameras (caches self) in
          if bool_decide (camera_list = []) then
            perform (QMessageBox_warning "No Cameras" "No cameras detected. Try 'Rescan'.") ;;
            mret self
          else start_with camera_list
        else
          idx ← int_of_item h sel ;
          start_with [idx]
    end.

(** [MainWindow.stop_source] (lines 613-619) *)
Definition stop_source (self : MainWindow) : MainWindow :=
  match active_worker (holders self) with
  | Some i =>
      if holder_is_running self (Some i) then
        let self := append_log "=== Stop requested (source) ===" self in
        set_threads (alter set_stop_requested i (threads self)) self
      else append_log "Source is not running." self
  | None => append_log "Source is not running." self
  end.

(** The construction and wiring shared by [run_shelf_setup] and
    [start_shelf_service]: [self.shelf_worker = ShelfScanWorker(...)]. *)
Definition new_shelf_worker (h : Host) (mode : ScanMode) (slot : FinishedSlot)
  (self : MainWindow) : nat * MainWindow :=
  let worker := ShelfScanWorker_init (sys_executable h) (project_root_dir h) mode
                  (Some (sys_executable h)) in
  let '(i, self) := new_thread (W_ShelfScan worker) slot self in
  (i, set_holders (mkHolders (active_worker (holders self)) (Some i)
                     (display_worker (holders self))) self).

(** [MainWindow.run_shelf_setup] (lines 622-632) *)
Definition run_shelf_setup (h : Host) (self : MainWindow) : M MainWindow :=
  if holder_is_running self (shelf_worker (holders self)) then
    perform (QMessageBox_information "Shelf" "Another shelf_scan is running.") ;;
    mret self
  else
    let self := append_log "=== Starting shelf_scan.py setup ===" self in
    let '(i, self) := new_shelf_worker h setup on_shelf_setup_finished self in
    QThread_start_method i self.

(** [MainWindow.start_shelf_service] (lines 634-645) *)
Definition start_shelf_service (h : Host) (self : MainWindow) : M MainWindow :=
  if holder_is_running self (shelf_worker (holders self)) then
    perform (QMessageBox_information "Shelf Service" "Shelf service already running.") ;;
    mret self
  else
    let self := append_log "=== Starting shelf_scan.py service ===" self in
    let '(i, self) := new_shelf_worker h service on_shelf_service_finished self in
    let self := toggle_shelf_service_buttons true self in
    QThread_start_method i self.

(** [MainWindow.stop_shelf_service] (lines 647-652) *)
Definition stop_shelf_service (self : MainWindow) : MainWindow :=
  match shelf_worker (holders self) with
  | Some i =>
      if holder_is_running self (Some i) then
        let self := append_log "=== Stop requested (shelf service) ===" self in
        set_threads (alter set_stop_requested i (threads self)) self
      else append_log "Shelf service is not running." self
  | None => append_log "Shelf service is not running." self
  end.

(** [MainWindow.start_cam_display] (lines 655-677) *)
Definition start_cam_display (h : Host) (self : MainWindow) : M MainWindow :=
  if holder_is_running self (display_worker (holders self)) then
    perform (QMessageBox_information "Cam Display" "Cam display already running.") ;;
    mret self
  else
    let active_state := get_active_state_dir (path_edit (inputs self)) in
    let product_visual := posixpath.join active_state "product_visual" in
    call (os_makedirs product_visual) (host_makedirs_raises h product_visual) ;;
    let title :=
      let t := strip (display_title_edit (inputs self)) in
      if String.eqb t "" then "Product Detection" else t in
    let self := append_log ("=== Opening Cam Display (root=" ++ product_visual
                            ++ ", title=" ++ title ++ ") ===") self in
    let worker := CamDisplayWorker_init (sys_executable h) (project_root_dir h)
                    product_visual title (Some (sys_executable h)) in
    let '(i, self) := new_thread (W_CamDisplay worker) on_display_finished self in
    let self := set_holders (mkHolders (active_worker (holders self))
                               (shelf_worker (holders self)) (Some i)) self in
    let self := toggle_display_buttons true self in
    QThread_start_method i self.

(** [MainWindow.stop_cam_display] (lines 679-684) *)
Definition stop_cam_display (self : MainWindow) : MainWindow :=
  match display_worker (holders self) with
  | Some i =>
      if holder_is_running self (Some i) then
        let self := append_log "=== Close requested (cam display) ===" self in
        set_threads (alter set_stop_requested i (threads self)) self
      else append_log "Cam display is not running." self
  | None => append_log "Cam display is not running." self
  end.

(** The callbacks of lines 687-700, by the slot [finished] was connected to. *)
Definition finished_callback (slot : FinishedSlot) (self : MainWindow) : MainWindow :=
  match slot with
  | on_source_finished label =>
      toggle_source_buttons false (append_log ("=== " ++ label ++ " finished ===") self)
  | on_shelf_setup_finished => append_log "=== Shelf setup finished ===" self
  | on_shelf_service_finished =>
      toggle_shelf_service_buttons false (append_log "=== Shelf service finished ===" self)
  | on_display_finished =>
      toggle_display_buttons false (append_log "=== Cam display finished ===" self)
  end.

(** [default_root_devices_dir] (lines 28-46); [home] is
    [os.path.expanduser("~")]. *)
Definition default_root_devices_dir (fs : FileSystem) (home : string) : string :=
  let preferred :=
    posixpath.join_all "E:/Projects/retrux-shelf-components-main"
      ["retruxosaproject"; "app_root"; "active_state"; "devices"] in
  let parent := posixpath.dirname preferred in
  if isdir fs parent || isdir fs preferred then posixpath.normpath preferred
  else posixpath.join_all home ["retruxosaproject"; "app_root"; "active_state"; "devices"].

(** [{os.path.basename(p): p for p in images}]: a later path replaces an
    earlier one of the same name. *)
Definition dict_of_images (images : list string) : gmap string string :=
  foldl (fun m p => <[posixpath.basename p := p]> m) ∅ images.

(** Lines 503-510 and 526-533: the entry that is current after the combo
    box was refilled. *)
Definition restore_selection (all_item : ItemData) (items : list ItemData)
  (current : ItemData) : ItemData :=
  if bool_decide (current = no_item) then all_item
  else if bool_decide (current = all_item) then all_item
  else if bool_decide (current ∈ tail items) then current
  else all_item.

(** [MainWindow.rescan_items] (lines 489-543); [cams] is what
    [scan_camera(100)] returns. *)
Definition rescan_items (fs : FileSystem) (cams : list Z) (initial : bool)
  (self : MainWindow) : M MainWindow :=
  let i := inputs self in
  let devices_dir := get_devices_dir_normalized (path_edit i) in
  match source_combo i with
  | src_images =>
      match find_jpg_images fs devices_dir with
      | inl e => raise e
      | inr images =>
          let dict := dict_of_images images in
          let self := set_caches (mkCaches (detected_cameras (caches self)) images dict) self in
          let items := ALL_IMG :: map image_item (sorted (map fst (map_to_list dict))) in
          let self := set_inputs (mkInputs (path_edit i) (source_combo i) items
                                    (restore_selection ALL_IMG items (item_combo i))
                                    (display_title_edit i)) self in
          let self :=
            if bool_decide (images = []) then
              append_log ("[Images] No .jpg files found in: " ++ devices_dir) self
            else
              append_log ("[Images] Found " ++ str_of_int (len images) ++ " image(s) in: "
                          ++ devices_dir) self in
          if initial && bool_decide (images = []) then
            perform (QMessageBox_information "Scan"
                       ("No .jpg images in:" ++ newline ++ devices_dir)) ;;
            mret self
          else mret self
      end
  | src_cameras =>
      let self := set_caches (mkCaches cams (detected_images (caches self))
                                (image_name_to_path (caches self))) self in
      let items := ALL_CAM :: map camera_item cams in
      let self := set_inputs (mkInputs (path_edit i) (source_combo i) items
                                (restore_selection ALL_CAM items (item_combo i))
                                (display_title_edit i)) self in
      let self :=
        if bool_decide (cams = []) then append_log "[Cameras] No valid cameras found." self
        else append_log ("[Cameras] Found cameras: " ++ repr_int_list cams) self in
      if initial && bool_decide (cams = []) then
        perform (QMessageBox_information "Scan" "No cameras detected on first scan.") ;;
        mret self
      else mret self
  end.

(** [MainWindow.__init__] (lines 374-474): the widgets, the empty holders
    and caches, then the two initial scans. *)
Definition MainWindow_init (fs : FileSystem) (home : string) (cams : list Z) : M MainWindow :=
  let self :=
    mkMainWindow
      (mkInputs (default_root_devices_dir fs home) src_images [] no_item "Product Detection")
      (mkButtons true false true false true false)
      (mkCaches [] [] ∅)
      (mkHolders None None None)
      []
      [] in
  self ← rescan_items fs cams false self ;
  rescan_items fs cams true self.

(** What can happen to the window: the user acts on a widget, or a worker
    thread ends or delivers its [finished] signal. *)
Inductive Event : Type :=
| ev_start_source
| ev_stop_source
| ev_run_shelf_setup
| ev_start_shelf_service
| ev_stop_shelf_service
| ev_start_cam_display
| ev_stop_cam_display
| ev_rescan (fs : FileSystem) (cams : list Z)
| ev_source_changed (src : Source) (fs : FileSystem) (cams : list Z)
| ev_item_selected (index : nat)
| ev_path_edited (text : string)
| ev_browse (path : string) (fs : FileSystem) (cams : list Z)
| ev_title_edited (text : string)
| ev_thread_exits (thread : nat)           (* run() has returned *)
| ev_finished_delivered (thread : nat).    (* the slot of finished runs *)

Definition handle (h : Host) (ev : Event) (self : MainWindow) : M MainWindow :=
  let i := inputs self in
  match ev with
  | ev_start_source => start_source h self
  | ev_stop_source => mret (stop_source self)
  | ev_run_shelf_setup => run_shelf_setup h self
  | ev_start_shelf_service => start_shelf_service h self
  | ev_stop_shelf_service => mret (stop_shelf_service self)
  | ev_start_cam_display => start_cam_display h self
  | ev_stop_cam_display => mret (stop_cam_display self)
  | ev_rescan fs cams => rescan_items fs cams false self
  | ev_source_changed src fs cams =>
      rescan_items fs cams false
        (set_inputs (mkInputs (path_edit i) src (item_combo_items i) (item_combo i)
                       (display_title_edit i)) self)
  | ev_item_selected index =>
      match item_combo_items i !! index with
      | Some data =>
          mret (set_inputs (mkInputs (path_edit i) (source_combo i) (item_combo_items i) data
                              (display_title_edit i)) self)
      | None => mret self
      end
  | ev_path_edited text =>
      mret (set_inputs (mkInputs text (source_combo i) (item_combo_items i) (item_combo i)
                          (display_title_edit i)) self)
  | ev_browse path fs cams =>
      if String.eqb path "" then mret self
      else rescan_items fs cams false
             (set_inputs (mkInputs path (source_combo i) (item_combo_items i) (item_combo i)
                            (display_title_edit i)) self)
  | ev_title_edited text =>
      mret (set_inputs (mkInputs (path_edit i) (source_combo i) (item_combo_items i)
                          (item_combo i) text) self)
  | ev_thread_exits thread =>
      mret (set_threads (alter (set_running false) thread (threads self)) self)
  | ev_finished_delivered thread =>
      match threads self !! thread with
      | Some t => mret (finished_callback (finished_slot t) self)
      | None => mret self
      end
  end.

(** The windows that can arise: the constructed one, and what handling an
    event without a fault leads to. *)
Inductive reachable (h : Host) : MainWindow -> Prop :=
| reachable_init fs home cams t self :
    MainWindow_init fs home cams = (t, Returned self) -> reachable h self
| reachable_step ev self t self' :
    reachable h self -> handle h ev self = (t, Returned self') -> reachable h self'.

(** The three slots. *)
Inductive Slot : Type := slot_source | slot_scan_tool | slot_display_tool.

Definition slot_of (w : Worker) : Slot :=
  match w with
  | W_CameraServer _ | W_ImageSource _ => slot_source
  | W_ShelfScan _ => slot_scan_tool
  | W_CamDisplay _ => slot_display_tool
  end.

Definition holder_of (s : Slot) (self : MainWindow) : option nat :=
  match s with
  | slot_source => active_worker (holders self)
  | slot_scan_tool => shelf_worker (holders self)
  | slot_display_tool => display_worker (holders self)
  end.

(* ===================================================================== *)
(** ** Vocabulary of the statements                                       *)
(* ===================================================================== *)

Import posixpath.

(** No separator occurs in [s]. *)
Fixpoint no_sep (s : string) : bool :=
  match s with
  | EmptyString => true
  | String c s' => negb (Ascii.eqb c "/") && no_sep s'
  end.

(** A path component that [normpath] keeps as it is. *)
Definition plain (c : string) : Prop :=
  c <> "" /\ c <> "." /\ c <> ".." /\ no_sep c = true.

(** The shape of the components [normpath] ends with: ".." only in
    front, and only when the path has no leading slash ([k] = 0). *)
Definition normal_comps (k : nat) (l : list string) : Prop :=
  exists n l', l = (repeat ".." n ++ l')%list /\ Forall plain l' /\ (k <> 0%nat -> n = 0%nat).

(** The number of slashes [s] begins with. *)
Fixpoint leading_slashes (s : string) : nat :=
  match s with
  | String c s' => if Ascii.eqb c "/" then S (leading_slashes s') else 0
  | EmptyString => 0
  end.

(** [normpath] in terms of the components its loop keeps. *)
Definition normpath_comps (path : string) : list string :=
  fold_left (normpath_step (initial_slashes path)) (split_sep path) [].

(** [s] begins with a character [strip] removes. *)
Definition leading_space (s : string) : bool :=
  match s with
  | String c1 s1 =>
      is_space c1
      || match s1 with
         | String c2 s2 =>
             is_space2 c1 c2
             || match s2 with
                | String c3 _ => is_space3 c1 c2 c3
                | EmptyString => false
                end
         | EmptyString => false
         end
  | EmptyString => false
  end.


(** An ASCII character that is not white space. *)
Definition plain_byte (c : ascii) : bool :=
  (nat_of_ascii c <? 128)%nat && negb (is_space c).

(** [s] ends with such a character. *)
Fixpoint ends_plain (s : string) : bool :=
  match s with
  | EmptyString => false
  | String c EmptyString => plain_byte c
  | String _ s' => ends_plain s'
  end.






(** How many times [finished] is emitted. *)
Definition count_finished (t : list Effect) : nat :=
  length (List.filter (fun ev => match ev with finished_emit => true | _ => false end) t).

(** The effects that change the filesystem. *)
Definition touches_filesystem (ev : Effect) : bool :=
  match ev with
  | shutil_rmtree _ | os_makedirs _ => true
  | _ => false
  end.

(** Signals of the worker and the pause of its polling loop. *)
Definition signal_or_poll (ev : Effect) : bool :=
  match ev with
  | log_emit _ | running_changed_emit _ | finished_emit | sleep_1 => true
  | _ => false
  end.


Definition count_effects (p : Effect -> bool) (t : list Effect) : nat :=
  length (List.filter p t).

Definition is_finished (ev : Effect) : bool :=
  match ev with finished_emit => true | _ => false end.

(** Every effect of (the trace of) [m] satisfies [p]. *)
Definition all_effects {A} (p : Effect -> bool) (m : M A) : Prop :=
  forallb p (trace m) = true.

(** A world in which nothing raises, every service has a thread, and the
    stop flag is set from the [stop_after]-th poll on. *)
Definition quiet_world (stop_after : nat) : CameraWorld :=
  {| makedirs_raises := fun _ => None;
     init_raises := fun _ => None;
     camera_id_attr := fun svc => "camera_" ++ svc_camera_str svc;
     start_raises := fun _ => None;
     stop_raises := fun _ => None;
     has_thread := fun _ => true;
     join_raises := fun _ => None;
     stop_event_is_set := fun n => (stop_after <=? n)%nat |}.

Definition camera_busy : PyException :=
  mkException "camera busy" "Traceback (most recent call last): RuntimeError: camera busy".

(** As [quiet_world], but [start()] of camera 0 raises. *)
Definition world_start_raises : CameraWorld :=
  {| makedirs_raises := fun _ => None;
     init_raises := fun _ => None;
     camera_id_attr := fun svc => "camera_" ++ svc_camera_str svc;
     start_raises := fun svc => if (svc_camera_index svc =? 0)%Z then Some camera_busy else None;
     stop_raises := fun _ => None;
     has_thread := fun _ => true;
     join_raises := fun _ => None;
     stop_event_is_set := fun _ => true |}.


(** The four worker runs, each with what it runs against. *)
Inductive WorkerRun : Type :=
| run_camera_server (w : CameraWorld) (self : CameraServerWorker) (fuel : nat)
| run_image_source (is_set : nat -> bool) (self : ImageSourceWorker) (fuel : nat)
| run_shelf_scan (w : ToolWorld) (self : ShelfScanWorker)
| run_cam_display (w : ToolWorld) (self : CamDisplayWorker).

Definition run_of (r : WorkerRun) : M unit :=
  match r with
  | run_camera_server w self fuel => CameraServerWorker_run w self fuel
  | run_image_source is_set self fuel => ImageSourceWorker_run is_set self fuel
  | run_shelf_scan w self => ShelfScanWorker_run w self
  | run_cam_display w self => CamDisplayWorker_run w self
  end.

(** The [try] block of the run. *)
Definition body_of (r : WorkerRun) : M unit :=
  match r with
  | run_camera_server w self fuel => CameraServerWorker_run_body w self fuel
  | run_image_source is_set self fuel => ImageSourceWorker_run_body is_set self fuel
  | run_shelf_scan w self => ShelfScanWorker_run_body w self
  | run_cam_display w self => CamDisplayWorker_run_body w self
  end.

(** The line the [except] block of the run logs for the fault [e]. *)
Definition fault_line (r : WorkerRun) (e : PyException) : string :=
  match r with
  | run_camera_server _ _ _ | run_image_source _ _ _ =>
      "FATAL ERROR:" ++ newline ++ exc_format e
  | run_shelf_scan _ self =>
      "Error running shelf_scan.py (" ++ mode_str (scan_mode self) ++ "): " ++ exc_str e
  | run_cam_display _ _ => "Error running cam_display: " ++ exc_str e
  end.

(** [sub in s] *)
Fixpoint contains (s sub : string) : bool :=
  if String.prefix sub s then true
  else match s with
       | EmptyString => false
       | String _ s' => contains s' sub
       end.

(** No logged line of the trace holds [text]. *)
Definition never_logs (text : string) (t : list Effect) : bool :=
  forallb (fun ev => match ev with
                     | log_emit msg => negb (contains msg text)
                     | _ => true
                     end) t.

Definition launch_failed : PyException :=
  mkException "[Errno 8] Exec format error"
    "Traceback (most recent call last): OSError: [Errno 8] Exec format error".

(** A tool world where every file exists and [Popen] raises. *)
Definition world_popen_raises : ToolWorld :=
  {| isfile := fun _ => true;
     os_name := "posix";
     Popen_result := fun _ => inl launch_failed;
     child_lines := [];
     readline_raises := fun _ => None;
     stop_at := None;
     wait_rc := 0 |}.

Definition not_finished (ev : Effect) : bool := negb (is_finished ev).

(** The effects after the [try] block of a run: what its [except] block
    does for a fault, and its [finally] block. *)
Definition after_body (r : WorkerRun) (o : Outcome unit) : list Effect :=
  match o with
  | Unfinished => []
  | Returned _ =>
      match r with
      | run_camera_server _ _ _ | run_image_source _ _ _ =>
          [running_changed_emit false; finished_emit]
      | _ => [finished_emit]
      end
  | Raised e =>
      match r with
      | run_camera_server _ _ _ =>
          [log_emit (fault_line r e); QMessageBox_critical "Camera Server Error" (exc_str e);
           running_changed_emit false; finished_emit]
      | run_image_source _ _ _ =>
          [log_emit (fault_line r e); running_changed_emit false; finished_emit]
      | _ => [log_emit (fault_line r e); finished_emit]
      end
  end.

(** The run has left its [try] block (it is not still polling). *)
Definition finishes {A} (m : M A) : Prop := outcome m <> Unfinished.

(** The stop flag of a polling worker is seen set within its fuel; the
    tool workers do not poll. *)
Definition stop_is_seen (r : WorkerRun) : Prop :=
  match r with
  | run_camera_server w _ fuel => exists n, (n < fuel)%nat /\ stop_event_is_set w n = true
  | run_image_source is_set _ fuel => exists n, (n < fuel)%nat /\ is_set n = true
  | run_shelf_scan _ _ | run_cam_display _ _ => True
  end.

(** A tool world where no file exists. *)
Definition world_no_files : ToolWorld :=
  {| isfile := fun _ => false;
     os_name := "posix";
     Popen_result := fun _ => inr 1%Z;
     child_lines := [];
     readline_raises := fun _ => None;
     stop_at := None;
     wait_rc := 0 |}.

(** [cmd] of line 226. *)
Definition scan_cmd (self : ShelfScanWorker) : list string :=
  [scan_python_exe self; "-u"; shelf_scan_path self; mode_str (scan_mode self)].

(** [display_path] of line 306. *)
Definition display_path (self : CamDisplayWorker) : string :=
  posixpath.join_all (display_project_root self) ["cam_display"; "display_camera.py"].

(** [cmd] of lines 315-319. *)
Definition display_cmd (self : CamDisplayWorker) : list string :=
  [display_python_exe self; "-u"; display_path self;
   "--root-dir"; display_root_dir self; "--title"; display_title self].

(** What the reader loops do for lines they forward: read, then log the
    line without its trailing whitespace. *)
Definition forward_trace (lines : list string) : list Effect :=
  flat_map (fun line => [stdout_readline line; log_emit (rstrip line)]) lines.

(** How many of [lines] the reader loop of the scan tool forwards, the
    first of them being the [k]-th line read. *)
Fixpoint lines_before_stop (w : ToolWorld) (mode : ScanMode) (lines : list string) (k : nat)
  : nat :=
  match lines with
  | [] => 0
  | _ :: rest =>
      if stop_seen_at_check w k && is_service mode then 0
      else S (lines_before_stop w mode rest (S k))
  end.

(** The two tool workers, as one type. *)
Inductive ToolWorker : Type :=
| tool_scan (self : ShelfScanWorker)
| tool_display (self : CamDisplayWorker).

Definition tool_run (w : ToolWorld) (t : ToolWorker) : M unit :=
  match t with
  | tool_scan self => ShelfScanWorker_run w self
  | tool_display self => CamDisplayWorker_run w self
  end.

Definition tool_path (t : ToolWorker) : string :=
  match t with
  | tool_scan self => shelf_scan_path self
  | tool_display self => display_path self
  end.

Definition tool_cmd (t : ToolWorker) : list string :=
  match t with
  | tool_scan self => scan_cmd self
  | tool_display self => display_cmd self
  end.

Definition tool_cwd (t : ToolWorker) : string :=
  match t with
  | tool_scan self => scan_project_root self
  | tool_display self => display_project_root self
  end.

(** What a tool worker emits before it calls [Popen]. *)
Definition tool_before_spawn (t : ToolWorker) : list Effect :=
  match t with
  | tool_scan self =>
      [log_emit ("Executing with interpreter: " ++ scan_python_exe self);
       log_emit ("Command: " ++ join_space (scan_cmd self));
       mode_changed_emit (mode_str (scan_mode self))]
  | tool_display self =>
      [log_emit ("Executing cam display: " ++ join_space (display_cmd self))]
  end.

Definition tool_started_line (t : ToolWorker) (pid : Z) : string :=
  match t with
  | tool_scan self =>
      "shelf_scan.py (" ++ mode_str (scan_mode self) ++ ") started (pid=" ++ str_of_int pid ++ ")"
  | tool_display _ => "cam_display started (pid=" ++ str_of_int pid ++ ")"
  end.

Definition tool_exit_line (t : ToolWorker) (rc : Z) : string :=
  match t with
  | tool_scan self =>
      "shelf_scan.py (" ++ mode_str (scan_mode self) ++ ") exited with code " ++ str_of_int rc
  | tool_display _ => "cam_display exited with code " ++ str_of_int rc
  end.

Definition tool_reader (w : ToolWorld) (t : ToolWorker) : M unit :=
  match t with
  | tool_scan self => scan_reader_loop w (scan_mode self) (child_lines w) 0
  | tool_display _ => display_reader_loop w (child_lines w) 0
  end.

(** A service-mode run of three lines where [stop()] comes after the
    first line was forwarded and before the second is read. *)
Definition world_stopped_early : ToolWorld :=
  {| isfile := fun _ => true;
     os_name := "nt";
     Popen_result := fun _ => inr 4242%Z;
     child_lines := ["scanning shelf 1 " ++ newline; "scanning shelf 2" ++ newline; "done"];
     readline_raises := fun _ => None;
     stop_at := Some 2%nat;
     wait_rc := 1 |}.

(** The first effects of a run of the camera worker with a selection and
    a device directory that could be prepared (lines 87-103). *)
Definition startup_header (self : CameraServerWorker) : list Effect :=
  [log_emit "Background Camera Server System";
   running_changed_emit true;
   log_emit ("Preparing directory: " ++ root_devices_dir self);
   shutil_rmtree (root_devices_dir self);
   os_makedirs (root_devices_dir self);
   log_emit "Searching For Valid Cameras...";
   log_emit ("Found " ++ str_of_int (len (camera_indices self)) ++ " Cameras");
   log_emit "Starting Background Services..."].

(** What the camera worker does for a fault of its [try] block: the
    [except] block (lines 143-145), then the [finally] block. *)
Definition fault_report (e : PyException) : list Effect :=
  [log_emit ("FATAL ERROR:" ++ newline ++ exc_format e);
   QMessageBox_critical "Camera Server Error" (exc_str e);
   running_changed_emit false;
   finished_emit].


(** The [try / except / finally] frame of the run of a worker, around any
    [try] block. *)
Definition frame_of (r : WorkerRun) (body : M unit) : M unit :=
  match r with
  | run_camera_server _ _ _ => CameraServerWorker_frame body
  | run_image_source _ _ _ => ImageSourceWorker_frame body
  | run_shelf_scan _ self => ShelfScanWorker_frame self body
  | run_cam_display _ _ => CamDisplayWorker_frame body
  end.

(** A [try] block that raises after its first emission. *)
Definition faulty_block : M unit := ([running_changed_emit true], Raised camera_busy).



(** The first of the [count] reads from the [k]-th on that raises, with
    its exception. *)
Fixpoint first_read_fault (w : ToolWorld) (count k : nat) : option (nat * PyException) :=
  match count with
  | O => None
  | S count' =>
      match readline_raises w k with
      | Some e => Some (k, e)
      | None => first_read_fault w count' (S k)
      end
  end.

(** How many lines a tool worker forwards when no read raises: the scan
    tool until its stop flag is seen, the display tool all of them. *)
Definition tool_forwarded (w : ToolWorld) (t : ToolWorker) : nat :=
  match t with
  | tool_scan self => lines_before_stop w (scan_mode self) (child_lines w) 0
  | tool_display _ => length (child_lines w)
  end.

(** The line the [except] block of a tool worker logs for the fault [e]
    (lines 261 and 346). *)
Definition tool_error_line (t : ToolWorker) (e : PyException) : string :=
  match t with
  | tool_scan self =>
      "Error running shelf_scan.py (" ++ mode_str (scan_mode self) ++ "): " ++ exc_str e
  | tool_display _ => "Error running cam_display: " ++ exc_str e
  end.

(** What a tool worker does after its process was spawned, by the read
    that raises first, if any: the lines forwarded, then either the read
    that ends the loop, the wait and the exit-code line, or the read that
    raised and the error line. *)
Definition after_spawn (w : ToolWorld) (t : ToolWorker) : list Effect :=
  match first_read_fault w (S (tool_forwarded w t)) 0 with
  | None =>
      (forward_trace (take (tool_forwarded w t) (child_lines w))
       ++ [stdout_readline (nth (tool_forwarded w t) (child_lines w) "");
           process_wait (wait_rc w);
           log_emit (tool_exit_line t (wait_rc w));
           finished_emit])%list
  | Some (j, e) =>
      (forward_trace (take j (child_lines w))
       ++ [stdout_readline_raises e;
           log_emit (tool_error_line t e);
           finished_emit])%list
  end.

Definition undecodable : PyException :=
  mkException "'utf-8' codec can't decode byte 0xff in position 0: invalid start byte"
    "Traceback (most recent call last): UnicodeDecodeError".

(** A process whose second line of output is not text: the second
    [readline()] raises. *)
Definition world_undecodable : ToolWorld :=
  {| isfile := fun _ => true;
     os_name := "posix";
     Popen_result := fun _ => inr 4242%Z;
     child_lines := ["scanning shelf 1" ++ newline; "scanning shelf 2" ++ newline];
     readline_raises := fun k => if (k =? 1)%nat then Some undecodable else None;
     stop_at := None;
     wait_rc := 0 |}.

(** At most one worker of each slot is running. *)
Definition one_running_per_slot (self : MainWindow) : Prop :=
  forall i j ti tj,
    threads self !! i = Some ti -> threads self !! j = Some tj ->
    isRunning ti = true -> isRunning tj = true ->
    slot_of (thread_worker ti) = slot_of (thread_worker tj) ->
    i = j.

(** Every running worker is the one its slot's holder refers to. *)
Definition running_is_held (self : MainWindow) : Prop :=
  forall i t,
    threads self !! i = Some t -> isRunning t = true ->
    holder_of (slot_of (thread_worker t)) self = Some i.

(** The start request of a slot; the scan-tool slot has two. *)
Inductive StartRequest : Type :=
| request_start_source
| request_run_shelf_setup
| request_start_shelf_service
| request_start_cam_display.

Definition request_slot (q : StartRequest) : Slot :=
  match q with
  | request_start_source => slot_source
  | request_run_shelf_setup | request_start_shelf_service => slot_scan_tool
  | request_start_cam_display => slot_display_tool
  end.

Definition request (h : Host) (q : StartRequest) (self : MainWindow) : M MainWindow :=
  match q with
  | request_start_source => start_source h self
  | request_run_shelf_setup => run_shelf_setup h self
  | request_start_shelf_service => start_shelf_service h self
  | request_start_cam_display => start_cam_display h self
  end.

(** The dialog that reports a busy slot to the user. *)
Definition busy_dialog (q : StartRequest) : Effect :=
  match q with
  | request_start_source => QMessageBox_information "Running" "Source is already running."
  | request_run_shelf_setup => QMessageBox_information "Shelf" "Another shelf_scan is running."
  | request_start_shelf_service =>
      QMessageBox_information "Shelf Service" "Shelf service already running."
  | request_start_cam_display =>
      QMessageBox_information "Cam Display" "Cam display already running."
  end.

(** A machine with no device directory and one camera, index 3. *)
Definition bare_filesystem : FileSystem :=
  {| isdir := fun _ => false; listdir := fun _ => inr [] |}.

Definition example_host : Host :=
  {| sys_executable := "/usr/bin/python3";
     project_root_dir := "/proj";
     int_of_str := fun _ => inl (mkException "invalid literal for int()" "ValueError");
     int_of_None := mkException "int() argument must be a string or a number" "TypeError";
     host_makedirs_raises := fun _ => None |}.

Definition blank_window : MainWindow :=
  mkMainWindow (mkInputs "" src_images [] no_item "") (mkButtons true false true false true false)
    (mkCaches [] [] ∅) (mkHolders None None None) [] [].

(** The state a computation returned. *)
Definition returned_window (m : M MainWindow) : MainWindow :=
  match m with
  | (_, Returned self) => self
  | _ => blank_window
  end.

(** The window after: construction, switching the source to cameras, and
    a click on Start.  Its source slot holds a running camera worker. *)
Definition window_started : MainWindow :=
  Eval vm_compute in
    returned_window
      (self ← MainWindow_init bare_filesystem "/home/user" [3%Z] ;
       self ← handle example_host (ev_source_changed src_cameras bare_filesystem [3%Z]) self ;
       handle example_host ev_start_source self).

(** A filesystem whose only directory is the relative path "data/devices". *)
Definition relative_filesystem : FileSystem :=
  {| isdir := fun p => String.eqb p "data/devices";
     listdir := fun _ => inr ["shelf_b.JPG"; "notes.txt"; "shelf_a.jpg"; "jpg"] |}.

(** The no-break space U+00A0, which [str.strip] removes. *)
Definition nbsp : string := String (ascii_of_nat 194) (String (ascii_of_nat 160) "").

(** [PermissionError], as [os.listdir] raises it on a directory that may
    not be read. *)
Definition permission_denied : PyException :=
  mkException "[Errno 13] Permission denied"
    "Traceback (most recent call last): PermissionError".

(** A filesystem whose directories cannot be listed. *)
Definition locked_filesystem : FileSystem :=
  {| isdir := fun _ => true;
     listdir := fun _ => inl permission_denied |}.


(* ===================================================================== *)
(** ** stop() of the tool workers (lines 265-285 and 350-369)             *)
(* ===================================================================== *)

(** The calls [stop()] makes on its worker and on the process object. *)
Inductive ProcessCall : Type :=
| set_stop_flag                      (* self._stop = True *)
| process_poll                       (* self._process.poll() *)
| send_CTRL_BREAK                    (* self._process.send_signal(signal.CTRL_BREAK_EVENT) *)
| wait_timeout (seconds : Z)         (* self._process.wait(timeout=seconds) *)
| process_terminate                  (* self._process.terminate() *)
| process_kill.                      (* self._process.kill() *)

(** What the process object answers to one [stop()].  The calls that can
    raise are told apart by their place in the method; [poll()] returns. *)
Record ProcessWorld := mkProcessWorld {
  (* self._process is not None: run() has reached Popen *)
  process_spawned : bool;
  (* self._process.poll() is None: the process has not exited *)
  poll_is_None : bool;
  stop_os_name : string;
  send_signal_raises : option PyException;
  (* the wait after CTRL_BREAK_EVENT: TimeoutExpired or another exception *)
  first_wait_raises : option PyException;
  terminate_raises : option PyException;
  (* the wait before kill() *)
  second_wait_raises : option PyException;
  (* kill() after the second wait raised *)
  kill_raises : option PyException;
  (* kill() in the outer [except] block *)
  last_kill_raises : option PyException;
}.

(** A computation on a process: its calls so far, and how it ended. *)
Definition Calls (A : Type) : Type := (list ProcessCall * Outcome A)%type.

Definition calls_made {A} (m : Calls A) : list ProcessCall := fst m.
Definition calls_outcome {A} (m : Calls A) : Outcome A := snd m.

Definition calls_ret {A} (a : A) : Calls A := ([], Returned a).

Definition calls_bind {A B} (m : Calls A) (f : A -> Calls B) : Calls B :=
  match m with
  | (t, Returned a) => let '(t', o) := f a in ((t ++ t')%list, o)
  | (t, Raised e) => (t, Raised e)
  | (t, Unfinished) => (t, Unfinished)
  end.

(** One call, which raises or returns. *)
Definition process_call (c : ProcessCall) (fault : option PyException) : Calls unit :=
  match fault with
  | Some exn => ([c], Raised exn)
  | None => ([c], Returned tt)
  end.

(** [try: body / except Exception: handler] *)
Definition calls_try {A} (body : Calls A) (handler : Calls A) : Calls A :=
  match body with
  | (t, Raised _) => let '(t', o) := handler in ((t ++ t')%list, o)
  | other => other
  end.

(** Lines 267-285 and 351-369: the two methods have the same text from
    the test of the process on, but for the timeout of the two waits. *)
Definition stop_process (w : ProcessWorld) (timeout : Z) : Calls unit :=
  if process_spawned w then
    calls_bind (process_call process_poll None) (fun _ =>
    if poll_is_None w then
      calls_try
        (calls_bind
           (if String.eqb (stop_os_name w) "nt" then
              calls_bind (process_call send_CTRL_BREAK (send_signal_raises w)) (fun _ =>
              calls_try
                (process_call (wait_timeout timeout) (first_wait_raises w))
                (process_call process_terminate (terminate_raises w)))
            else process_call process_terminate (terminate_raises w))
           (fun _ =>
            calls_try
              (process_call (wait_timeout timeout) (second_wait_raises w))
              (process_call process_kill (kill_raises w))))
        (calls_try
           (process_call process_kill (last_kill_raises w))
           (calls_ret tt))
    else calls_ret tt)
  else calls_ret tt.

(** [ShelfScanWorker.stop] (lines 265-285) *)
Definition ShelfScanWorker_stop (w : ProcessWorld) : Calls unit :=
  calls_bind (process_call set_stop_flag None) (fun _ => stop_process w 3).

(** [CamDisplayWorker.stop] (lines 350-369) *)
Definition CamDisplayWorker_stop (w : ProcessWorld) : Calls unit :=
  stop_process w 2.

Definition is_signal (c : ProcessCall) : bool :=
  match c with
  | send_CTRL_BREAK | process_terminate | process_kill => true
  | _ => false
  end.

Definition is_kill (c : ProcessCall) : bool :=
  match c with process_kill => true | _ => false end.

Definition is_wait (c : ProcessCall) : bool :=
  match c with wait_timeout _ => true | _ => false end.

(** The soft signal of the platform: what [stop()] sends first. *)
Definition soft_signal (w : ProcessWorld) : ProcessCall :=
  if String.eqb (stop_os_name w) "nt" then send_CTRL_BREAK else process_terminate.

(** The seconds [stop()] can spend in its waits. *)
Fixpoint waited_seconds (t : list ProcessCall) : Z :=
  match t with
  | [] => 0
  | wait_timeout s :: t' => s + waited_seconds t'
  | _ :: t' => waited_seconds t'
  end.

(** No call of the world raises. *)
Definition nothing_raises (w : ProcessWorld) : Prop :=
  send_signal_raises w = None /\ first_wait_raises w = None /\ terminate_raises w = None
  /\ second_wait_raises w = None /\ kill_raises w = None /\ last_kill_raises w = None.

Definition timeout_expired : PyException :=
  mkException "Command timed out after 3 seconds" "subprocess.TimeoutExpired".

(** A POSIX process that ignores SIGTERM: the second wait times out. *)
Definition stubborn_process : ProcessWorld :=
  {| process_spawned := true;
     poll_is_None := true;
     stop_os_name := "posix";
     send_signal_raises := None;
     first_wait_raises := None;
     terminate_raises := None;
     second_wait_raises := Some timeout_expired;
     kill_raises := None;
     last_kill_raises := None |}.

(** A Windows process that exits on CTRL_BREAK. *)
Definition obedient_process : ProcessWorld :=
  {| process_spawned := true;
     poll_is_None := true;
     stop_os_name := "nt";
     send_signal_raises := None;
     first_wait_raises := None;
     terminate_raises := None;
     second_wait_raises := None;
     kill_raises := None;
     last_kill_raises := None |}.

(* ===================================================================== *)
(** ** MainWindow.closeEvent (lines 719-746)                              *)
(* ===================================================================== *)

(** What [closeEvent] does, call by call. *)
Inductive ShutdownCall : Type :=
| request_stop_call (thread : nat)   (* self.active_worker.request_stop() *)
| worker_stop_call (thread : nat)    (* self.shelf_worker.stop(), self.display_worker.stop() *)
| processEvents                      (* QApplication.processEvents() *)
| sleep_50ms                         (* time.sleep(0.05) *)
| event_accept.                      (* event.accept() *)

(** [for _ in range(budget): if not worker.isRunning(): break;
    processEvents(); sleep(0.05)].  [still_running k] is what the [k]-th
    [isRunning()] that [closeEvent] makes on the worker after it was
    entered answers: the thread ends on its own time.  The slots that
    [processEvents()] runs (lines 687-700) write to the log view and the
    buttons only, which [closeEvent] does not read; no start request is
    taken to be pending, so no worker starts meanwhile. *)
Fixpoint wait_until_stopped (still_running : nat -> bool) (budget k : nat)
  : list ShutdownCall :=
  match budget with
  | O => []
  | S budget' =>
      if still_running k then
        processEvents :: sleep_50ms :: wait_until_stopped still_running budget' (S k)
      else []
  end.

(** [hasattr(self.active_worker, "request_stop")]: the two source workers
    define the method, the tool workers do not. *)
Definition hasattr_request_stop (self : MainWindow) (i : nat) : bool :=
  match threads self !! i with
  | Some t =>
      match thread_worker t with
      | W_CameraServer _ | W_ImageSource _ => true
      | W_ShelfScan _ | W_CamDisplay _ => false
      end
  | None => false
  end.

(** The test of line 721, made as the method is entered: the window's
    record of the thread is what [isRunning()] answers then. *)
Definition running_at_entry (self : MainWindow) (i : nat) : bool :=
  holder_is_running self (Some i).

(** The tests of lines 730 and 738, made after the waits before them: a
    worker that was running when the method was entered may have ended
    since, and [isRunning()] is asked anew (answer 0 of the worker); a
    worker that was not running is not running now. *)
Definition running_when_reached (still_running : nat -> nat -> bool) (self : MainWindow)
  (i : nat) : bool :=
  holder_is_running self (Some i) && still_running i 0.

(** One of the three blocks of [closeEvent]: when the test [guard] of the
    holder's worker succeeds, the stop call (if the worker has the method,
    for the first block), then the bounded wait, whose first
    [isRunning()] is answer [first_poll] of the worker. *)
Definition close_slot (stop_call : nat -> ShutdownCall) (has_method : nat -> bool)
  (budget : nat) (guard : nat -> bool) (first_poll : nat)
  (still_running : nat -> nat -> bool) (self : MainWindow)
  (holder : option nat) : list ShutdownCall * MainWindow :=
  match holder with
  | Some i =>
      if guard i then
        if has_method i then
          (stop_call i :: wait_until_stopped (still_running i) budget first_poll,
           set_threads (alter set_stop_requested i (threads self)) self)
        else (wait_until_stopped (still_running i) budget first_poll, self)
      else ([], self)
  | None => ([], self)
  end.

(** [MainWindow.closeEvent].  [still_running i k] is the answer of the
    [k]-th [isRunning()] made on worker [i] after the method was entered.
    The second and third block call [stop()] without a test:
    [shelf_worker] and [display_worker] are only ever assigned tool
    workers, which define it. *)
Definition closeEvent (still_running : nat -> nat -> bool) (self : MainWindow)
  : list ShutdownCall * MainWindow :=
  let '(t1, self) :=
    close_slot request_stop_call (hasattr_request_stop self) 20
      (running_at_entry self) 0 still_running self
      (active_worker (holders self)) in
  let '(t2, self) :=
    close_slot worker_stop_call (fun _ => true) 60
      (running_when_reached still_running self) 1 still_running self
      (shelf_worker (holders self)) in
  let '(t3, self) :=
    close_slot worker_stop_call (fun _ => true) 20
      (running_when_reached still_running self) 1 still_running self
      (display_worker (holders self)) in
  ((t1 ++ t2 ++ t3 ++ [event_accept])%list, self).

Definition count_calls (p : ShutdownCall -> bool) (t : list ShutdownCall) : nat :=
  length (List.filter p t).

Definition is_sleep_50ms (c : ShutdownCall) : bool :=
  match c with sleep_50ms => true | _ => false end.
Definition is_processEvents (c : ShutdownCall) : bool :=
  match c with processEvents => true | _ => false end.
Definition is_event_accept (c : ShutdownCall) : bool :=
  match c with event_accept => true | _ => false end.
Definition is_stop_call (c : ShutdownCall) : bool :=
  match c with request_stop_call _ | worker_stop_call _ => true | _ => false end.

(** The stop call [closeEvent] owes to a holder: one when the test of
    its block succeeds. *)
Definition stop_due (stop_call : nat -> ShutdownCall) (guard : nat -> bool)
  (holder : option nat) : list ShutdownCall :=
  match holder with
  | Some i => if guard i then [stop_call i] else []
  | None => []
  end.

(** The stop calls owed, in the order of the three blocks: to the source
    worker when it is running as the window is closed, to a tool worker
    when it is still running once its block is reached. *)
Definition stops_due (still_running : nat -> nat -> bool) (self : MainWindow)
  : list ShutdownCall :=
  (stop_due request_stop_call (running_at_entry self) (active_worker (holders self))
   ++ stop_due worker_stop_call (running_when_reached still_running self)
        (shelf_worker (holders self))
   ++ stop_due worker_stop_call (running_when_reached still_running self)
        (display_worker (holders self)))%list.

(** The workers that are running as the window is closed: what
    [closeEvent] asks to stop when none of them ends while it waits. *)
Definition running_at_close (self : MainWindow) : list ShutdownCall :=
  stops_due (fun _ _ => true) self.

(** The worker a stop call is made on. *)
Definition stop_call_worker (c : ShutdownCall) : option nat :=
  match c with
  | request_stop_call i | worker_stop_call i => Some i
  | _ => None
  end.

(** [n] rounds of the waiting loop. *)
Fixpoint polls (n : nat) : list ShutdownCall :=
  match n with
  | O => []
  | S n' => processEvents :: sleep_50ms :: polls n'
  end.

(* ===================================================================== *)
(** ** More vocabulary                                                    *)
(* ===================================================================== *)

(** Reading a decimal numeral back, as [int(s)] does for a numeral. *)
Definition int_of_numeral (s : string) : option Z :=
  option_map Z.of_int (NilZero.int_of_string s).

Definition is_rmtree_or_makedirs_of (path : string) (ev : Effect) : bool :=
  match ev with
  | shutil_rmtree p | os_makedirs p => String.eqb p path
  | _ => false
  end.

Definition is_Popen (ev : Effect) : bool :=
  match ev with subprocess_Popen _ _ _ _ => true | _ => false end.

Definition is_process_wait (ev : Effect) : bool :=
  match ev with process_wait _ => true | _ => false end.


(** The entry [d] of the item combo box fits the caches of the window:
    an image entry names a key of [image_name_to_path] whose path is not
    empty. *)
Definition image_entry (c : Caches) (d : ItemData) : Prop :=
  d = ALL_IMG
  \/ exists name path,
       d = image_item name /\ image_name_to_path c !! name = Some path /\ path <> "".

Definition camera_entry (d : ItemData) : Prop :=
  d = ALL_CAM \/ exists idx, d = camera_item idx.

(** The item combo box was filled for the source that is selected. *)
Definition selection_consistent (self : MainWindow) : Prop :=
  match source_combo (inputs self) with
  | src_images =>
      image_entry (caches self) (item_combo (inputs self))
      /\ Forall (image_entry (caches self)) (item_combo_items (inputs self))
  | src_cameras =>
      camera_entry (item_combo (inputs self))
      /\ Forall camera_entry (item_combo_items (inputs self))
  end.

Definition is_selection_warning (ev : Effect) : bool :=
  match ev with
  | QMessageBox_warning title _ => String.eqb title "Selection"
  | _ => false
  end.

(** The window after: construction, switching the source to cameras, and
    the choice of the entry of camera 3 in the item combo box. *)
Definition window_selected : MainWindow :=
  Eval vm_compute in
    returned_window
      (self ← MainWindow_init bare_filesystem "/home/user" [3%Z] ;
       self ← handle example_host (ev_source_changed src_cameras bare_filesystem [3%Z]) self ;
       handle example_host (ev_item_selected 1) self).





(** The started window after a click on Start Shelf Service: the source
    worker (thread 0) and the scan tool (thread 1) are running. *)
Definition window_two_running : MainWindow :=
  Eval vm_compute in
    returned_window (handle example_host ev_start_shelf_service window_started).

(** Every holder that is set refers to a worker object of its own slot:
    [active_worker] to one of the two source workers, [shelf_worker] to a
    [ShelfScanWorker], [display_worker] to a [CamDisplayWorker]. *)
Definition holders_typed (self : MainWindow) : Prop :=
  forall s i,
    holder_of s self = Some i ->
    exists t, threads self !! i = Some t /\ slot_of (thread_worker t) = s.

(** The log lines of a source worker that was given nothing to do. *)
Definition is_no_selection_line (ev : Effect) : bool :=
  match ev with
  | log_emit msg =>
      String.eqb msg "No cameras selected." || String.eqb msg "No images selected."
  | _ => false
  end.

(** The run of a source worker object, in any environment. *)
Definition source_runs_with_selection (worker : Worker) : Prop :=
  match worker with
  | W_CameraServer w =>
      camera_indices w <> []
      /\ forall world fuel,
           all_effects (fun ev => negb (is_no_selection_line ev))
             (CameraServerWorker_run world w fuel)
  | W_ImageSource w =>
      selected_images w <> []
      /\ forall is_set fuel,
           all_effects (fun ev => negb (is_no_selection_line ev))
             (ImageSourceWorker_run is_set w fuel)
  | W_ShelfScan _ | W_CamDisplay _ => False
  end.

(** The buttons of a pair are never both enabled or both disabled, and a
    Stop button is enabled only when its holder is set. *)
Definition buttons_follow_workers (self : MainWindow) : Prop :=
  start_btn (buttons self) = negb (stop_btn (buttons self))
  /\ shelf_service_start_btn (buttons self) = negb (shelf_service_stop_btn (buttons self))
  /\ display_start_btn (buttons self) = negb (display_stop_btn (buttons self))
  /\ (stop_btn (buttons self) = true -> active_worker (holders self) <> None)
  /\ (shelf_service_stop_btn (buttons self) = true -> shelf_worker (holders self) <> None)
  /\ (display_stop_btn (buttons self) = true -> display_worker (holders self) <> None).

(* ===================================================================== *)
(** * Part II. Properties                                                 *)
(* ===================================================================== *)

(* ===================================================================== *)
(** ** Strings and paths                                                  *)
(* ===================================================================== *)

(** [String.append] does not unfold under [simpl]: its two equations. *)
Lemma append_cons (c : ascii) (s t : string) : String c s ++ t = String c (s ++ t).
Proof. reflexivity. Qed.

Lemma append_nil_l (t : string) : "" ++ t = t.
Proof. reflexivity. Qed.

Ltac str_simpl := repeat (rewrite ?append_cons, ?append_nil_l; simpl).
Tactic Notation "str_simpl" "in" hyp(H) :=
  repeat (rewrite ?append_cons, ?append_nil_l in H; simpl in H).

Lemma append_nil_r (s : string) : s ++ "" = s.
Proof. induction s; str_simpl; congruence. Qed.

Lemma append_assoc (a b c : string) : (a ++ b) ++ c = a ++ (b ++ c).
Proof. induction a; str_simpl; congruence. Qed.

Lemma append_eq_nil (a b : string) : a ++ b = "" -> a = "" /\ b = "".
Proof. destruct a; str_simpl; [auto | discriminate]. Qed.

Lemma split_sep_not_nil (s : string) : split_sep s <> [].
Proof.
  induction s as [|c s IH]; simpl; [discriminate|].
  destruct (Ascii.eqb c "/"); [discriminate|].
  destruct (split_sep s); [contradiction | discriminate].
Qed.

Lemma split_sep_app (a b : string) :
  split_sep (a ++ String "/" b) = (split_sep a ++ split_sep b)%list.
Proof.
  induction a as [|c a IH]; str_simpl; [reflexivity|].
  destruct (Ascii.eqb c "/"); [now rewrite IH|].
  rewrite IH.
  pose proof (split_sep_not_nil a) as Ha.
  destruct (split_sep a); [contradiction | reflexivity].
Qed.

Lemma split_sep_no_sep (c : string) : no_sep c = true -> split_sep c = [c].
Proof.
  induction c as [|x c IH]; simpl; [reflexivity|].
  intros [Hx Hc]%andb_prop. apply negb_true_iff in Hx. rewrite Hx, (IH Hc). reflexivity.
Qed.

Lemma split_sep_all_no_sep (s : string) : Forall (fun c => no_sep c = true) (split_sep s).
Proof.
  induction s as [|x s IH]; simpl; [repeat constructor|].
  destruct (Ascii.eqb x "/") eqn:Hx; [constructor; [reflexivity | exact IH]|].
  destruct (split_sep s) as [|h t]; [repeat constructor; simpl; now rewrite Hx|].
  inversion IH; subst. constructor; [simpl; rewrite Hx; assumption | assumption].
Qed.

Lemma join_sep_snoc (l : list string) (c : string) :
  l <> [] -> join_sep (l ++ [c]) = join_sep l ++ String "/" c.
Proof.
  induction l as [|x l IH]; [contradiction|]. intros _.
  destruct l as [|y l]; [reflexivity|].
  change (join_sep ((x :: y :: l) ++ [c])) with (x ++ String "/" (join_sep ((y :: l) ++ [c]))).
  rewrite IH by discriminate.
  change (join_sep (x :: y :: l)) with (x ++ String "/" (join_sep (y :: l))).
  now rewrite !append_assoc.
Qed.

Lemma split_join_sep (l : list string) :
  l <> [] -> Forall (fun c => no_sep c = true) l -> split_sep (join_sep l) = l.
Proof.
  induction l as [|x l IH]; [contradiction|]. intros _ Hall.
  inversion Hall as [|? ? Hx Hl]; subst.
  destruct l as [|y l]; [now apply split_sep_no_sep|].
  change (join_sep (x :: y :: l)) with (x ++ String "/" (join_sep (y :: l))).
  rewrite split_sep_app, (split_sep_no_sep x Hx), IH by (discriminate || assumption).
  reflexivity.
Qed.


Lemma step_skip (k : nat) (acc : list string) (c : string) :
  c = "" \/ c = "." -> normpath_step k acc c = acc.
Proof. intros [-> | ->]; reflexivity. Qed.

Lemma step_plain (k : nat) (acc : list string) (c : string) :
  plain c -> normpath_step k acc c = (acc ++ [c])%list.
Proof.
  intros (H1 & H2 & H3 & _). unfold normpath_step.
  apply String.eqb_neq in H1, H2, H3. rewrite H1, H2, H3. reflexivity.
Qed.

Lemma step_dotdot (k : nat) (acc : list string) :
  normpath_step k acc ".." =
    if ((k =? 0)%nat && bool_decide (acc = []))
       || (negb (bool_decide (acc = [])) && bool_decide (last acc = Some ".."))
    then (acc ++ [".."])%list
    else if negb (bool_decide (acc = [])) then removelast acc else acc.
Proof. reflexivity. Qed.

Lemma fold_plain (k : nat) (l acc : list string) :
  Forall plain l -> fold_left (normpath_step k) l acc = (acc ++ l)%list.
Proof.
  revert acc. induction l as [|c l IH]; intros acc Hl; simpl.
  - now rewrite app_nil_r.
  - inversion Hl; subst. rewrite step_plain by assumption.
    rewrite IH by assumption. now rewrite <- app_assoc.
Qed.

Lemma repeat_snoc {A} (x : A) (n : nat) : (repeat x n ++ [x])%list = repeat x (S n).
Proof. induction n; simpl in *; congruence. Qed.

Lemma last_repeat {A} (x : A) (n : nat) : last (repeat x (S n)) = Some x.
Proof. rewrite <- repeat_snoc. apply last_snoc. Qed.

Lemma step_dotdot_on_dotdots (m : nat) :
  normpath_step 0 (repeat ".." m) ".." = repeat ".." (S m).
Proof.
  rewrite step_dotdot. destruct m as [|m].
  - reflexivity.
  - rewrite last_repeat. rewrite (bool_decide_eq_false_2 (repeat ".." (S m) = [])) by discriminate.
    rewrite bool_decide_eq_true_2 by reflexivity.
    simpl. f_equal. apply (repeat_snoc ".." m).
Qed.

Lemma fold_dotdots (n m : nat) :
  fold_left (normpath_step 0) (repeat ".." n) (repeat ".." m) = repeat ".." (m + n).
Proof.
  revert m. induction n as [|n IH]; intros m; simpl.
  - now rewrite Nat.add_0_r.
  - rewrite step_dotdot_on_dotdots, IH. f_equal. lia.
Qed.

Lemma refold_normal (k : nat) (l : list string) :
  normal_comps k l -> fold_left (normpath_step k) l [] = l.
Proof.
  intros (n & l' & -> & Hl' & Hk).
  rewrite fold_left_app. destruct n as [|n].
  - simpl. now apply fold_plain.
  - destruct k as [|k]; [|now specialize (Hk ltac:(discriminate))].
    change (@nil string) with (repeat ".." 0) at 1.
    rewrite (fold_dotdots (S n) 0). now apply fold_plain.
Qed.

Lemma plain_not_dotdot (c : string) : plain c -> c <> "..".
Proof. now intros (_ & _ & H & _). Qed.

Lemma step_normal (k : nat) (acc : list string) (c : string) :
  normal_comps k acc -> no_sep c = true -> normal_comps k (normpath_step k acc c).
Proof.
  intros (n & l' & -> & Hl' & Hk) Hc.
  destruct (String.eqb_spec c "") as [->|Hne]; [rewrite step_skip by auto; now exists n, l'|].
  destruct (String.eqb_spec c ".") as [->|Hnd]; [rewrite step_skip by auto; now exists n, l'|].
  destruct (String.eqb_spec c "..") as [->|Hndd].
  - rewrite step_dotdot.
    destruct l' as [|x l'] using rev_ind.
    + rewrite app_nil_r. destruct n as [|n].
      * simpl. destruct k as [|k]; simpl.
        -- exists 1%nat, []. repeat split; [constructor | lia].
        -- exists 0%nat, []. repeat split; [constructor].
      * destruct k as [|k]; [|now specialize (Hk ltac:(discriminate))].
        rewrite last_repeat, (bool_decide_eq_false_2 (repeat ".." (S n) = [])) by discriminate.
        rewrite bool_decide_eq_true_2 by reflexivity. simpl orb. cbv iota.
        exists (S (S n)), []. rewrite app_nil_r, repeat_snoc. repeat split; [constructor | lia].
    + clear IHl'. apply Forall_app in Hl' as [Hl' Hx]. inversion Hx as [|? ? Hpx _]; subst.
      rewrite app_assoc, last_snoc.
      rewrite (bool_decide_eq_false_2 ((repeat ".." n ++ l') ++ [x] = [])%list)
        by (intros H; apply app_eq_nil in H as [_ H]; discriminate).
      rewrite (bool_decide_eq_false_2 (Some x = Some ".."))
        by (intros [= ->]; now apply (plain_not_dotdot _ Hpx)).
      rewrite andb_false_r. simpl. rewrite removelast_last.
      now exists n, l'.
  - rewrite step_plain by (repeat split; assumption).
    exists n, (l' ++ [c])%list. rewrite app_assoc. repeat split; [|assumption].
    apply Forall_app; split; [assumption|]. constructor; [|constructor].
    repeat split; assumption.
Qed.

Lemma fold_normal (k : nat) (l acc : list string) :
  normal_comps k acc -> Forall (fun c => no_sep c = true) l ->
  normal_comps k (fold_left (normpath_step k) l acc).
Proof.
  revert acc. induction l as [|c l IH]; intros acc Hacc Hl; simpl; [assumption|].
  inversion Hl; subst. apply IH; [now apply step_normal | assumption].
Qed.

Lemma normal_nil (k : nat) : normal_comps k [].
Proof. exists 0%nat, []. repeat split; constructor. Qed.

Lemma normpath_comps_normal (path : string) :
  normal_comps (initial_slashes path)
    (fold_left (normpath_step (initial_slashes path)) (split_sep path) []).
Proof. apply fold_normal; [apply normal_nil | apply split_sep_all_no_sep]. Qed.

Lemma prefix_cons (a b : ascii) (p s : string) :
  String.prefix (String a p) (String b s) = Ascii.eqb a b && String.prefix p s.
Proof.
  change (String.prefix (String a p) (String b s))
    with (if ascii_dec a b then String.prefix p s else false).
  destruct (ascii_dec a b) as [->|Hne].
  - now rewrite Ascii.eqb_refl.
  - apply Ascii.eqb_neq in Hne. now rewrite Hne.
Qed.

Lemma prefix_nil_r (a : ascii) (p : string) : String.prefix (String a p) "" = false.
Proof. reflexivity. Qed.

Lemma prefix_nil_l (s : string) : String.prefix "" s = true.
Proof. now destruct s. Qed.

Lemma initial_slashes_leading (p : string) :
  initial_slashes p =
    match leading_slashes p with
    | 0 => 0
    | 2 => 2
    | _ => 1
    end%nat.
Proof.
  unfold initial_slashes, startswith.
  destruct p as [|a [|b [|c p]]]; cbn [leading_slashes];
    rewrite ?prefix_cons, ?prefix_nil_r, ?prefix_nil_l, ?(Ascii.eqb_sym "/");
    repeat match goal with
      | |- context [Ascii.eqb ?x "/"] => destruct (Ascii.eqb x "/")
      end; reflexivity.
Qed.

Lemma initial_slashes_le_2 (p : string) : (initial_slashes p <= 2)%nat.
Proof.
  unfold initial_slashes. destruct (startswith p "/"); [|lia].
  destruct (startswith p "//" && negb (startswith p "///")); lia.
Qed.

Lemma leading_slashes_app (root s : string) :
  leading_slashes (root ++ s) =
    if all_sep root then (leading_slashes root + leading_slashes s)%nat
    else leading_slashes root.
Proof.
  induction root as [|c root IH]; str_simpl; [reflexivity|].
  destruct (Ascii.eqb c "/"); simpl; [|reflexivity].
  rewrite IH. now destruct (all_sep root).
Qed.

Lemma all_sep_slashes (k : nat) : all_sep (slashes_string k) = true.
Proof. induction k; simpl; auto. Qed.

Lemma leading_slashes_slashes (k : nat) : leading_slashes (slashes_string k) = k.
Proof. induction k; simpl; auto. Qed.

Lemma split_sep_slashes (k : nat) (s : string) :
  split_sep (slashes_string k ++ s) = (repeat "" k ++ split_sep s)%list.
Proof. induction k as [|k IH]; str_simpl; [reflexivity | now rewrite IH]. Qed.

Lemma fold_skip_empties (k n : nat) (l acc : list string) :
  fold_left (normpath_step k) (repeat "" n ++ l) acc = fold_left (normpath_step k) l acc.
Proof. induction n as [|n IH]; simpl; [reflexivity | exact IH]. Qed.

(** Every component [normpath] keeps is non-empty and holds no separator. *)
Lemma normal_comps_all (k : nat) (l : list string) :
  normal_comps k l -> Forall (fun c => c <> "" /\ no_sep c = true) l.
Proof.
  intros (n & l' & -> & Hl' & _). apply Forall_app; split.
  - apply Forall_forall. intros c Hc%list_elem_of_In%repeat_spec. subst.
    split; [discriminate | reflexivity].
  - eapply Forall_impl; [exact Hl'|]. intros c (H1 & _ & _ & H4). auto.
Qed.

Lemma leading_slashes_no_sep (c : string) : no_sep c = true -> leading_slashes c = 0%nat.
Proof.
  destruct c as [|x c]; simpl; [reflexivity|].
  intros [Hx _]%andb_prop. apply negb_true_iff in Hx. now rewrite Hx.
Qed.

Lemma leading_slashes_join (l : list string) :
  Forall (fun c => c <> "" /\ no_sep c = true) l -> leading_slashes (join_sep l) = 0%nat.
Proof.
  destruct l as [|c l]; [reflexivity|]. intros Hl. inversion Hl as [|? ? [Hne Hc] _]; subst.
  assert (Hlead : forall t, leading_slashes (c ++ t) = 0%nat).
  { destruct c as [|x c]; [contradiction|]. intros t. str_simpl.
    simpl in Hc. apply andb_prop in Hc as [Hx _]. apply negb_true_iff in Hx. now rewrite Hx. }
  destruct l; [rewrite <- (append_nil_r c); apply Hlead | apply Hlead].
Qed.

Lemma join_sep_eq_nil (l : list string) :
  Forall (fun c => c <> "" /\ no_sep c = true) l -> join_sep l = "" -> l = [].
Proof.
  destruct l as [|c l]; [reflexivity|]. intros Hl. inversion Hl as [|? ? [Hne _] _]; subst.
  destruct l; simpl; [contradiction|]. intros [H _]%append_eq_nil. contradiction.
Qed.

Lemma normpath_unfold (path : string) :
  path <> "" ->
  normpath path =
    if String.eqb (slashes_string (initial_slashes path) ++ join_sep (normpath_comps path)) ""
    then "."
    else slashes_string (initial_slashes path) ++ join_sep (normpath_comps path).
Proof. intros H%String.eqb_neq. unfold normpath. now rewrite H. Qed.

(** A path built from kept slashes and normal components is a fixed point
    of [normpath]. *)
Lemma normpath_of_normal (k : nat) (l : list string) :
  (k <= 2)%nat -> normal_comps k l -> slashes_string k ++ join_sep l <> "" ->
  normpath (slashes_string k ++ join_sep l) = slashes_string k ++ join_sep l.
Proof.
  intros Hk Hl Hne.
  pose proof (normal_comps_all _ _ Hl) as Hall.
  assert (Hinit : initial_slashes (slashes_string k ++ join_sep l) = k).
  { rewrite initial_slashes_leading, leading_slashes_app, all_sep_slashes,
      leading_slashes_slashes, leading_slashes_join, Nat.add_0_r by assumption.
    destruct k as [|[|[|k]]]; (reflexivity || lia). }
  rewrite normpath_unfold by assumption. unfold normpath_comps. rewrite Hinit.
  rewrite split_sep_slashes, fold_skip_empties.
  assert (Hfold : fold_left (normpath_step k) (split_sep (join_sep l)) [] = l).
  { destruct l as [|c l].
    - reflexivity.
    - rewrite split_join_sep; [now apply refold_normal | discriminate |].
      eapply Forall_impl; [exact Hall|]. now intros ? [_ ?]. }
  rewrite Hfold. apply String.eqb_neq in Hne. now rewrite Hne.
Qed.

Lemma normpath_dot : normpath "." = ".".
Proof. reflexivity. Qed.

Lemma normpath_cases (path : string) :
  normpath path = "." \/
  (normpath path = slashes_string (initial_slashes path) ++ join_sep (normpath_comps path)
   /\ slashes_string (initial_slashes path) ++ join_sep (normpath_comps path) <> ""
   /\ path <> "").
Proof.
  destruct (String.eqb_spec path "") as [->|Hp]; [now left|].
  rewrite normpath_unfold by assumption.
  destruct (String.eqb_spec
              (slashes_string (initial_slashes path) ++ join_sep (normpath_comps path)) "");
    [now left | now right].
Qed.

Lemma normpath_idempotent (path : string) : normpath (normpath path) = normpath path.
Proof.
  destruct (normpath_cases path) as [H | (H & Hne & _)].
  - rewrite H. reflexivity.
  - rewrite H. apply normpath_of_normal;
      [apply initial_slashes_le_2 | apply normpath_comps_normal | assumption].
Qed.

(** *** [endswith], [join] and [basename] *)
Lemma endswith_sep_cons (c : ascii) (s : string) :
  endswith (String c s) "/" = if String.eqb s "" then Ascii.eqb c "/" else endswith s "/".
Proof.
  cbn [endswith String.eqb].
  destruct s as [|d s].
  - cbn [String.eqb endswith]. now destruct (Ascii.eqb c "/").
  - cbn [String.eqb]. now destruct (Ascii.eqb c "/").
Qed.

Lemma endswith_sep_split (a : string) :
  endswith a "/" = true -> exists r, a = r ++ String "/" "".
Proof.
  induction a as [|c a IH]; [discriminate|].
  rewrite endswith_sep_cons. destruct (String.eqb_spec a "") as [->|Hne].
  - intros ->%Ascii.eqb_eq. now exists "".
  - intros [r ->]%IH. now exists (String c r).
Qed.

Lemma endswith_sep_app_no_sep (u c : string) :
  c <> "" -> no_sep c = true -> endswith (u ++ c) "/" = false.
Proof.
  intros Hne Hc. induction u as [|x u IH]; rewrite ?append_cons, ?append_nil_l.
  - induction c as [|y c IHc]; [contradiction|].
    rewrite endswith_sep_cons. simpl in Hc. apply andb_prop in Hc as [Hy Hc].
    apply negb_true_iff in Hy.
    destruct (String.eqb_spec c "") as [->|Hcne]; [assumption | now apply IHc].
  - rewrite endswith_sep_cons.
    destruct (String.eqb_spec (u ++ c) "") as [[_ ?]%append_eq_nil|_]; [contradiction | exact IH].
Qed.

Lemma endswith_slashes (k : nat) : endswith (slashes_string (S k)) "/" = true.
Proof.
  induction k as [|k IH]; [reflexivity|].
  change (slashes_string (S (S k))) with (String "/" (slashes_string (S k))).
  rewrite endswith_sep_cons. now destruct (String.eqb (slashes_string (S k)) "").
Qed.

Lemma all_sep_endswith (a : string) : a <> "" -> all_sep a = true -> endswith a "/" = true.
Proof.
  induction a as [|c a IH]; [contradiction|]. intros _. cbn [all_sep].
  intros [Hc Ha]%andb_prop. rewrite endswith_sep_cons.
  destruct (String.eqb_spec a "") as [->|Hne]; [assumption | now apply IH].
Qed.

Lemma startswith_sep_no_sep (c : string) : no_sep c = true -> startswith c "/" = false.
Proof.
  unfold startswith. destruct c as [|x c]; [reflexivity|]. simpl no_sep.
  intros [Hx _]%andb_prop. apply negb_true_iff in Hx.
  now rewrite prefix_cons, Ascii.eqb_sym, Hx.
Qed.

Lemma join_after_sep (a b : string) :
  startswith b "/" = false -> endswith a "/" = true -> join a b = a ++ b.
Proof. intros Hb Ha. unfold join. now rewrite Hb, Ha, orb_true_r. Qed.

Lemma join_add_sep (a b : string) :
  startswith b "/" = false -> a <> "" -> endswith a "/" = false ->
  join a b = a ++ String "/" b.
Proof.
  intros Hb Hne%String.eqb_neq Ha. unfold join. now rewrite Hb, Ha, Hne.
Qed.

Lemma rfind_no_sep (c : string) : no_sep c = true -> rfind_sep_succ c = 0%nat.
Proof.
  induction c as [|x c IH]; [reflexivity|]. simpl.
  intros [Hx Hc]%andb_prop. apply negb_true_iff in Hx. now rewrite (IH Hc), Hx.
Qed.

Lemma rfind_app_sep (a c : string) :
  no_sep c = true -> rfind_sep_succ (a ++ String "/" c) = S (String.length a).
Proof.
  intros Hc. induction a as [|x a IH]; str_simpl.
  - now rewrite (rfind_no_sep c Hc).
  - now rewrite IH.
Qed.

Lemma string_drop_app (a b : string) : string_drop (String.length a) (a ++ b) = b.
Proof. induction a; str_simpl; auto. Qed.

Lemma basename_app_sep (a c : string) :
  no_sep c = true -> basename (a ++ String "/" c) = c.
Proof.
  intros Hc. unfold basename. rewrite rfind_app_sep by assumption.
  change (S (String.length a)) with (String.length (String "/" a)).
  replace (a ++ String "/" c) with ((a ++ String "/" "") ++ c)
    by (now rewrite append_assoc).
  replace (String.length (String "/" a)) with (String.length (a ++ String "/" "")).
  - apply string_drop_app.
  - clear. induction a; str_simpl; auto.
Qed.

Lemma normpath_not_nil (path : string) : normpath path <> "".
Proof.
  destruct (normpath_cases path) as [H | (H & Hne & _)]; rewrite H; [discriminate | assumption].
Qed.

Lemma plain_devices : plain devices_folder.
Proof. repeat split; discriminate. Qed.

Lemma basename_join_plain (a c : string) :
  a <> "" -> plain c -> basename (join a c) = c.
Proof.
  intros Ha (_ & _ & _ & Hc).
  destruct (endswith a "/") eqn:He.
  - rewrite join_after_sep by (auto using startswith_sep_no_sep).
    apply endswith_sep_split in He as [r ->]. rewrite append_assoc. str_simpl.
    now apply basename_app_sep.
  - rewrite join_add_sep by (auto using startswith_sep_no_sep). now apply basename_app_sep.
Qed.

(** Appending a plain component commutes with [normpath], except where
    [normpath] answers ".". *)
Lemma normpath_join_plain (root c : string) :
  normpath root <> "." -> plain c -> normpath (join root c) = join (normpath root) c.
Proof.
  intros Hdot Hc.
  destruct (normpath_cases root) as [H | (H & Hne & Hroot)]; [contradiction|].
  pose proof Hc as (Hc1 & Hc2 & Hc3 & Hc4).
  pose proof (startswith_sep_no_sep c Hc4) as Hstart.
  set (k := initial_slashes root) in *. set (L := normpath_comps root) in *.
  (* the left-hand side *)
  assert (Hlhs : normpath (join root c) = slashes_string k ++ join_sep (L ++ [c])).
  { assert (Hjoin : join root c <> ""
                    /\ initial_slashes (join root c) = k
                    /\ normpath_comps (join root c) = (L ++ [c])%list).
    { destruct (endswith root "/") eqn:He.
      - rewrite join_after_sep by assumption. split; [|split].
        + intros [? _]%append_eq_nil. contradiction.
        + unfold k. rewrite !initial_slashes_leading, leading_slashes_app.
          rewrite (leading_slashes_no_sep c Hc4), Nat.add_0_r. now destruct (all_sep root).
        + assert (Hk : initial_slashes (root ++ c) = k).
          { unfold k. rewrite !initial_slashes_leading, leading_slashes_app.
            rewrite (leading_slashes_no_sep c Hc4), Nat.add_0_r. now destruct (all_sep root). }
          unfold normpath_comps. rewrite Hk.
          apply endswith_sep_split in He as [r Hr].
          unfold L, normpath_comps. fold k. rewrite Hr, append_assoc. str_simpl.
          rewrite !split_sep_app, !fold_left_app, (split_sep_no_sep c Hc4).
          simpl. now rewrite step_plain.
      - assert (Hall : all_sep root = false).
        { destruct (all_sep root) eqn:Hall; [|reflexivity].
          now rewrite (all_sep_endswith root Hroot Hall) in He. }
        assert (Hk : initial_slashes (root ++ String "/" c) = k).
        { unfold k. now rewrite !initial_slashes_leading, leading_slashes_app, Hall. }
        rewrite join_add_sep by assumption. split; [|split].
        + intros [? _]%append_eq_nil. contradiction.
        + exact Hk.
        + unfold normpath_comps. rewrite Hk.
          rewrite split_sep_app, fold_left_app, (split_sep_no_sep c Hc4).
          simpl. now rewrite step_plain. }
    destruct Hjoin as (Hj1 & Hj2 & Hj3).
    rewrite normpath_unfold, Hj2, Hj3 by assumption.
    destruct (String.eqb_spec (slashes_string k ++ join_sep (L ++ [c])) "") as [He|_];
      [|reflexivity].
    apply append_eq_nil in He as [_ He]. exfalso.
    destruct L as [|x L]; [simpl in He; contradiction|].
    rewrite join_sep_snoc in He by discriminate.
    apply append_eq_nil in He as [_ He]. discriminate. }
  rewrite Hlhs, H.
  (* the right-hand side *)
  assert (Hall : Forall (fun c => c <> "" /\ no_sep c = true) L)
    by exact (normal_comps_all _ _ (normpath_comps_normal root)).
  clearbody L k. clear Hlhs H.
  destruct L as [|x L] using rev_ind.
  - simpl join_sep in *. rewrite append_nil_r in *.
    destruct k as [|k]; [contradiction|].
    rewrite join_after_sep by (auto using endswith_slashes). reflexivity.
  - clear IHL. apply Forall_app in Hall as [_ Hx]. inversion Hx as [|? ? [Hx1 Hx2] _]; subst.
    assert (He : endswith (slashes_string k ++ join_sep (L ++ [x])) "/" = false).
    { destruct L as [|y L].
      - simpl. now apply endswith_sep_app_no_sep.
      - rewrite join_sep_snoc by discriminate.
        replace (slashes_string k ++ join_sep (y :: L) ++ String "/" x)
          with ((slashes_string k ++ join_sep (y :: L) ++ String "/" "") ++ x)
          by (rewrite !append_assoc; now str_simpl).
        now apply endswith_sep_app_no_sep. }
    rewrite join_add_sep by assumption.
    rewrite (join_sep_snoc (L ++ [x])) by (intros E; apply app_eq_nil in E as [_ E]; discriminate).
    now rewrite append_assoc.
Qed.

(** *** [strip] *)
Lemma lstrip_no_leading_space (s : string) : leading_space s = false -> lstrip s = s.
Proof.
  destruct s as [|c1 [|c2 [|c3 s3]]]; cbn [leading_space lstrip]; try reflexivity.
  - rewrite orb_false_r. now intros ->.
  - intros [H1 H2]%orb_false_iff. rewrite orb_false_r in H2. now rewrite H1, H2.
  - intros [H1 [H2 H3]%orb_false_iff]%orb_false_iff. now rewrite H1, H2, H3.
Qed.

(** The white space of more than one byte has no ASCII byte. *)
Lemma is_space2_bytes (c1 c2 : ascii) :
  is_space2 c1 c2 = true ->
  (nat_of_ascii c1 <? 128)%nat = false /\ (nat_of_ascii c2 <? 128)%nat = false.
Proof.
  unfold is_space2. intros [->%Ascii.eqb_eq H]%andb_prop.
  apply orb_prop in H as [->%Ascii.eqb_eq | ->%Ascii.eqb_eq]; split; reflexivity.
Qed.

Lemma is_space3_bytes (c1 c2 c3 : ascii) :
  is_space3 c1 c2 c3 = true ->
  (nat_of_ascii c1 <? 128)%nat = false /\ (nat_of_ascii c2 <? 128)%nat = false
  /\ (nat_of_ascii c3 <? 128)%nat = false.
Proof.
  unfold is_space3. intros H.
  assert (Hge : forall c, (128 <=? nat_of_ascii c)%nat = true ->
                  (nat_of_ascii c <? 128)%nat = false).
  { intros c Hc. apply Nat.leb_le in Hc. now apply Nat.ltb_ge. }
  cbv zeta in H.
  repeat match goal with
    | E : (_ || _) = true |- _ => apply orb_prop in E; destruct E
    | E : (_ && _) = true |- _ => apply andb_prop in E; destruct E
    | E : Ascii.eqb _ _ = true |- _ => apply Ascii.eqb_eq in E; subst
    end;
    repeat split; try reflexivity; now apply Hge.
Qed.

Lemma plain_byte_ascii (c : ascii) :
  plain_byte c = true -> (nat_of_ascii c <? 128)%nat = true /\ is_space c = false.
Proof. unfold plain_byte. intros [H1 H2%negb_true_iff]%andb_prop. now split. Qed.

Lemma is_space_char_ends (s : string) : is_space_char s = true -> ends_plain s = false.
Proof.
  destruct s as [|c1 [|c2 [|c3 [|c4 s4]]]]; cbn [is_space_char ends_plain]; try discriminate.
  - intros H. unfold plain_byte. rewrite H. apply andb_false_r.
  - intros [_ H]%is_space2_bytes. unfold plain_byte. now rewrite H.
  - intros (_ & _ & H)%is_space3_bytes. unfold plain_byte. now rewrite H.
Qed.

(** [rstrip] keeps a string that ends with an ASCII character that is not
    white space. *)
Lemma rstrip_ends_plain (s : string) : ends_plain s = true -> rstrip s = s.
Proof.
  induction s as [|c s IH]; [reflexivity|]. intros Hend. cbn [rstrip].
  assert (Hs : rstrip s = s).
  { destruct s as [|d s]; [reflexivity | now apply IH]. }
  rewrite Hs. destruct (is_space_char (String c s)) eqn:E; [|reflexivity].
  apply is_space_char_ends in E. congruence.
Qed.

Lemma ends_plain_app (u b : string) : ends_plain b = true -> ends_plain (u ++ b) = true.
Proof.
  intros Hb. induction u as [|c u IH]; rewrite ?append_cons, ?append_nil_l; [assumption|].
  destruct (u ++ b) eqn:E; [discriminate IH | exact IH].
Qed.

Lemma lower_s_plain (c : ascii) : ascii_lower c = "s"%char -> plain_byte c = true.
Proof.
  destruct c as [[] [] [] [] [] [] [] []]; vm_compute; intros H; (reflexivity || discriminate H).
Qed.

Lemma lower_devices_ends_plain (b : string) : lower b = devices_folder -> ends_plain b = true.
Proof.
  unfold devices_folder.
  destruct b as [|c1 [|c2 [|c3 [|c4 [|c5 [|c6 [|c7 [|c8 b]]]]]]]]; try discriminate.
  cbn [lower]. intros [= _ _ _ _ _ _ H7]. cbn [ends_plain]. now apply lower_s_plain.
Qed.

Lemma take_drop_string (n : nat) (s : string) : string_take n s ++ string_drop n s = s.
Proof.
  revert s. induction n as [|n IH]; intros [|c s]; str_simpl; try reflexivity.
  now rewrite IH.
Qed.

(** An ASCII character after [a] does not make it begin with white
    space. *)
Lemma leading_space_app (a b : string) (x : ascii) :
  a <> "" -> (nat_of_ascii x <? 128)%nat = true ->
  leading_space (a ++ String x b) = leading_space a.
Proof.
  intros Ha Hx.
  assert (H2 : forall c, is_space2 c x = false).
  { intros c. destruct (is_space2 c x) eqn:E; [|reflexivity].
    apply is_space2_bytes in E as [_ E]. congruence. }
  assert (H3 : forall c d, is_space3 c x d = false).
  { intros c d. destruct (is_space3 c x d) eqn:E; [|reflexivity].
    apply is_space3_bytes in E as (_ & E & _). congruence. }
  assert (H3' : forall c d, is_space3 c d x = false).
  { intros c d. destruct (is_space3 c d x) eqn:E; [|reflexivity].
    apply is_space3_bytes in E as (_ & _ & E). congruence. }
  destruct a as [|c1 [|c2 [|c3 a]]]; [contradiction|..];
    rewrite ?append_cons, ?append_nil_l; cbn [leading_space].
  - rewrite H2. destruct b; now rewrite ?H3, ?orb_false_r.
  - now rewrite H3', !orb_false_r.
  - reflexivity.
Qed.

(** *** The path functions on examples *)
Example normpath_ex1 : posixpath.normpath "/a//b/./c/../d/" = "/a/b/d".
Proof. reflexivity. Qed.
Example normpath_ex2 : posixpath.normpath "../../x/.." = "../..".
Proof. reflexivity. Qed.
Example normpath_ex3 : posixpath.normpath "//x/../.." = "//".
Proof. reflexivity. Qed.
Example normpath_ex4 : posixpath.normpath "///x" = "/x".
Proof. reflexivity. Qed.
Example normalize_ex1 : normalize_devices_dir "/app/active_state" = "/app/active_state/devices".
Proof. reflexivity. Qed.
Example normalize_ex2 : normalize_devices_dir "/app/active_state/Devices/" = "/app/active_state/Devices".
Proof. reflexivity. Qed.
Example normalize_ex3 : get_devices_dir_normalized "  /app/x " = "/app/x/devices".
Proof. reflexivity. Qed.
Example zfill_ex : zfill (str_of_int 7) 3 = "007" /\ zfill (str_of_int (-7)) 3 = "-07"
  /\ zfill (str_of_int 1234) 3 = "1234".
Proof. repeat split; reflexivity. Qed.
Example dirname_ex : posixpath.dirname "/a/b/devices" = "/a/b" /\ posixpath.dirname "devices" = ""
  /\ posixpath.dirname "/devices" = "/".
Proof. repeat split; reflexivity. Qed.

(** *** The normalization of the device directory *)
Lemma normalize_cases (p : string) :
  (lower (basename (normpath p)) = devices_folder /\ normalize_devices_dir p = normpath p)
  \/ (lower (basename (normpath p)) <> devices_folder
      /\ normalize_devices_dir p = join (normpath p) devices_folder).
Proof.
  unfold normalize_devices_dir.
  destruct (String.eqb_spec (lower (basename (normpath p))) devices_folder); [left | right]; auto.
Qed.

Lemma normalize_last_segment (p : string) :
  lower (basename (normalize_devices_dir p)) = devices_folder.
Proof.
  destruct (normalize_cases p) as [[H ->] | [_ ->]]; [assumption|].
  rewrite basename_join_plain by (apply normpath_not_nil || apply plain_devices). reflexivity.
Qed.

Lemma normalize_fixed_point (q : string) :
  normpath q = q -> lower (basename q) = devices_folder -> normalize_devices_dir q = q.
Proof.
  intros Hq Hb. unfold normalize_devices_dir. rewrite Hq.
  apply String.eqb_eq in Hb. now rewrite Hb.
Qed.

Lemma normalize_idempotent (p : string) :
  normpath p <> "." ->
  normalize_devices_dir (normalize_devices_dir p) = normalize_devices_dir p.
Proof.
  intros Hdot. pose proof (normalize_last_segment p) as Hlast.
  apply normalize_fixed_point; [|assumption].
  destruct (normalize_cases p) as [[_ ->] | [_ ->]].
  - apply normpath_idempotent.
  - rewrite normpath_join_plain; [now rewrite normpath_idempotent | | apply plain_devices].
    now rewrite normpath_idempotent.
Qed.

Lemma normalize_root_and_devices (root : string) :
  normpath root <> "." ->
  lower (basename (normpath root)) <> devices_folder ->
  normalize_devices_dir (join root devices_folder) = normalize_devices_dir root.
Proof.
  intros Hdot Hlast.
  destruct (normalize_cases root) as [[? _] | [_ ->]]; [contradiction|].
  unfold normalize_devices_dir.
  rewrite normpath_join_plain by (assumption || apply plain_devices).
  rewrite basename_join_plain by (apply normpath_not_nil || apply plain_devices).
  reflexivity.
Qed.

Lemma strip_normalized (s : string) :
  leading_space (normpath s) = false ->
  strip (normalize_devices_dir s) = normalize_devices_dir s.
Proof.
  intros Hlead. unfold strip.
  assert (Hl : leading_space (normalize_devices_dir s) = false).
  { destruct (normalize_cases s) as [[_ ->] | [_ ->]]; [assumption|].
    pose proof (normpath_not_nil s) as Hne.
    pose proof plain_devices as (_ & _ & _ & Hd).
    destruct (endswith (normpath s) "/") eqn:He.
    - rewrite join_after_sep by (auto using startswith_sep_no_sep).
      unfold devices_folder. now rewrite leading_space_app.
    - rewrite join_add_sep by (auto using startswith_sep_no_sep).
      now rewrite leading_space_app. }
  rewrite lstrip_no_leading_space by assumption.
  pose proof (normalize_last_segment s) as Hlast.
  apply lower_devices_ends_plain in Hlast.
  unfold basename in *. remember (normalize_devices_dir s) as q eqn:Hq. clear Hq.
  apply rstrip_ends_plain.
  rewrite <- (take_drop_string (rfind_sep_succ q) q).
  now apply ends_plain_app.
Qed.

Lemma get_devices_dir_idempotent (text : string) :
  normpath (strip text) <> "." ->
  leading_space (normpath (strip text)) = false ->
  get_devices_dir_normalized (get_devices_dir_normalized text)
  = get_devices_dir_normalized text.
Proof.
  intros Hdot Hlead. unfold get_devices_dir_normalized.
  rewrite strip_normalized by assumption. now apply normalize_idempotent.
Qed.
(* ===================================================================== *)
(** ** The worker monad                                                   *)
(* ===================================================================== *)

Lemma bind_returned {A B} (t : list Effect) (a : A) (f : A -> M B) :
  ((t, Returned a) ≫= f) = ((t ++ trace (f a))%list, outcome (f a)).
Proof. unfold mbind, M_bind, trace, outcome. now destruct (f a). Qed.

Lemma bind_raised {A B} (t : list Effect) (e : PyException) (f : A -> M B) :
  ((t, Raised e) ≫= f) = (t, Raised e).
Proof. reflexivity. Qed.

Lemma bind_unfinished {A B} (t : list Effect) (f : A -> M B) :
  ((t, Unfinished) ≫= f) = (t, Unfinished).
Proof. reflexivity. Qed.

Lemma perform_bind {B} (ev : Effect) (k : M B) :
  (perform ev ;; k) = (ev :: trace k, outcome k).
Proof. unfold perform. now rewrite bind_returned. Qed.

Ltac msimpl :=
  repeat first
    [ rewrite perform_bind
    | rewrite bind_returned
    | progress cbn [trace outcome fst snd perform call mret M_ret app] ].

Lemma M_eta {A} (m : M A) : m = (trace m, outcome m).
Proof. now destruct m. Qed.

Lemma call_ok (ev : Effect) : call ev None = perform ev.
Proof. reflexivity. Qed.

(** *** The loops of [CameraServerWorker.run] *)
Lemma wait_for_stop_returns (is_set : nat -> bool) (n fuel k : nat) :
  is_set (k + n)%nat = true -> (n < fuel)%nat ->
  exists m, (m <= n)%nat /\ wait_for_stop is_set fuel k = (repeat sleep_1 m, Returned tt).
Proof.
  revert fuel k. induction n as [|n IH]; intros fuel k Hset Hfuel.
  - destruct fuel as [|fuel]; [lia|]. cbn [wait_for_stop].
    rewrite Nat.add_0_r in Hset. rewrite Hset. now exists 0%nat.
  - destruct fuel as [|fuel]; [lia|]. cbn [wait_for_stop]. destruct (is_set k) eqn:Hk.
    + exists 0%nat. split; [lia | reflexivity].
    + destruct (IH fuel (S k)) as (m & Hm & Hw); [now rewrite <- Nat.add_succ_comm in Hset | lia |].
      exists (S m). split; [lia|]. now rewrite perform_bind, Hw.
Qed.













Lemma CameraServerWorker_run_empty (w : CameraWorld) (self : CameraServerWorker) (fuel : nat) :
  camera_indices self = [] ->
  makedirs_raises w (root_devices_dir self) = None ->
  CameraServerWorker_run w self fuel =
    ([log_emit "Background Camera Server System";
      running_changed_emit true;
      log_emit ("Preparing directory: " ++ root_devices_dir self);
      shutil_rmtree (root_devices_dir self);
      os_makedirs (root_devices_dir self);
      log_emit "Searching For Valid Cameras...";
      log_emit "No cameras selected.";
      running_changed_emit false;
      finished_emit],
     Returned tt).
Proof.
  intros Hnil Hmk.
  unfold CameraServerWorker_run, CameraServerWorker_frame, CameraServerWorker_run_body.
  rewrite Hmk, (bool_decide_eq_true_2 _ Hnil). reflexivity.
Qed.

Lemma CameraServerWorker_run_empty_faulty (w : CameraWorld) (self : CameraServerWorker)
  (fuel : nat) (e : PyException) :
  camera_indices self = [] ->
  makedirs_raises w (root_devices_dir self) = Some e ->
  CameraServerWorker_run w self fuel =
    ([log_emit "Background Camera Server System";
      running_changed_emit true;
      log_emit ("Preparing directory: " ++ root_devices_dir self);
      shutil_rmtree (root_devices_dir self);
      os_makedirs (root_devices_dir self);
      log_emit ("FATAL ERROR:" ++ newline ++ exc_format e);
      QMessageBox_critical "Camera Server Error" (exc_str e);
      running_changed_emit false;
      finished_emit],
     Returned tt).
Proof.
  intros Hnil Hmk.
  unfold CameraServerWorker_run, CameraServerWorker_frame, CameraServerWorker_run_body.
  rewrite Hmk. reflexivity.
Qed.





(** A run whose device directory cannot be prepared. *)
Lemma CameraServerWorker_run_makedirs_fails (w : CameraWorld) (self : CameraServerWorker)
  (fuel : nat) (e : PyException) :
  makedirs_raises w (root_devices_dir self) = Some e ->
  CameraServerWorker_run w self fuel
  = ((firstn 5 (startup_header self) ++ fault_report e)%list, Returned tt).
Proof.
  intros Hmk.
  unfold CameraServerWorker_run, CameraServerWorker_frame, CameraServerWorker_run_body.
  rewrite Hmk. reflexivity.
Qed.

(** *** What every effect of a computation satisfies *)
Section effect_discipline.
Context (p : Effect -> bool).

Lemma all_effects_ret {A} (a : A) : all_effects p (mret a).
Proof. reflexivity. Qed.

Lemma all_effects_perform (ev : Effect) : p ev = true -> all_effects p (perform ev).
Proof. unfold all_effects. simpl. now intros ->. Qed.

Lemma all_effects_call (ev : Effect) (fault : option PyException) :
  p ev = true -> all_effects p (call ev fault).
Proof. unfold all_effects. destruct fault; simpl; now intros ->. Qed.

Lemma all_effects_raise {A} (e : PyException) : all_effects p (raise e : M A).
Proof. reflexivity. Qed.

Lemma all_effects_bind {A B} (m : M A) (f : A -> M B) :
  all_effects p m -> (forall a, all_effects p (f a)) -> all_effects p (m ≫= f).
Proof.
  unfold all_effects. destruct m as [t [a|e|]]; simpl; intros Hm Hf; try assumption.
  specialize (Hf a). unfold mbind, M_bind. destruct (f a) as [t' o]. simpl in *.
  rewrite forallb_app. now rewrite Hm, Hf.
Qed.

Lemma all_effects_for_each {A} (xs : list A) (body : A -> M unit) :
  (forall x, all_effects p (body x)) -> all_effects p (for_each xs body).
Proof.
  intros Hbody. induction xs as [|x xs IH]; cbn [for_each].
  - apply all_effects_ret.
  - apply all_effects_bind; [apply Hbody | intros _; exact IH].
Qed.

Lemma all_effects_wait (is_set : nat -> bool) (fuel n : nat) :
  p sleep_1 = true -> all_effects p (wait_for_stop is_set fuel n).
Proof.
  intros Hs. revert n. induction fuel as [|fuel IH]; intros n; cbn [wait_for_stop].
  - reflexivity.
  - destruct (is_set n); [apply all_effects_ret|].
    apply all_effects_bind; [now apply all_effects_perform | intros _; apply IH].
Qed.

Lemma all_effects_try_except {A} (body : M A) (handler : PyException -> M A) :
  all_effects p body -> (forall e, all_effects p (handler e)) ->
  all_effects p (try_except body handler).
Proof.
  unfold all_effects. destruct body as [t [a|e|]]; simpl; intros Hb Hh; try assumption.
  specialize (Hh e). destruct (handler e) as [t' o]. simpl in *.
  rewrite forallb_app. now rewrite Hb, Hh.
Qed.

Lemma all_effects_try_finally {A} (body : M A) (final : M unit) :
  all_effects p body -> all_effects p final -> all_effects p (try_finally body final).
Proof.
  unfold all_effects. destruct body as [t [a|e|]], final as [t' [[]|e'|]]; simpl;
    intros Hb Hf; rewrite ?forallb_app, ?Hb, ?Hf; reflexivity.
Qed.

End effect_discipline.

(** Closes a goal [all_effects p m] for a computation built from the
    combinators above, given that [p] computes on its effects. *)
Ltac effects :=
  repeat first
    [ apply all_effects_ret
    | apply all_effects_raise
    | apply all_effects_perform; reflexivity
    | apply all_effects_call; reflexivity
    | apply all_effects_wait; reflexivity
    | apply all_effects_bind; [|intros ?]
    | apply all_effects_for_each; intros ?
    | apply all_effects_try_except; [|intros ?]
    | apply all_effects_try_finally
    | match goal with
      | |- all_effects _ (if ?b then _ else _) => destruct b
      | |- all_effects _ (match ?o with Some _ => _ | None => _ end) => destruct o
      | |- all_effects _ (match ?o with inl _ => _ | inr _ => _ end) => destruct o
      end ].

Lemma count_effects_app (p : Effect -> bool) (t1 t2 : list Effect) :
  count_effects p (t1 ++ t2) = (count_effects p t1 + count_effects p t2)%nat.
Proof. unfold count_effects. now rewrite List.filter_app, length_app. Qed.

Lemma count_effects_none (p : Effect -> bool) (t : list Effect) :
  forallb (fun ev => negb (p ev)) t = true -> count_effects p t = 0%nat.
Proof.
  unfold count_effects. induction t as [|ev t IH]; simpl; [reflexivity|].
  intros [Hev Ht]%andb_prop. apply negb_true_iff in Hev. rewrite Hev. now apply IH.
Qed.

(** *** The bodies of the four runs emit no finished signal *)

Lemma build_services_effects (p : Effect -> bool) (w : CameraWorld) (root : string)
  (ids : list Z) :
  (forall svc, p (service_init svc) = true) -> all_effects p (build_services w root ids).
Proof.
  intros Hp. induction ids as [|id ids IH]; cbn [build_services].
  - apply all_effects_ret.
  - apply all_effects_bind; [apply all_effects_call, Hp | intros _].
    apply all_effects_bind; [exact IH | intros ?; apply all_effects_ret].
Qed.

Lemma CameraServerWorker_body_not_finished w self fuel :
  all_effects not_finished (CameraServerWorker_run_body w self fuel).
Proof.
  unfold CameraServerWorker_run_body, start_services, stop_services, join_services.
  effects. apply build_services_effects. reflexivity.
Qed.

Lemma ImageSourceWorker_body_not_finished is_set self fuel :
  all_effects not_finished (ImageSourceWorker_run_body is_set self fuel).
Proof. unfold ImageSourceWorker_run_body. effects. Qed.

Lemma Popen_effects (p : Effect -> bool) (w : ToolWorld) (cmd : list string) (cwd : string) :
  (forall flags env, p (subprocess_Popen cmd cwd flags env) = true) ->
  all_effects p (Popen w cmd cwd).
Proof.
  intros Hp. unfold Popen, all_effects. destruct (Popen_result w cmd); simpl; now rewrite Hp.
Qed.

Lemma readline_effects (p : Effect -> bool) w k line :
  (forall s, p (stdout_readline s) = true) ->
  (forall e, p (stdout_readline_raises e) = true) ->
  all_effects p (readline w k line).
Proof.
  intros Hr He. unfold readline, all_effects.
  destruct (readline_raises w k); simpl; now rewrite ?Hr, ?He.
Qed.

Lemma scan_reader_loop_effects (p : Effect -> bool) w mode lines k :
  (forall s, p (stdout_readline s) = true) ->
  (forall e, p (stdout_readline_raises e) = true) ->
  (forall s, p (log_emit s) = true) ->
  all_effects p (scan_reader_loop w mode lines k).
Proof.
  intros Hr He Hl. revert k.
  induction lines as [|line lines IH]; intros k; cbn [scan_reader_loop].
  - now apply readline_effects.
  - apply all_effects_bind; [now apply readline_effects | intros _].
    repeat match goal with |- all_effects _ (if ?b then _ else _) => destruct b end;
      try apply all_effects_ret.
    apply all_effects_bind; [apply all_effects_perform, Hl | intros _; apply IH].
Qed.

Lemma display_reader_loop_effects (p : Effect -> bool) w lines k :
  (forall s, p (stdout_readline s) = true) ->
  (forall e, p (stdout_readline_raises e) = true) ->
  (forall s, p (log_emit s) = true) ->
  all_effects p (display_reader_loop w lines k).
Proof.
  intros Hr He Hl. revert k.
  induction lines as [|line lines IH]; intros k; cbn [display_reader_loop].
  - now apply readline_effects.
  - apply all_effects_bind; [now apply readline_effects | intros _].
    repeat match goal with |- all_effects _ (if ?b then _ else _) => destruct b end;
      try apply all_effects_ret.
    apply all_effects_bind; [apply all_effects_perform, Hl | intros _; apply IH].
Qed.

Lemma ShelfScanWorker_body_not_finished w self :
  all_effects not_finished (ShelfScanWorker_run_body w self).
Proof.
  unfold ShelfScanWorker_run_body. effects.
  - apply Popen_effects. reflexivity.
  - apply scan_reader_loop_effects; reflexivity.
Qed.

Lemma CamDisplayWorker_body_not_finished w self :
  all_effects not_finished (CamDisplayWorker_run_body w self).
Proof.
  unfold CamDisplayWorker_run_body. effects.
  - apply Popen_effects. reflexivity.
  - apply display_reader_loop_effects; reflexivity.
Qed.

Lemma body_not_finished (r : WorkerRun) : count_effects is_finished (trace (body_of r)) = 0%nat.
Proof.
  apply count_effects_none.
  destruct r; [apply CameraServerWorker_body_not_finished
              | apply ImageSourceWorker_body_not_finished
              | apply ShelfScanWorker_body_not_finished
              | apply CamDisplayWorker_body_not_finished].
Qed.

(** *** The try / except / finally frame of the four runs *)

(** The frame around any [try] block: the effects of the block, then what
    the frame adds for the way the block ended. *)
Lemma frame_of_body (r : WorkerRun) (body : M unit) :
  frame_of r body =
    ((trace body ++ after_body r (outcome body))%list,
     match outcome body with
     | Unfinished => Unfinished
     | _ => Returned tt
     end).
Proof.
  destruct r; cbn [frame_of];
    unfold CameraServerWorker_frame, ImageSourceWorker_frame,
           ShelfScanWorker_frame, CamDisplayWorker_frame;
    destruct body as [t [[]|e|]]; cbn; rewrite <- ?app_assoc, ?app_nil_r; reflexivity.
Qed.

Lemma run_is_frame (r : WorkerRun) : run_of r = frame_of r (body_of r).
Proof. now destruct r. Qed.

(** A run is its [try] block followed by what the frame adds. *)
Lemma run_of_frame (r : WorkerRun) :
  run_of r =
    ((trace (body_of r) ++ after_body r (outcome (body_of r)))%list,
     match outcome (body_of r) with
     | Unfinished => Unfinished
     | _ => Returned tt
     end).
Proof. rewrite run_is_frame. apply frame_of_body. Qed.

Lemma last_after_body (r : WorkerRun) (o : Outcome unit) :
  o <> Unfinished -> last (after_body r o) = Some finished_emit.
Proof. destruct o as [[]|e|], r; intros H; try contradiction; reflexivity. Qed.

Lemma count_finished_after_body (r : WorkerRun) (o : Outcome unit) :
  o <> Unfinished -> count_effects is_finished (after_body r o) = 1%nat.
Proof. destruct o as [[]|e|], r; intros H; try contradiction; reflexivity. Qed.

Lemma fault_line_after_body (r : WorkerRun) (e : PyException) :
  In (log_emit (fault_line r e)) (after_body r (Raised e)).
Proof. destruct r; now left. Qed.

(** *** Termination of the [try] blocks *)
Lemma finishes_ret {A} (a : A) : finishes (mret a : M A).
Proof. discriminate. Qed.

Lemma finishes_perform (ev : Effect) : finishes (perform ev).
Proof. discriminate. Qed.

Lemma finishes_call (ev : Effect) (fault : option PyException) : finishes (call ev fault).
Proof. destruct fault; discriminate. Qed.

Lemma finishes_raise {A} (e : PyException) : finishes (raise e : M A).
Proof. discriminate. Qed.

Lemma finishes_bind {A B} (m : M A) (f : A -> M B) :
  finishes m -> (forall a, finishes (f a)) -> finishes (m ≫= f).
Proof.
  unfold finishes. destruct m as [t [a|e|]]; intros Hm Hf; [|discriminate|contradiction].
  specialize (Hf a). unfold mbind, M_bind. now destruct (f a).
Qed.

Lemma finishes_for_each {A} (xs : list A) (body : A -> M unit) :
  (forall x, finishes (body x)) -> finishes (for_each xs body).
Proof.
  intros Hbody. induction xs as [|x xs IH]; cbn [for_each].
  - apply finishes_ret.
  - apply finishes_bind; [apply Hbody | intros _; exact IH].
Qed.

Lemma finishes_try_except {A} (body : M A) (handler : PyException -> M A) :
  finishes body -> (forall e, finishes (handler e)) -> finishes (try_except body handler).
Proof.
  unfold finishes. destruct body as [t [a|e|]]; intros Hb Hh; [discriminate| |contradiction].
  specialize (Hh e). unfold try_except. now destruct (handler e).
Qed.

Lemma finishes_wait (is_set : nat -> bool) (n fuel : nat) :
  (n < fuel)%nat -> is_set n = true -> finishes (wait_for_stop is_set fuel 0).
Proof.
  intros Hfuel Hset. destruct (wait_for_stop_returns is_set n fuel 0 Hset Hfuel) as (m & _ & ->).
  discriminate.
Qed.

Ltac finishing :=
  repeat first
    [ apply finishes_ret
    | apply finishes_raise
    | apply finishes_perform
    | apply finishes_call
    | apply finishes_bind; [|intros ?]
    | apply finishes_for_each; intros ?
    | apply finishes_try_except; [|intros ?]
    | match goal with
      | |- finishes (if ?b then _ else _) => destruct b
      | |- finishes (match ?o with Some _ => _ | None => _ end) => destruct o
      end ].

Lemma build_services_finishes w root ids : finishes (build_services w root ids).
Proof. induction ids as [|id ids IH]; cbn [build_services]; finishing. exact IH. Qed.

Lemma Popen_finishes w cmd cwd : finishes (Popen w cmd cwd).
Proof. unfold Popen. destruct (Popen_result w cmd); discriminate. Qed.

Lemma readline_finishes w k line : finishes (readline w k line).
Proof. unfold readline. destruct (readline_raises w k); discriminate. Qed.

Lemma scan_reader_loop_finishes w mode lines k : finishes (scan_reader_loop w mode lines k).
Proof.
  revert k. induction lines as [|line lines IH]; intros k; cbn [scan_reader_loop];
    [apply readline_finishes|].
  apply finishes_bind; [apply readline_finishes | intros _]. finishing. apply IH.
Qed.

Lemma display_reader_loop_finishes w lines k : finishes (display_reader_loop w lines k).
Proof.
  revert k. induction lines as [|line lines IH]; intros k; cbn [display_reader_loop];
    [apply readline_finishes|].
  apply finishes_bind; [apply readline_finishes | intros _]. finishing. apply IH.
Qed.

Lemma body_finishes (r : WorkerRun) : stop_is_seen r -> finishes (body_of r).
Proof.
  destruct r as [w self fuel | is_set self fuel | w self | w self]; cbn [stop_is_seen body_of].
  - intros (n & Hfuel & Hset).
    unfold CameraServerWorker_run_body, start_services, stop_services, join_services.
    finishing; first [apply build_services_finishes | now apply (finishes_wait _ n)].
  - intros (n & Hfuel & Hset). unfold ImageSourceWorker_run_body.
    finishing. now apply (finishes_wait _ n).
  - intros _. unfold ShelfScanWorker_run_body.
    finishing; first [apply Popen_finishes | apply scan_reader_loop_finishes].
  - intros _. unfold CamDisplayWorker_run_body.
    finishing; first [apply Popen_finishes | apply display_reader_loop_finishes].
Qed.

(* ===================================================================== *)
(** ** The Capture Service Supervisor                                     *)
(* ===================================================================== *)





(** C3 (amended). With an empty camera selection the run first clears and
    recreates the device directory like every run; then, if that
    succeeded, it logs "No cameras selected." and finishes at once.  It
    constructs, starts, stops and joins no capture service and never
    polls the stop flag; [finished] is emitted whatever the fuel. *)
Theorem supervisor_empty_selection (w : CameraWorld) (self : CameraServerWorker) (fuel : nat) :
  camera_indices self = [] ->
  CameraServerWorker_run w self fuel =
    ([log_emit "Background Camera Server System";
      running_changed_emit true;
      log_emit ("Preparing directory: " ++ root_devices_dir self);
      shutil_rmtree (root_devices_dir self);
      os_makedirs (root_devices_dir self)]
     ++ match makedirs_raises w (root_devices_dir self) with
        | None => [log_emit "Searching For Valid Cameras...";
                   log_emit "No cameras selected."]
        | Some e => [log_emit ("FATAL ERROR:" ++ newline ++ exc_format e);
                     QMessageBox_critical "Camera Server Error" (exc_str e)]
        end
     ++ [running_changed_emit false; finished_emit],
     Returned tt)%list.
Proof.
  intros Hnil. destruct (makedirs_raises w (root_devices_dir self)) as [e|] eqn:Hmk.
  - now rewrite (CameraServerWorker_run_empty_faulty w self fuel e Hnil Hmk).
  - now rewrite (CameraServerWorker_run_empty w self fuel Hnil Hmk).
Qed.

Lemma supervisor_empty_selection_witness :
  CameraServerWorker_run (quiet_world 0) (CameraServerWorker_init "/app" []) 0 =
    ([log_emit "Background Camera Server System";
      running_changed_emit true;
      log_emit "Preparing directory: /app/devices";
      shutil_rmtree "/app/devices";
      os_makedirs "/app/devices";
      log_emit "Searching For Valid Cameras...";
      log_emit "No cameras selected.";
      running_changed_emit false;
      finished_emit],
     Returned tt).
Proof.
  exact (supervisor_empty_selection (quiet_world 0) (CameraServerWorker_init "/app" []) 0
           eq_refl).
Defined.

(** C3 as stated fails: with an empty selection the run has removed and
    recreated the device directory before it finishes. *)
Lemma supervisor_empty_selection_counterexample :
  camera_indices (CameraServerWorker_init "/app" []) = []
  /\ In (shutil_rmtree "/app/devices")
       (trace (CameraServerWorker_run (quiet_world 0) (CameraServerWorker_init "/app" []) 0))
  /\ In (os_makedirs "/app/devices")
       (trace (CameraServerWorker_run (quiet_world 0) (CameraServerWorker_init "/app" []) 0)).
Proof. split; [reflexivity|]. split; vm_compute; tauto. Qed.

(* ===================================================================== *)
(** ** The worker boundary                                                *)
(* ===================================================================== *)

(** C4 (amended). Each of the four workers runs its [try] block inside
    the frame [try / except Exception / finally].  Whatever the block does
    (the statement is about any block, so about a fault of any of its
    calls), if it emits no [finished] itself and ends, by returning or by
    raising: the run returns without a fault and emits [finished] exactly
    once, as its last effect; and when the block raised, the run is the
    effects of the block followed by what the [except] and [finally]
    blocks do, which logs the fault: the full formatted traceback for the
    two source workers, the one-line message of the exception for the two
    tool workers.  The [try] block of each worker emits no [finished], and
    it ends when the stop flag of a polling worker is seen (a tool worker
    does not poll); so every such run returns, with [finished] emitted
    once, last, and its fault logged. *)
Theorem worker_finishes_exactly_once (r : WorkerRun) :
  run_of r = frame_of r (body_of r)
  /\ count_effects is_finished (trace (body_of r)) = 0%nat
  /\ (forall body : M unit,
        count_effects is_finished (trace body) = 0%nat ->
        outcome body <> Unfinished ->
        outcome (frame_of r body) = Returned tt
        /\ count_effects is_finished (trace (frame_of r body)) = 1%nat
        /\ last (trace (frame_of r body)) = Some finished_emit
        /\ (forall e, outcome body = Raised e ->
              trace (frame_of r body) = (trace body ++ after_body r (Raised e))%list
              /\ In (log_emit (fault_line r e)) (after_body r (Raised e))))
  /\ (stop_is_seen r ->
      outcome (run_of r) = Returned tt
      /\ count_effects is_finished (trace (run_of r)) = 1%nat
      /\ last (trace (run_of r)) = Some finished_emit
      /\ (forall e, outcome (body_of r) = Raised e ->
            In (log_emit (fault_line r e)) (trace (run_of r)))).
Proof.
  assert (Hframe : forall body : M unit,
            count_effects is_finished (trace body) = 0%nat ->
            outcome body <> Unfinished ->
            outcome (frame_of r body) = Returned tt
            /\ count_effects is_finished (trace (frame_of r body)) = 1%nat
            /\ last (trace (frame_of r body)) = Some finished_emit
            /\ (forall e, outcome body = Raised e ->
                  trace (frame_of r body) = (trace body ++ after_body r (Raised e))%list
                  /\ In (log_emit (fault_line r e)) (after_body r (Raised e)))).
  { intros body Hnone Hfin. rewrite (frame_of_body r body). cbn [trace outcome fst snd].
    split; [now destruct (outcome body)|].
    split; [|split].
    - rewrite count_effects_app, Hnone. now rewrite count_finished_after_body.
    - rewrite last_app, last_after_body by assumption. reflexivity.
    - intros e He. rewrite He. split; [reflexivity | apply fault_line_after_body]. }
  split; [apply run_is_frame|]. split; [apply body_not_finished|]. split; [exact Hframe|].
  intros Hstop. pose proof (body_finishes r Hstop) as Hfin. unfold finishes in Hfin.
  destruct (Hframe (body_of r) (body_not_finished r) Hfin) as (H1 & H2 & H3 & H4).
  rewrite run_is_frame. repeat split; try assumption.
  intros e He. destruct (H4 e He) as [-> Hin]. apply in_or_app. now right.
Qed.

(** Two runs of C4.  The camera worker when [start()] of the first of two
    cameras raises: the fault is logged with its traceback.  And the frame
    of the image source worker around a block that raises after its first
    emission: the traceback line, [running_changed(False)], [finished]. *)
Lemma worker_finishes_exactly_once_witness :
  (outcome (CameraServerWorker_run world_start_raises
              (CameraServerWorker_init "/app" [0; 1]%Z) 1) = Returned tt
   /\ count_effects is_finished
        (trace (CameraServerWorker_run world_start_raises
                  (CameraServerWorker_init "/app" [0; 1]%Z) 1)) = 1%nat
   /\ In (log_emit ("FATAL ERROR:" ++ newline ++ exc_format camera_busy))
        (trace (CameraServerWorker_run world_start_raises
                  (CameraServerWorker_init "/app" [0; 1]%Z) 1)))
  /\ trace (ImageSourceWorker_frame faulty_block)
     = [running_changed_emit true;
        log_emit ("FATAL ERROR:" ++ newline ++ exc_format camera_busy);
        running_changed_emit false;
        finished_emit].
Proof.
  split.
  - destruct (worker_finishes_exactly_once
                (run_camera_server world_start_raises
                   (CameraServerWorker_init "/app" [0; 1]%Z) 1))
      as (_ & _ & _ & Hrun).
    destruct Hrun as (H1 & H2 & _ & H4).
    + exists 0%nat. split; [lia | reflexivity].
    + split; [exact H1 | split; [exact H2 | exact (H4 camera_busy eq_refl)]].
  - destruct (worker_finishes_exactly_once
                (run_image_source (fun _ => true) (mkImageSourceWorker "/app/devices" []) 1))
      as (_ & _ & Hframe & _).
    destruct (Hframe faulty_block eq_refl) as (_ & _ & _ & Hfault); [discriminate|].
    exact (proj1 (Hfault camera_busy eq_refl)).
Defined.

(** C4 as stated fails for the tool workers: when [Popen] raises in the
    scan-tool worker the fault is caught and [finished] is emitted, but no
    logged line holds the traceback, only the message of the exception. *)
Lemma worker_fault_trace_counterexample :
  outcome (ShelfScanWorker_run_body world_popen_raises
             (ShelfScanWorker_init "python" "/proj" setup None)) = Raised launch_failed
  /\ never_logs (exc_format launch_failed)
       (trace (ShelfScanWorker_run world_popen_raises
                 (ShelfScanWorker_init "python" "/proj" setup None))) = true
  /\ In (log_emit ("Error running shelf_scan.py (setup): " ++ exc_str launch_failed))
       (trace (ShelfScanWorker_run world_popen_raises
                 (ShelfScanWorker_init "python" "/proj" setup None))).
Proof. split; [reflexivity | split; [vm_compute; reflexivity | vm_compute; tauto]]. Qed.

(** While a worker is still polling, it has not emitted [finished]. *)
Lemma unfinished_run_not_finished (r : WorkerRun) :
  outcome (body_of r) = Unfinished ->
  outcome (run_of r) = Unfinished /\ count_effects is_finished (trace (run_of r)) = 0%nat.
Proof.
  intros H. rewrite (run_of_frame r), H. cbn [trace outcome fst snd after_body].
  split; [reflexivity|]. rewrite app_nil_r. apply body_not_finished.
Qed.

(* ===================================================================== *)
(** ** The Passive Source Worker                                          *)
(* ===================================================================== *)

(** C5. Whatever the image selection, the stop flag and the fuel, every
    effect of a run of the Passive Source Worker is a signal emission (a
    log line, [running_changed], [finished]) or the one-second pause of
    its polling loop; none changes the filesystem. *)
Theorem passive_source_never_writes (is_set : nat -> bool) (self : ImageSourceWorker)
  (fuel : nat) :
  all_effects signal_or_poll (ImageSourceWorker_run is_set self fuel)
  /\ all_effects (fun ev => negb (touches_filesystem ev)) (ImageSourceWorker_run is_set self fuel).
Proof.
  unfold ImageSourceWorker_run, ImageSourceWorker_frame, ImageSourceWorker_run_body,
    ImageSourceWorker_handler, source_worker_finally.
  split; effects.
Qed.

(** *** The reader loops *)
Lemma forward_trace_cons (line : string) (lines : list string) :
  forward_trace (line :: lines)
  = stdout_readline line :: log_emit (rstrip line) :: forward_trace lines.
Proof. reflexivity. Qed.

(** The display tool reads as the scan tool does in "setup" mode. *)
Lemma display_reader_loop_setup (w : ToolWorld) (lines : list string) (k : nat) :
  display_reader_loop w lines k = scan_reader_loop w setup lines k.
Proof.
  revert k. induction lines as [|line lines IH]; intros k;
    cbn [display_reader_loop scan_reader_loop]; [reflexivity|].
  rewrite andb_false_r. now rewrite IH.
Qed.

Lemma first_read_fault_spec (w : ToolWorld) (count k j : nat) (e : PyException) :
  first_read_fault w count k = Some (j, e) ->
  (k <= j < k + count)%nat /\ readline_raises w j = Some e
  /\ forall i, (k <= i < j)%nat -> readline_raises w i = None.
Proof.
  revert k. induction count as [|count IH]; intros k; cbn [first_read_fault]; [discriminate|].
  destruct (readline_raises w k) as [e'|] eqn:Hk.
  - intros [= <- <-]. split; [lia|]. split; [assumption | intros i Hi; lia].
  - intros H. destruct (IH (S k) H) as (Hj & He & Hbefore).
    split; [lia|]. split; [assumption|].
    intros i Hi. destruct (decide (i = k)) as [->|Hne]; [assumption | apply Hbefore; lia].
Qed.

Lemma first_read_fault_none (w : ToolWorld) (count k : nat) :
  (forall i, (k <= i < k + count)%nat -> readline_raises w i = None) ->
  first_read_fault w count k = None.
Proof.
  revert k. induction count as [|count IH]; intros k Hok; cbn [first_read_fault];
    [reflexivity|].
  rewrite (Hok k) by lia. apply IH. intros i Hi. apply Hok. lia.
Qed.

(** The reader loop by the read that raises first, if any: it forwards the
    lines before that read; without one it forwards the lines before the
    stop flag is seen and ends on the next read. *)
Lemma scan_reader_loop_reads (w : ToolWorld) (mode : ScanMode) (lines : list string) (k : nat) :
  Forall (fun line => line <> "") lines ->
  scan_reader_loop w mode lines k
  = match first_read_fault w (S (lines_before_stop w mode lines k)) k with
    | None =>
        ((forward_trace (take (lines_before_stop w mode lines k) lines)
          ++ [stdout_readline (nth (lines_before_stop w mode lines k) lines "")])%list,
         Returned tt)
    | Some (j, e) =>
        ((forward_trace (take (j - k) lines) ++ [stdout_readline_raises e])%list, Raised e)
    end.
Proof.
  revert k. induction lines as [|line lines IH]; intros k Hwf;
    cbn [scan_reader_loop lines_before_stop].
  - cbn [first_read_fault]. unfold readline.
    destruct (readline_raises w k); [now rewrite Nat.sub_diag | reflexivity].
  - inversion Hwf as [|? ? Hline Hrest]; subst. apply String.eqb_neq in Hline.
    unfold readline at 1.
    destruct (readline_raises w k) as [e|] eqn:Hk.
    + rewrite bind_raised.
      destruct (stop_seen_at_check w k && is_service mode); cbn [first_read_fault];
        rewrite Hk, Nat.sub_diag; reflexivity.
    + rewrite perform_bind, Hline.
      destruct (stop_seen_at_check w k && is_service mode).
      * cbn [first_read_fault]. now rewrite Hk.
      * rewrite perform_bind, (IH (S k) Hrest).
        change (first_read_fault w (S (S (lines_before_stop w mode lines (S k)))) k)
          with (match readline_raises w k with
                | Some e => Some (k, e)
                | None => first_read_fault w (S (lines_before_stop w mode lines (S k))) (S k)
                end).
        rewrite Hk.
        destruct (first_read_fault w (S (lines_before_stop w mode lines (S k))) (S k))
          as [[j e]|] eqn:Hfault; [|reflexivity].
        apply first_read_fault_spec in Hfault as (Hj & _).
        replace (j - k)%nat with (S (j - S k)) by lia. reflexivity.
Qed.

Lemma lines_before_stop_le (w : ToolWorld) (mode : ScanMode) (lines : list string) (k : nat) :
  (lines_before_stop w mode lines k <= length lines)%nat.
Proof.
  revert k. induction lines as [|line lines IH]; intros k; cbn [lines_before_stop length]; [lia|].
  destruct (stop_seen_at_check w k && is_service mode); [lia|]. specialize (IH (S k)). lia.
Qed.

Lemma lines_before_stop_setup (w : ToolWorld) (lines : list string) (k : nat) :
  lines_before_stop w setup lines k = length lines.
Proof.
  revert k. induction lines as [|line lines IH]; intros k; cbn [lines_before_stop length];
    [reflexivity|].
  rewrite andb_false_r. now rewrite IH.
Qed.

Lemma read_after_stop_seen (w : ToolWorld) (k : nat) :
  read_after_stop w k = true -> stop_seen_at_check w k = true.
Proof.
  unfold read_after_stop, stop_seen_at_check. destruct (stop_at w) as [n|]; [|discriminate].
  intros H%Nat.leb_le. apply Nat.leb_le. lia.
Qed.

(** A line read after the stop is not among the forwarded ones. *)
Lemma lines_before_stop_read_after (w : ToolWorld) (lines : list string) (k j : nat) :
  read_after_stop w (k + j) = true -> (lines_before_stop w service lines k <= j)%nat.
Proof.
  revert k j. induction lines as [|line lines IH]; intros k j Hread;
    cbn [lines_before_stop]; [lia|].
  rewrite andb_true_r. destruct (stop_seen_at_check w k) eqn:Hk; [lia|].
  destruct j as [|j].
  - rewrite Nat.add_0_r in Hread. apply read_after_stop_seen in Hread. congruence.
  - specialize (IH (S k) j). rewrite <- Nat.add_succ_comm in Hread. specialize (IH Hread). lia.
Qed.

(** Every forwarded line passed the test of the stop flag. *)
Lemma lines_before_stop_checked (w : ToolWorld) (lines : list string) (k j : nat) :
  (j < lines_before_stop w service lines k)%nat -> stop_seen_at_check w (k + j) = false.
Proof.
  revert k j. induction lines as [|line lines IH]; intros k j; cbn [lines_before_stop]; [lia|].
  rewrite andb_true_r. destruct (stop_seen_at_check w k) eqn:Hk; [lia|].
  destruct j as [|j]; intros Hj.
  - now rewrite Nat.add_0_r.
  - rewrite <- Nat.add_succ_comm. apply IH. lia.
Qed.

(** The loop ends before end of file only because the flag was seen. *)
Lemma lines_before_stop_stopped (w : ToolWorld) (lines : list string) (k : nat) :
  (lines_before_stop w service lines k < length lines)%nat ->
  stop_seen_at_check w (k + lines_before_stop w service lines k) = true.
Proof.
  revert k. induction lines as [|line lines IH]; intros k; cbn [lines_before_stop length]; [lia|].
  rewrite andb_true_r. destruct (stop_seen_at_check w k) eqn:Hk.
  - now rewrite Nat.add_0_r.
  - intros H. rewrite <- Nat.add_succ_comm. apply IH. lia.
Qed.

(** *** The runs of the tool workers *)
Lemma tool_reader_finishes (w : ToolWorld) (t : ToolWorker) : finishes (tool_reader w t).
Proof.
  destruct t; [apply scan_reader_loop_finishes | apply display_reader_loop_finishes].
Qed.

Lemma readline_ok (w : ToolWorld) (k : nat) (line : string) :
  readline_raises w k = None -> readline w k line = perform (stdout_readline line).
Proof. unfold readline. now intros ->. Qed.

Lemma scan_reader_loop_returns (w : ToolWorld) (mode : ScanMode) (lines : list string) (k : nat) :
  (forall i, readline_raises w i = None) ->
  outcome (scan_reader_loop w mode lines k) = Returned tt.
Proof.
  intros Hok. revert k. induction lines as [|line lines IH]; intros k;
    cbn [scan_reader_loop]; rewrite (readline_ok w k _ (Hok k)); [reflexivity|].
  rewrite perform_bind. cbn [outcome snd].
  repeat match goal with |- context [if ?b then _ else _] => destruct b end;
    try reflexivity.
  rewrite perform_bind. apply IH.
Qed.

(** Without a read that raises, the reader of either tool worker returns. *)
Lemma tool_reader_returns (w : ToolWorld) (t : ToolWorker) :
  (forall i, readline_raises w i = None) -> outcome (tool_reader w t) = Returned tt.
Proof.
  intros Hok. destruct t; cbn [tool_reader]; rewrite ?display_reader_loop_setup;
    now apply scan_reader_loop_returns.
Qed.

(** The reader of either tool worker, by the read that raises first. *)
Lemma tool_reader_reads (w : ToolWorld) (t : ToolWorker) :
  Forall (fun line => line <> "") (child_lines w) ->
  tool_reader w t
  = match first_read_fault w (S (tool_forwarded w t)) 0 with
    | None =>
        ((forward_trace (take (tool_forwarded w t) (child_lines w))
          ++ [stdout_readline (nth (tool_forwarded w t) (child_lines w) "")])%list,
         Returned tt)
    | Some (j, e) =>
        ((forward_trace (take j (child_lines w)) ++ [stdout_readline_raises e])%list, Raised e)
    end.
Proof.
  intros Hwf. destruct t as [self | self]; cbn [tool_reader tool_forwarded].
  - rewrite (scan_reader_loop_reads w _ _ 0 Hwf).
    destruct (first_read_fault _ _ _) as [[j e]|]; [now rewrite Nat.sub_0_r | reflexivity].
  - rewrite display_reader_loop_setup, (scan_reader_loop_reads w _ _ 0 Hwf).
    rewrite lines_before_stop_setup.
    destruct (first_read_fault _ _ _) as [[j e]|]; [now rewrite Nat.sub_0_r | reflexivity].
Qed.

(** A run whose process was spawned: the announcement, the spawn, what
    the reader does, then the wait, the exit-code line and [finished] when
    the reader returned, the error line and [finished] when it raised. *)
Lemma tool_run_spawned (w : ToolWorld) (t : ToolWorker) (pid : Z) :
  isfile w (tool_path t) = true ->
  Popen_result w (tool_cmd t) = inr pid ->
  tool_run w t =
    ((tool_before_spawn t
      ++ [subprocess_Popen (tool_cmd t) (tool_cwd t) (creationflags_for (os_name w))
            unbuffered_env;
          log_emit (tool_started_line t pid)]
      ++ trace (tool_reader w t)
      ++ match outcome (tool_reader w t) with
         | Raised e => [log_emit (tool_error_line t e); finished_emit]
         | _ => [process_wait (wait_rc w); log_emit (tool_exit_line t (wait_rc w));
                 finished_emit]
         end)%list,
     Returned tt).
Proof.
  intros Hfile Hpopen. pose proof (tool_reader_finishes w t) as Hfin. unfold finishes in Hfin.
  destruct t as [self | self]; cbn [tool_run tool_path tool_cmd tool_reader] in *.
  - unfold ShelfScanWorker_run, ShelfScanWorker_frame, ShelfScanWorker_run_body.
    rewrite Hfile. cbn [negb]. fold (scan_cmd self). unfold Popen. rewrite Hpopen.
    destruct (scan_reader_loop w (scan_mode self) (child_lines w) 0) as [tr [[]|e|]];
      [| |contradiction]; cbn [trace outcome fst snd] in *.
    + msimpl. unfold try_except, try_finally, tool_worker_finally. msimpl.
      cbn [tool_before_spawn tool_cwd tool_started_line tool_exit_line].
      f_equal. cbn [app]. do 5 f_equal. now rewrite <- app_assoc.
    + msimpl. rewrite bind_raised.
      unfold try_except, try_finally, tool_worker_finally, ShelfScanWorker_handler. msimpl.
      cbn [tool_before_spawn tool_cwd tool_started_line tool_error_line].
      f_equal. cbn [app]. do 5 f_equal. now rewrite <- app_assoc.
  - unfold CamDisplayWorker_run, CamDisplayWorker_frame, CamDisplayWorker_run_body.
    fold (display_path self). rewrite Hfile. cbn [negb]. fold (display_cmd self).
    unfold Popen. rewrite Hpopen.
    destruct (display_reader_loop w (child_lines w) 0) as [tr [[]|e|]];
      [| |contradiction]; cbn [trace outcome fst snd] in *.
    + msimpl. unfold try_except, try_finally, tool_worker_finally. msimpl.
      cbn [tool_before_spawn tool_cwd tool_started_line tool_exit_line].
      f_equal. cbn [app]. do 3 f_equal. now rewrite <- app_assoc.
    + msimpl. rewrite bind_raised.
      unfold try_except, try_finally, tool_worker_finally, CamDisplayWorker_handler. msimpl.
      cbn [tool_before_spawn tool_cwd tool_started_line tool_error_line].
      f_equal. cbn [app]. do 3 f_equal. now rewrite <- app_assoc.
Qed.

(** The same run, by the read that raises first. *)
Lemma tool_run_spawned_reads (w : ToolWorld) (t : ToolWorker) (pid : Z) :
  isfile w (tool_path t) = true ->
  Popen_result w (tool_cmd t) = inr pid ->
  Forall (fun line => line <> "") (child_lines w) ->
  tool_run w t =
    ((tool_before_spawn t
      ++ [subprocess_Popen (tool_cmd t) (tool_cwd t) (creationflags_for (os_name w))
            unbuffered_env;
          log_emit (tool_started_line t pid)]
      ++ after_spawn w t)%list,
     Returned tt).
Proof.
  intros Hfile Hpopen Hwf. rewrite (tool_run_spawned w t pid Hfile Hpopen).
  rewrite (tool_reader_reads w t Hwf). unfold after_spawn.
  destruct (first_read_fault _ _ _) as [[j e]|]; cbn [trace outcome fst snd];
    now rewrite <- app_assoc.
Qed.

(** A run that reaches [Popen] has announced its command line before. *)
Lemma tool_run_announces (w : ToolWorld) (t : ToolWorker) :
  isfile w (tool_path t) = true ->
  exists rest,
    trace (tool_run w t)
    = (tool_before_spawn t
       ++ subprocess_Popen (tool_cmd t) (tool_cwd t) (creationflags_for (os_name w))
            unbuffered_env :: rest)%list.
Proof.
  intros Hfile. destruct (Popen_result w (tool_cmd t)) as [e | pid] eqn:Hpopen.
  - destruct t as [self | self]; cbn [tool_run tool_path tool_cmd] in *.
    + unfold ShelfScanWorker_run, ShelfScanWorker_frame, ShelfScanWorker_run_body.
      rewrite Hfile. cbn [negb]. fold (scan_cmd self). unfold Popen. rewrite Hpopen.
      eexists. reflexivity.
    + unfold CamDisplayWorker_run, CamDisplayWorker_frame, CamDisplayWorker_run_body.
      fold (display_path self). rewrite Hfile. cbn [negb]. fold (display_cmd self).
      unfold Popen. rewrite Hpopen. eexists. reflexivity.
  - rewrite (tool_run_spawned w t pid Hfile Hpopen). eexists. reflexivity.
Qed.

(* ===================================================================== *)
(** ** The tool workers                                                   *)
(* ===================================================================== *)

(** C7. When the shelf-scan script is not a file, the run of the scan-tool
    worker is exactly: one log line "Not found: <path>", then [finished].
    No process is spawned, in either mode. *)
Theorem scan_tool_missing_path (w : ToolWorld) (self : ShelfScanWorker) :
  isfile w (shelf_scan_path self) = false ->
  ShelfScanWorker_run w self
  = ([log_emit ("Not found: " ++ shelf_scan_path self); finished_emit], Returned tt).
Proof.
  intros H. unfold ShelfScanWorker_run, ShelfScanWorker_frame, ShelfScanWorker_run_body.
  rewrite H. reflexivity.
Qed.

Lemma scan_tool_missing_path_witness :
  ShelfScanWorker_run world_no_files (ShelfScanWorker_init "python" "/proj" setup None)
  = ([log_emit "Not found: /proj/product_scan/shelf_scan.py"; finished_emit], Returned tt).
Proof.
  exact (scan_tool_missing_path world_no_files
           (ShelfScanWorker_init "python" "/proj" setup None) eq_refl).
Defined.

(** C8 (amended). For a scan-tool worker whose process was spawned, with
    [n] the number of lines it forwards when no read raises: in "service"
    mode no line read after [stop()] set the flag is among them ([n <= k]
    for every such line [k]), every one of them passed the test of the
    flag, and forwarding ends before end of file only when the flag was
    seen; in "setup" mode they are all the lines, whenever the flag is
    set.
    - When none of the reads of the run raises, the run is the
      announcement, the spawn, the first [n] lines each read and logged,
      one more read (the line that met the stop flag, or end of file),
      then the wait for the process, the exit-code line and [finished].
    - When a read raises (the output is decoded strictly), the [j]-th
      being the first, in either mode: only the [j] lines before it are
      forwarded, [j <= n], and the run goes on with the error line of the
      [except] block and [finished].  The process is not waited for and
      no exit code is logged. *)
Theorem scan_reader_stops_forwarding (w : ToolWorld) (self : ShelfScanWorker) (pid : Z) :
  isfile w (shelf_scan_path self) = true ->
  Popen_result w (scan_cmd self) = inr pid ->
  Forall (fun line => line <> "") (child_lines w) ->
  exists n,
    (n <= length (child_lines w))%nat
    /\ (scan_mode self = service ->
        (forall k, read_after_stop w k = true -> (n <= k)%nat)
        /\ (forall k, (k < n)%nat -> stop_seen_at_check w k = false)
        /\ ((n < length (child_lines w))%nat -> stop_seen_at_check w n = true))
    /\ (scan_mode self = setup -> n = length (child_lines w))
    /\ (first_read_fault w (S n) 0 = None ->
        ShelfScanWorker_run w self =
          ((tool_before_spawn (tool_scan self)
            ++ [subprocess_Popen (scan_cmd self) (scan_project_root self)
                  (creationflags_for (os_name w)) unbuffered_env;
                log_emit (tool_started_line (tool_scan self) pid)]
            ++ forward_trace (take n (child_lines w))
            ++ [stdout_readline (nth n (child_lines w) "");
                process_wait (wait_rc w);
                log_emit (tool_exit_line (tool_scan self) (wait_rc w));
                finished_emit])%list,
           Returned tt))
    /\ (forall j e, first_read_fault w (S n) 0 = Some (j, e) ->
        (j <= n)%nat
        /\ ShelfScanWorker_run w self =
             ((tool_before_spawn (tool_scan self)
               ++ [subprocess_Popen (scan_cmd self) (scan_project_root self)
                     (creationflags_for (os_name w)) unbuffered_env;
                   log_emit (tool_started_line (tool_scan self) pid)]
               ++ forward_trace (take j (child_lines w))
               ++ [stdout_readline_raises e;
                   log_emit (tool_error_line (tool_scan self) e);
                   finished_emit])%list,
              Returned tt)).
Proof.
  intros Hfile Hpopen Hlines.
  exists (lines_before_stop w (scan_mode self) (child_lines w) 0).
  pose proof (tool_run_spawned_reads w (tool_scan self) pid Hfile Hpopen Hlines) as Hrun.
  unfold after_spawn in Hrun. cbn [tool_run tool_cmd tool_cwd tool_forwarded] in Hrun.
  split; [apply lines_before_stop_le|]. split; [|split; [|split]].
  - intros ->. split; [|split].
    + intros k Hk. now apply (lines_before_stop_read_after w (child_lines w) 0 k).
    + intros k Hk. now apply (lines_before_stop_checked w (child_lines w) 0 k).
    + intros Hn. now apply (lines_before_stop_stopped w (child_lines w) 0).
  - intros ->. apply lines_before_stop_setup.
  - intros Hnone. now rewrite Hnone in Hrun.
  - intros j e Hfault. rewrite Hfault in Hrun. split; [|exact Hrun].
    apply first_read_fault_spec in Hfault as (Hj & _). lia.
Qed.

(** A run of C8: service mode, three lines, [stop()] after the first line
    was forwarded.  The second line is read and dropped. *)
Lemma scan_reader_stops_forwarding_witness :
  exists n,
    ShelfScanWorker_run world_stopped_early (ShelfScanWorker_init "python" "/proj" service None)
    = ((tool_before_spawn (tool_scan (ShelfScanWorker_init "python" "/proj" service None))
        ++ [subprocess_Popen (scan_cmd (ShelfScanWorker_init "python" "/proj" service None))
              "/proj" CREATE_NEW_PROCESS_GROUP unbuffered_env;
            log_emit "shelf_scan.py (service) started (pid=4242)"]
        ++ forward_trace (take n (child_lines world_stopped_early))
        ++ [stdout_readline (nth n (child_lines world_stopped_early) "");
            process_wait 1;
            log_emit "shelf_scan.py (service) exited with code 1";
            finished_emit])%list,
       Returned tt)
    /\ (forall k, read_after_stop world_stopped_early k = true -> (n <= k)%nat).
Proof.
  destruct (scan_reader_stops_forwarding world_stopped_early
              (ShelfScanWorker_init "python" "/proj" service None) 4242)
    as (n & _ & Hservice & _ & Hrun & _).
  - reflexivity.
  - reflexivity.
  - repeat constructor; discriminate.
  - exists n. split; [|exact (proj1 (Hservice eq_refl))].
    apply Hrun. apply first_read_fault_none. intros i _. reflexivity.
Defined.

Example scan_reader_stopped_early :
  trace (ShelfScanWorker_run world_stopped_early
           (ShelfScanWorker_init "python" "/proj" service None))
  = [log_emit "Executing with interpreter: python";
     log_emit "Command: python -u /proj/product_scan/shelf_scan.py service";
     mode_changed_emit "service";
     subprocess_Popen ["python"; "-u"; "/proj/product_scan/shelf_scan.py"; "service"] "/proj"
       512 [("PYTHONUNBUFFERED", "1"); ("PYTHONIOENCODING", "utf-8")];
     log_emit "shelf_scan.py (service) started (pid=4242)";
     stdout_readline ("scanning shelf 1 " ++ newline);
     log_emit "scanning shelf 1";
     stdout_readline ("scanning shelf 2" ++ newline);
     process_wait 1;
     log_emit "shelf_scan.py (service) exited with code 1";
     finished_emit].
Proof. reflexivity. Qed.

(** C8 as stated fails when a read raises.  In "setup" mode, on a process
    whose second line is not text: the first line is forwarded, the
    second read raises, and the run ends with the error line and
    [finished].  The lines are not forwarded until end of file, the worker
    does not wait for the process, and no exit code is logged. *)
Lemma scan_reader_fault_counterexample :
  ShelfScanWorker_run world_undecodable (ShelfScanWorker_init "python" "/proj" setup None)
  = ([log_emit "Executing with interpreter: python";
      log_emit "Command: python -u /proj/product_scan/shelf_scan.py setup";
      mode_changed_emit "setup";
      subprocess_Popen ["python"; "-u"; "/proj/product_scan/shelf_scan.py"; "setup"] "/proj"
        0 [("PYTHONUNBUFFERED", "1"); ("PYTHONIOENCODING", "utf-8")];
      log_emit "shelf_scan.py (setup) started (pid=4242)";
      stdout_readline ("scanning shelf 1" ++ newline);
      log_emit "scanning shelf 1";
      stdout_readline_raises undecodable;
      log_emit ("Error running shelf_scan.py (setup): " ++ exc_str undecodable);
      finished_emit],
     Returned tt)
  /\ count_effects is_process_wait
       (trace (ShelfScanWorker_run world_undecodable
                 (ShelfScanWorker_init "python" "/proj" setup None))) = 0%nat
  /\ never_logs "exited with code"
       (trace (ShelfScanWorker_run world_undecodable
                 (ShelfScanWorker_init "python" "/proj" setup None))) = true.
Proof. repeat split; vm_compute; reflexivity. Qed.

(** C9 (amended). Each of the two tool workers, on a run whose tool file
    exists (so that [Popen] is called), emits its announcement, the log
    line(s) with the interpreter and the full command line, before the
    [Popen] call.  When [Popen] returned a process, the run goes on with
    the "started" line and the output read and forwarded; then
    - when the reader loop returned (no read raised): the wait for the
      process, the line with the numeric exit code, [finished];
    - when a read raised: the error line of the [except] block and
      [finished], without a wait and without an exit-code line. *)
Theorem tool_workers_announce_and_report (w : ToolWorld) (t : ToolWorker) :
  isfile w (tool_path t) = true ->
  (exists rest,
     trace (tool_run w t)
     = (tool_before_spawn t
        ++ subprocess_Popen (tool_cmd t) (tool_cwd t) (creationflags_for (os_name w))
             unbuffered_env :: rest)%list)
  /\ (forall pid, Popen_result w (tool_cmd t) = inr pid ->
      (outcome (tool_reader w t) = Returned tt ->
       tool_run w t =
         ((tool_before_spawn t
           ++ [subprocess_Popen (tool_cmd t) (tool_cwd t) (creationflags_for (os_name w))
                 unbuffered_env;
               log_emit (tool_started_line t pid)]
           ++ trace (tool_reader w t)
           ++ [process_wait (wait_rc w); log_emit (tool_exit_line t (wait_rc w));
               finished_emit])%list,
          Returned tt))
      /\ (forall e, outcome (tool_reader w t) = Raised e ->
          tool_run w t =
            ((tool_before_spawn t
              ++ [subprocess_Popen (tool_cmd t) (tool_cwd t) (creationflags_for (os_name w))
                    unbuffered_env;
                  log_emit (tool_started_line t pid)]
              ++ trace (tool_reader w t)
              ++ [log_emit (tool_error_line t e); finished_emit])%list,
             Returned tt))
      /\ ((forall k, readline_raises w k = None) -> outcome (tool_reader w t) = Returned tt)
      /\ (Forall (fun line => line <> "") (child_lines w) ->
          forall j e, first_read_fault w (S (tool_forwarded w t)) 0 = Some (j, e) ->
            outcome (tool_reader w t) = Raised e)).
Proof.
  intros Hfile. split; [now apply tool_run_announces|].
  intros pid Hpopen. pose proof (tool_run_spawned w t pid Hfile Hpopen) as Hrun.
  split; [|split; [|split]].
  - intros Hret. now rewrite Hret in Hrun.
  - intros e He. now rewrite He in Hrun.
  - intros Hok. now apply tool_reader_returns.
  - intros Hwf j e Hfault. now rewrite (tool_reader_reads w t Hwf), Hfault.
Qed.

(** A run of C9: the display-tool worker on three lines of output. *)
Lemma tool_workers_announce_and_report_witness :
  tool_run world_stopped_early
    (tool_display (CamDisplayWorker_init "python" "/proj" "/app/product_visual" "Shelf" None))
  = ([log_emit ("Executing cam display: python -u /proj/cam_display/display_camera.py "
                ++ "--root-dir /app/product_visual --title Shelf");
      subprocess_Popen ["python"; "-u"; "/proj/cam_display/display_camera.py";
                        "--root-dir"; "/app/product_visual"; "--title"; "Shelf"] "/proj"
        512 [("PYTHONUNBUFFERED", "1"); ("PYTHONIOENCODING", "utf-8")];
      log_emit "cam_display started (pid=4242)";
      stdout_readline ("scanning shelf 1 " ++ newline); log_emit "scanning shelf 1";
      stdout_readline ("scanning shelf 2" ++ newline); log_emit "scanning shelf 2";
      stdout_readline "done"; log_emit "done";
      stdout_readline "";
      process_wait 1;
      log_emit "cam_display exited with code 1";
      finished_emit],
     Returned tt).
Proof.
  destruct (tool_workers_announce_and_report world_stopped_early
              (tool_display (CamDisplayWorker_init "python" "/proj" "/app/product_visual"
                               "Shelf" None)) eq_refl) as [_ Hrun].
  destruct (Hrun 4242%Z eq_refl) as (Hreturned & _ & Hok & _).
  apply Hreturned, Hok. intros k. reflexivity.
Defined.

(** C9 as stated fails when a read raises.  The display-tool worker on a
    process whose second line is not text reaches spawning and announces
    its command line, but logs no exit code and does not wait for the
    process. *)
Lemma tool_exit_code_counterexample :
  count_effects is_Popen
    (trace (tool_run world_undecodable
              (tool_display (CamDisplayWorker_init "python" "/proj" "/app/product_visual"
                               "Shelf" None)))) = 1%nat
  /\ count_effects is_process_wait
       (trace (tool_run world_undecodable
                 (tool_display (CamDisplayWorker_init "python" "/proj" "/app/product_visual"
                                  "Shelf" None)))) = 0%nat
  /\ never_logs "exited with code"
       (trace (tool_run world_undecodable
                 (tool_display (CamDisplayWorker_init "python" "/proj" "/app/product_visual"
                                  "Shelf" None)))) = true
  /\ In (log_emit ("Error running cam_display: " ++ exc_str undecodable))
       (trace (tool_run world_undecodable
                 (tool_display (CamDisplayWorker_init "python" "/proj" "/app/product_visual"
                                  "Shelf" None)))).
Proof. repeat split; vm_compute; (reflexivity || tauto). Qed.

(* ===================================================================== *)
(** ** The three slots of the window                                      *)
(* ===================================================================== *)

Lemma Slot_eq_dec (s1 s2 : Slot) : {s1 = s2} + {s1 <> s2}.
Proof. decide equality. Defined.

Lemma running_is_held_one_per_slot (self : MainWindow) :
  running_is_held self -> one_running_per_slot self.
Proof.
  intros Hheld i j ti tj Hi Hj Hri Hrj Hslot.
  pose proof (Hheld i ti Hi Hri) as H1. pose proof (Hheld j tj Hj Hrj) as H2.
  rewrite Hslot in H1. congruence.
Qed.

(** Nothing starts running and no holder changes: the invariant stays. *)
Lemma running_is_held_mono (self self' : MainWindow) :
  holders self' = holders self ->
  (forall i t', threads self' !! i = Some t' -> isRunning t' = true ->
     exists t, threads self !! i = Some t /\ isRunning t = true
               /\ thread_worker t = thread_worker t') ->
  running_is_held self -> running_is_held self'.
Proof.
  intros Hh Ht Hheld i t' Hi Hr. destruct (Ht i t' Hi Hr) as (t & Hlook & Hrun & Hw).
  rewrite <- Hw. specialize (Hheld i t Hlook Hrun).
  destruct (slot_of (thread_worker t)); cbn [holder_of] in *; now rewrite Hh.
Qed.

Lemma running_is_held_same_workers (self self' : MainWindow) :
  holders self' = holders self -> threads self' = threads self ->
  running_is_held self -> running_is_held self'.
Proof.
  intros Hh Ht. apply running_is_held_mono; [assumption|].
  intros i t' Hi Hr. rewrite Ht in Hi. now exists t'.
Qed.

Lemma running_is_held_alter (f : QThread -> QThread) (k : nat) (self : MainWindow) :
  (forall t, thread_worker (f t) = thread_worker t) ->
  (forall t, isRunning (f t) = true -> isRunning t = true) ->
  running_is_held self ->
  running_is_held (set_threads (alter f k (threads self)) self).
Proof.
  intros Hw Hr. apply running_is_held_mono; [reflexivity|].
  intros i t' Hi Hrun. cbn [threads set_threads] in Hi.
  destruct (decide (k = i)) as [->|Hne].
  - rewrite list_lookup_alter_eq in Hi.
    destruct (threads self !! i) as [t|] eqn:Ht; [|discriminate].
    injection Hi as <-. exists t. auto.
  - rewrite list_lookup_alter_ne in Hi by assumption. now exists t'.
Qed.

(** Starting a new worker in a slot whose holder is not running. *)
Lemma running_is_held_launch (self self' : MainWindow) (worker : Worker) (slot : FinishedSlot) :
  running_is_held self ->
  threads self' = alter (set_running true) (length (threads self))
                    (threads self ++ [mkQThread worker slot false false])%list ->
  holder_is_running self (holder_of (slot_of worker) self) = false ->
  holder_of (slot_of worker) self' = Some (length (threads self)) ->
  (forall s, s <> slot_of worker -> holder_of s self' = holder_of s self) ->
  running_is_held self'.
Proof.
  intros Hheld Hthreads Hidle Hholder Hothers i t Hi Hrun. rewrite Hthreads in Hi.
  destruct (decide (length (threads self) = i)) as [<-|Hne].
  - rewrite list_lookup_alter_eq, lookup_app_r, Nat.sub_diag in Hi by lia.
    injection Hi as <-. exact Hholder.
  - rewrite list_lookup_alter_ne in Hi by assumption.
    assert (Hold : threads self !! i = Some t).
    { destruct (decide (i < length (threads self))%nat) as [Hlt|Hge].
      - now rewrite lookup_app_l in Hi.
      - rewrite lookup_app_r in Hi by lia.
        destruct (i - length (threads self))%nat as [|d] eqn:Hd; [lia|].
        now destruct d. }
    pose proof (Hheld i t Hold Hrun) as Hh.
    destruct (Slot_eq_dec (slot_of (thread_worker t)) (slot_of worker)) as [Hsame|Hdiff].
    + rewrite Hsame in Hh. unfold holder_is_running in Hidle.
      rewrite Hh, Hold in Hidle. congruence.
    + now rewrite Hothers.
Qed.

Lemma rescan_items_workers fs cams initial self t self' :
  rescan_items fs cams initial self = (t, Returned self') ->
  holders self' = holders self /\ threads self' = threads self.
Proof.
  unfold rescan_items. intros H.
  repeat match type of H with
    | context [match ?x with _ => _ end] => destruct x
    end; inversion H; subst; split; reflexivity.
Qed.

Lemma finished_callback_workers slot self :
  holders (finished_callback slot self) = holders self
  /\ threads (finished_callback slot self) = threads self.
Proof. destruct slot; split; reflexivity. Qed.

Lemma stop_preserves (self : MainWindow) (holder : option nat) (line idle : string) :
  running_is_held self ->
  running_is_held
    match holder with
    | Some i =>
        if holder_is_running self (Some i) then
          set_threads (alter set_stop_requested i (threads (append_log line self)))
            (append_log line self)
        else append_log idle self
    | None => append_log idle self
    end.
Proof.
  intros Hheld. destruct holder as [i|]; [destruct (holder_is_running self (Some i))|].
  - apply running_is_held_alter; [reflexivity | auto |].
    now apply (running_is_held_same_workers self).
  - now apply (running_is_held_same_workers self).
  - now apply (running_is_held_same_workers self).
Qed.

Ltac launched Hheld Hbusy :=
  eapply running_is_held_launch;
    [ exact Hheld
    | reflexivity
    | exact Hbusy
    | reflexivity
    | intros [] Hs; cbn [slot_of] in Hs; (reflexivity || congruence) ].

Lemma request_preserves (h : Host) (q : StartRequest) (self self' : MainWindow) t :
  running_is_held self ->
  request h q self = (t, Returned self') ->
  running_is_held self'.
Proof.
  intros Hheld Hreq.
  destruct (holder_is_running self (holder_of (request_slot q) self)) eqn:Hbusy.
  - destruct q; cbn [request request_slot holder_of] in *;
      unfold start_source, run_shelf_setup, start_shelf_service, start_cam_display in Hreq;
      rewrite Hbusy in Hreq; inversion Hreq; subst; assumption.
  - destruct q; cbn [request request_slot holder_of] in *;
      unfold start_source, run_shelf_setup, start_shelf_service, start_cam_display in Hreq;
      rewrite Hbusy in Hreq;
      cbv beta iota zeta delta [wire_source_worker new_thread new_shelf_worker
                                 QThread_start_method int_of_item] in Hreq.
    + repeat match type of Hreq with
        | context [match ?x with _ => _ end] => destruct x eqn:?
        end; try discriminate;
        try (inversion Hreq; subst; assumption);
        inversion Hreq; subst; launched Hheld Hbusy.
    + inversion Hreq; subst. launched Hheld Hbusy.
    + inversion Hreq; subst. launched Hheld Hbusy.
    + unfold call in Hreq. destruct (host_makedirs_raises h _);
        [rewrite bind_raised in Hreq; discriminate|].
      inversion Hreq; subst. launched Hheld Hbusy.
Qed.

Lemma handle_preserves (h : Host) (ev : Event) (self self' : MainWindow) t :
  running_is_held self ->
  handle h ev self = (t, Returned self') ->
  running_is_held self'.
Proof.
  intros Hheld Hev. destruct ev; cbn [handle] in Hev.
  - exact (request_preserves h request_start_source self self' t Hheld Hev).
  - inversion Hev; subst. apply stop_preserves, Hheld.
  - exact (request_preserves h request_run_shelf_setup self self' t Hheld Hev).
  - exact (request_preserves h request_start_shelf_service self self' t Hheld Hev).
  - inversion Hev; subst. apply stop_preserves, Hheld.
  - exact (request_preserves h request_start_cam_display self self' t Hheld Hev).
  - inversion Hev; subst. apply stop_preserves, Hheld.
  - apply rescan_items_workers in Hev as [Hh Ht].
    now apply (running_is_held_same_workers self).
  - apply rescan_items_workers in Hev as [Hh Ht].
    now apply (running_is_held_same_workers self).
  - destruct (item_combo_items (inputs self) !! index); inversion Hev; subst;
      [now apply (running_is_held_same_workers self) | assumption].
  - inversion Hev; subst. now apply (running_is_held_same_workers self).
  - destruct (String.eqb path ""); [inversion Hev; subst; assumption|].
    apply rescan_items_workers in Hev as [Hh Ht].
    now apply (running_is_held_same_workers self).
  - inversion Hev; subst. now apply (running_is_held_same_workers self).
  - inversion Hev; subst. apply running_is_held_alter; [reflexivity | discriminate | assumption].
  - destruct (threads self !! thread); inversion Hev; subst; [|assumption].
    destruct (finished_callback_workers (finished_slot q) self) as [Hh Ht].
    now apply (running_is_held_same_workers self).
Qed.

Lemma MainWindow_init_held fs home cams t self :
  MainWindow_init fs home cams = (t, Returned self) -> running_is_held self.
Proof.
  unfold MainWindow_init. intros H.
  destruct (rescan_items fs cams false _) as [t1 [self1| |]] eqn:H1; try discriminate.
  rewrite bind_returned in H.
  destruct (rescan_items fs cams true self1) as [t2 [self2| |]] eqn:H2; try discriminate.
  cbn [trace outcome fst snd] in H. inversion H; subst.
  apply rescan_items_workers in H1 as [_ Ht1]. apply rescan_items_workers in H2 as [_ Ht2].
  intros i q Hi. rewrite Ht2, Ht1 in Hi. discriminate.
Qed.

Lemma reachable_running_is_held (h : Host) (self : MainWindow) :
  reachable h self -> running_is_held self.
Proof.
  induction 1 as [fs home cams t self Hinit | ev self t self' _ IH Hev].
  - exact (MainWindow_init_held fs home cams t self Hinit).
  - exact (handle_preserves h ev self self' t IH Hev).
Qed.

Lemma busy_request_rejected (h : Host) (q : StartRequest) (self : MainWindow) :
  holder_is_running self (holder_of (request_slot q) self) = true ->
  request h q self = ([busy_dialog q], Returned self).
Proof.
  intros Hbusy.
  destruct q; cbn [request request_slot holder_of busy_dialog] in *;
    unfold start_source, run_shelf_setup, start_shelf_service, start_cam_display;
    rewrite Hbusy; reflexivity.
Qed.

(** C6. In every window that can arise, at most one worker of each slot
    is running; and a start request for a slot whose holder is running
    (Start, Run Shelf Setup, Start Shelf Service, Open Cam Display) does
    nothing but show the information dialog that reports the busy slot:
    the window it returns is the window it was given, so no worker was
    constructed and the running worker is untouched. *)
Theorem busy_slot_rejects_start (h : Host) (self : MainWindow) :
  reachable h self ->
  one_running_per_slot self
  /\ (forall q, holder_is_running self (holder_of (request_slot q) self) = true ->
        request h q self = ([busy_dialog q], Returned self)).
Proof.
  intros Hreach. split.
  - apply running_is_held_one_per_slot. now apply (reachable_running_is_held h).
  - intros q. apply busy_request_rejected.
Qed.

Lemma reachable_window_started : reachable example_host window_started.
Proof.
  eapply reachable_step with (ev := ev_start_source).
  - eapply reachable_step
      with (ev := ev_source_changed src_cameras bare_filesystem [3%Z]).
    + eapply (reachable_init example_host bare_filesystem "/home/user" [3%Z]).
      vm_compute. reflexivity.
    + vm_compute. reflexivity.
  - vm_compute. reflexivity.
Defined.

Lemma busy_slot_rejects_start_witness :
  holder_is_running window_started (active_worker (holders window_started)) = true
  /\ start_source example_host window_started
     = ([QMessageBox_information "Running" "Source is already running."],
        Returned window_started).
Proof.
  split; [reflexivity|].
  exact (proj2 (busy_slot_rejects_start example_host window_started reachable_window_started)
           request_start_source eq_refl).
Defined.

(* ===================================================================== *)
(** ** Device-directory normalization                                     *)
(* ===================================================================== *)

(** C2 (amended). On a POSIX system, where [os.path] is [posixpath]:
    for every path the last segment of the normalized device directory
    is the canonical folder name up to case (it is literally "devices"
    whenever the segment was appended).  Normalizing is idempotent on
    every path whose [normpath] is not ".", and normalizing [root] and
    [root]/devices give the same result whenever [normpath root] is not
    "." and does not already end in that folder name.  The same holds
    for the path field of the window, whose text is stripped first,
    provided the normalized text does not begin with white space (the
    Unicode white space [str.strip] removes). *)
Theorem devices_dir_normalization :
  (forall p, lower (basename (normalize_devices_dir p)) = devices_folder)
  /\ (forall text, lower (basename (get_devices_dir_normalized text)) = devices_folder)
  /\ (forall p, lower (basename (normpath p)) <> devices_folder ->
        basename (normalize_devices_dir p) = devices_folder)
  /\ (forall p, normpath p <> "." ->
        normalize_devices_dir (normalize_devices_dir p) = normalize_devices_dir p)
  /\ (forall root, normpath root <> "." ->
        lower (basename (normpath root)) <> devices_folder ->
        normalize_devices_dir (join root devices_folder) = normalize_devices_dir root)
  /\ (forall text, normpath (strip text) <> "." ->
        leading_space (normpath (strip text)) = false ->
        get_devices_dir_normalized (get_devices_dir_normalized text)
        = get_devices_dir_normalized text).
Proof.
  split; [exact normalize_last_segment|].
  split; [intros text; apply normalize_last_segment|].
  split.
  { intros p Hp. destruct (normalize_cases p) as [[? _] | [_ ->]]; [contradiction|].
    apply basename_join_plain; [apply normpath_not_nil | apply plain_devices]. }
  split; [exact normalize_idempotent|].
  split; [exact normalize_root_and_devices | exact get_devices_dir_idempotent].
Qed.

(** C2 on the path "/app/active_state", as a worker and as the window
    normalize it; the text of the window begins with a no-break space. *)
Lemma devices_dir_normalization_witness :
  normalize_devices_dir (normalize_devices_dir "/app/active_state")
  = normalize_devices_dir "/app/active_state"
  /\ normalize_devices_dir (join "/app/active_state" devices_folder)
     = normalize_devices_dir "/app/active_state"
  /\ get_devices_dir_normalized
       (get_devices_dir_normalized (nbsp ++ " /app/active_state "))
     = get_devices_dir_normalized (nbsp ++ " /app/active_state ").
Proof.
  destruct devices_dir_normalization as (_ & _ & _ & Hidem & Hroot & Htext).
  split; [|split].
  - apply Hidem. vm_compute. discriminate.
  - apply Hroot; vm_compute; discriminate.
  - apply Htext; vm_compute; [discriminate | reflexivity].
Defined.

(** C2 as stated fails in each of its three parts.  The empty path
    normalizes to "./devices", which normalizes to "devices".  A root that
    already ends in the folder name gets it appended once it is joined.
    And a last segment that is the folder name in another case is kept. *)
Lemma devices_dir_normalization_counterexample :
  (normalize_devices_dir "" = "./devices"
   /\ normalize_devices_dir (normalize_devices_dir "") = "devices")
  /\ (normalize_devices_dir "/app/devices" = "/app/devices"
      /\ normalize_devices_dir (join "/app/devices" devices_folder) = "/app/devices/devices")
  /\ (normalize_devices_dir "/app/DEVICES" = "/app/DEVICES"
      /\ basename (normalize_devices_dir "/app/DEVICES") <> devices_folder).
Proof. repeat split; vm_compute; (reflexivity || discriminate). Qed.

(** The window's normalization needs the condition on white space: in
    "a/../<no-break space>/x" the white space is in front only once the
    path is normalized, and the second normalization strips it. *)
Example get_devices_dir_leading_space :
  strip ("a/../" ++ nbsp ++ "/x") = "a/../" ++ nbsp ++ "/x"
  /\ leading_space (normpath (strip ("a/../" ++ nbsp ++ "/x"))) = true
  /\ get_devices_dir_normalized ("a/../" ++ nbsp ++ "/x") = nbsp ++ "/x/devices"
  /\ get_devices_dir_normalized (get_devices_dir_normalized ("a/../" ++ nbsp ++ "/x"))
     = "/x/devices".
Proof. repeat split. Qed.

(* ===================================================================== *)
(** ** find_jpg_images                                                    *)
(* ===================================================================== *)

Lemma insert_sorted_perm (x : string) (l : list string) :
  Permutation (insert_sorted x l) (x :: l).
Proof.
  induction l as [|y l IH]; cbn [insert_sorted]; [reflexivity|].
  destruct (String.leb x y); [reflexivity|].
  rewrite IH. apply perm_swap.
Qed.

Lemma sorted_perm (l : list string) : Permutation (sorted l) l.
Proof.
  induction l as [|x l IH]; cbn [sorted]; [reflexivity|].
  rewrite insert_sorted_perm. now constructor.
Qed.

Lemma insert_sorted_hd (x a : string) (l : list string) :
  String.leb a x = true -> HdRel (fun s t => String.leb s t = true) a l ->
  HdRel (fun s t => String.leb s t = true) a (insert_sorted x l).
Proof.
  intros Hax Hl. destruct l as [|y l]; cbn [insert_sorted]; [now constructor|].
  destruct (String.leb x y); constructor; [assumption|]. now inversion Hl.
Qed.

Lemma insert_sorted_sorted (x : string) (l : list string) :
  Sorted (fun s t => String.leb s t = true) l ->
  Sorted (fun s t => String.leb s t = true) (insert_sorted x l).
Proof.
  induction l as [|y l IH]; intros Hl; cbn [insert_sorted]; [repeat constructor|].
  destruct (String.leb x y) eqn:Hxy.
  - constructor; [assumption | now constructor].
  - inversion Hl; subst. constructor; [now apply IH|].
    apply insert_sorted_hd; [|assumption].
    destruct (String.leb_total x y) as [H|H]; [congruence | assumption].
Qed.

Lemma sorted_sorted (l : list string) :
  Sorted (fun s t => String.leb s t = true) (sorted l).
Proof.
  induction l as [|x l IH]; cbn [sorted]; [constructor | now apply insert_sorted_sorted].
Qed.

Lemma collect_jpg_filter (devices_dir : string) (names : list string) :
  collect_jpg devices_dir names
  = map (join devices_dir) (List.filter is_jpg_name names).
Proof.
  induction names as [|name names IH]; cbn [collect_jpg List.filter map]; [reflexivity|].
  destruct (is_jpg_name name); cbn [map]; now rewrite IH.
Qed.

Lemma compare_not_gt_trans (s t u : string) :
  String.compare s t <> Gt -> String.compare t u <> Gt -> String.compare s u <> Gt.
Proof.
  revert t u. induction s as [|a s IH]; intros [|b t] [|c u]; cbn [String.compare];
    try congruence.
  unfold Ascii.compare.
  destruct (N.compare_spec (N_of_ascii a) (N_of_ascii b));
    destruct (N.compare_spec (N_of_ascii b) (N_of_ascii c));
    destruct (N.compare_spec (N_of_ascii a) (N_of_ascii c));
    try congruence; try lia.
  apply IH.
Qed.

Lemma leb_trans (s t u : string) :
  String.leb s t = true -> String.leb t u = true -> String.leb s u = true.
Proof.
  unfold String.leb. intros H1 H2.
  pose proof (compare_not_gt_trans s t u) as H.
  destruct (String.compare s t), (String.compare t u), (String.compare s u);
    try reflexivity; try discriminate; exfalso; apply H; congruence.
Qed.

Lemma filter_strongly_sorted (f : string -> bool) (l : list string) :
  StronglySorted (fun s t => String.leb s t = true) l ->
  StronglySorted (fun s t => String.leb s t = true) (List.filter f l).
Proof.
  induction 1 as [|a l Hl IH Ha]; cbn [List.filter]; [constructor|].
  destruct (f a); [|assumption].
  constructor; [assumption|].
  apply List.Forall_forall. intros x Hx. apply List.filter_In in Hx as [Hx _].
  exact (proj1 (List.Forall_forall _ _) Ha x Hx).
Qed.

Lemma filter_perm (f : string -> bool) (l l' : list string) :
  Permutation l l' -> Permutation (List.filter f l) (List.filter f l').
Proof.
  induction 1 as [|x l l' _ IH|x y l|l l' l'' _ IH1 _ IH2]; cbn [List.filter].
  - constructor.
  - destruct (f x); [now constructor | assumption].
  - destruct (f x), (f y); try reflexivity. apply perm_swap.
  - now transitivity (List.filter f l').
Qed.

Lemma find_jpg_images_listed (fs : FileSystem) (devices_dir : string) (entries : list string) :
  isdir fs devices_dir = true -> listdir fs devices_dir = inr entries ->
  find_jpg_images fs devices_dir
  = inr (map (join devices_dir) (List.filter is_jpg_name (sorted entries))).
Proof.
  intros Hdir Hlist. unfold find_jpg_images. rewrite Hdir, Hlist. cbn [negb].
  now rewrite collect_jpg_filter.
Qed.

Lemma find_jpg_images_not_dir (fs : FileSystem) (devices_dir : string) :
  isdir fs devices_dir = false -> find_jpg_images fs devices_dir = inr [].
Proof. intros Hdir. unfold find_jpg_images. now rewrite Hdir. Qed.

Lemma find_jpg_images_listdir_raises (fs : FileSystem) (devices_dir : string) e :
  isdir fs devices_dir = true -> listdir fs devices_dir = inl e ->
  find_jpg_images fs devices_dir = inl e.
Proof. intros Hdir Hlist. unfold find_jpg_images. now rewrite Hdir, Hlist. Qed.

(** What [find_jpg_images] does.  When the path is not a directory
    it returns the empty list and does not list anything.  When
    [os.listdir] raises, the exception leaves the function.  Otherwise
    the result is the directory joined with each of a list of names that
    is in ascending order and holds exactly the entries of the listing
    that end in ".jpg" up to case, each as often as it is listed. *)
Theorem find_jpg_images_spec (fs : FileSystem) (devices_dir : string) :
  (isdir fs devices_dir = false -> find_jpg_images fs devices_dir = inr [])
  /\ (forall e, isdir fs devices_dir = true -> listdir fs devices_dir = inl e ->
        find_jpg_images fs devices_dir = inl e)
  /\ (forall entries, isdir fs devices_dir = true -> listdir fs devices_dir = inr entries ->
        exists names,
          find_jpg_images fs devices_dir = inr (map (join devices_dir) names)
          /\ StronglySorted (fun s t => String.leb s t = true) names
          /\ Permutation names (List.filter is_jpg_name entries)).
Proof.
  split; [apply find_jpg_images_not_dir|].
  split; [intros e; apply find_jpg_images_listdir_raises|].
  intros entries Hdir Hlist. exists (List.filter is_jpg_name (sorted entries)).
  split; [now apply find_jpg_images_listed|]. split.
  - apply filter_strongly_sorted, Sorted_StronglySorted; [|apply sorted_sorted].
    intros s t u. apply leb_trans.
  - apply filter_perm, sorted_perm.
Qed.

(** [find_jpg_images] on a directory with two images among four entries, not listed in
    order. *)
Example find_jpg_images_listing :
  find_jpg_images relative_filesystem "data/devices"
  = inr ["data/devices/shelf_a.jpg"; "data/devices/shelf_b.JPG"]
  /\ find_jpg_images relative_filesystem "data" = inr []
  /\ find_jpg_images locked_filesystem "data/devices" = inl permission_denied.
Proof. repeat split. Qed.

(** The three cases of [find_jpg_images]: a directory that lists two
    images among four entries, a path that is not a directory, and a
    directory that cannot be listed. *)
Lemma find_jpg_images_spec_witness :
  (exists names,
     find_jpg_images relative_filesystem "data/devices"
     = inr (map (join "data/devices") names)
     /\ StronglySorted (fun s t => String.leb s t = true) names
     /\ Permutation names ["shelf_b.JPG"; "shelf_a.jpg"])
  /\ find_jpg_images relative_filesystem "data" = inr []
  /\ find_jpg_images locked_filesystem "data/devices" = inl permission_denied.
Proof.
  split; [|split].
  - destruct (find_jpg_images_spec relative_filesystem "data/devices") as (_ & _ & Hlisted).
    destruct (Hlisted _ eq_refl eq_refl) as (names & Hresult & Hsorted & Hperm).
    exists names. split; [exact Hresult|]. split; [exact Hsorted | exact Hperm].
  - apply (proj1 (find_jpg_images_spec relative_filesystem "data")). reflexivity.
  - destruct (find_jpg_images_spec locked_filesystem "data/devices") as (_ & Hraises & _).
    apply Hraises; reflexivity.
Defined.

(** C10 at a relative directory: the paths returned are the directory
    joined with the names, in order of name, and none is absolute. *)
Example find_jpg_images_relative_dir :
  find_jpg_images relative_filesystem "data/devices"
  = inr ["data/devices/shelf_a.jpg"; "data/devices/shelf_b.JPG"]
  /\ forallb (fun p => negb (isabs p))
       ["data/devices/shelf_a.jpg"; "data/devices/shelf_b.JPG"] = true
  /\ get_devices_dir_normalized "data" = "data/devices".
Proof. repeat split. Qed.

(* ===================================================================== *)
(** ** Further properties                                                 *)
(* ===================================================================== *)

(** A stop request for a slot whose worker is not running (none was ever
    started, or it has finished) changes nothing but the log view, which
    gets the line saying so; in particular no worker object is touched. *)
Theorem stop_request_on_idle_slot (self : MainWindow) :
  (holder_is_running self (active_worker (holders self)) = false ->
   stop_source self = append_log "Source is not running." self)
  /\ (holder_is_running self (shelf_worker (holders self)) = false ->
      stop_shelf_service self = append_log "Shelf service is not running." self)
  /\ (holder_is_running self (display_worker (holders self)) = false ->
      stop_cam_display self = append_log "Cam display is not running." self).
Proof.
  unfold stop_source, stop_shelf_service, stop_cam_display.
  repeat split; intros Hidle;
    match goal with
    | |- match ?holder with _ => _ end = _ => destruct holder; [rewrite Hidle|]; reflexivity
    end.
Qed.

Lemma stop_request_on_idle_slot_witness :
  threads (stop_source blank_window) = threads blank_window
  /\ log_view (stop_source blank_window) = ["Source is not running."].
Proof.
  destruct (stop_request_on_idle_slot blank_window) as (Hsource & _ & _).
  rewrite (Hsource eq_refl). split; reflexivity.
Defined.

(** A polling worker whose stop flag is never set is still polling
    whatever the fuel, and has emitted no [finished]. *)
Lemma still_polling_witness :
  outcome (ImageSourceWorker_run (fun _ => false)
             (mkImageSourceWorker "/app/devices" ["/app/devices/a.jpg"]) 3) = Unfinished
  /\ count_effects is_finished
       (trace (ImageSourceWorker_run (fun _ => false)
                 (mkImageSourceWorker "/app/devices" ["/app/devices/a.jpg"]) 3)) = 0%nat.
Proof.
  exact (unfinished_run_not_finished
           (run_image_source (fun _ => false)
              (mkImageSourceWorker "/app/devices" ["/app/devices/a.jpg"]) 3) eq_refl).
Defined.

(* ===================================================================== *)
(** ** stop() of the tool workers                                         *)
(* ===================================================================== *)

Lemma stop_process_returns (w : ProcessWorld) (timeout : Z) :
  calls_outcome (stop_process w timeout) = Returned tt.
Proof.
  unfold stop_process.
  destruct (process_spawned w), (poll_is_None w), (String.eqb (stop_os_name w) "nt"),
    (send_signal_raises w), (first_wait_raises w), (terminate_raises w),
    (second_wait_raises w), (kill_raises w), (last_kill_raises w); reflexivity.
Qed.

Lemma stop_process_idle (w : ProcessWorld) (timeout : Z) :
  process_spawned w = false \/ poll_is_None w = false ->
  List.filter is_signal (calls_made (stop_process w timeout)) = []
  /\ List.filter is_wait (calls_made (stop_process w timeout)) = [].
Proof.
  unfold stop_process. intros [H | H]; rewrite H.
  - split; reflexivity.
  - destruct (process_spawned w); split; reflexivity.
Qed.

Lemma stop_process_escalates (w : ProcessWorld) (timeout : Z) :
  process_spawned w = true -> poll_is_None w = true ->
  exists rest,
    calls_made (stop_process w timeout) = process_poll :: soft_signal w :: rest
    /\ (length (List.filter is_kill rest) <= 2)%nat
    /\ (0 <= timeout -> 0 <= waited_seconds rest <= 2 * timeout)%Z
    /\ (List.filter is_kill rest <> [] ->
        send_signal_raises w <> None \/ terminate_raises w <> None
        \/ second_wait_raises w <> None)
    /\ (send_signal_raises w = None -> terminate_raises w = None ->
        second_wait_raises w = None -> last rest = Some (wait_timeout timeout)).
Proof.
  intros Hs Hp. unfold stop_process, soft_signal. rewrite Hs, Hp.
  destruct (String.eqb (stop_os_name w) "nt"),
    (send_signal_raises w), (first_wait_raises w), (terminate_raises w),
    (second_wait_raises w), (kill_raises w), (last_kill_raises w);
    eexists; (split; [reflexivity|]); cbn;
    (split; [lia|]); (split; [lia|]); (split; [|congruence]);
    intros; auto; congruence.
Qed.

(** [stop()] of either tool worker returns: whatever the process object
    raises on a signal, a wait or [kill()] is caught inside the method
    ([poll()], which is called outside the [try], is taken not to raise). *)
Theorem tool_stop_never_raises (w : ProcessWorld) :
  calls_outcome (ShelfScanWorker_stop w) = Returned tt
  /\ calls_outcome (CamDisplayWorker_stop w) = Returned tt.
Proof.
  split; [|apply stop_process_returns].
  unfold ShelfScanWorker_stop. pose proof (stop_process_returns w 3) as H.
  destruct (stop_process w 3) as [t o]. cbn in *. now subst.
Qed.

(** [stop()] on a worker with a live process: after the test of the
    process, the first call is the soft signal of the platform
    (CTRL_BREAK_EVENT on Windows, [terminate()] elsewhere).  [kill()] is
    called at most twice (the second time
    when the first [kill()] raised), and only after a signal or the wait before it
    raised (a timeout, for the wait); the waits add up to at most twice
    the timeout (6 s for the scan tool, 4 s for the display tool); and
    when neither a signal nor the last wait raises, the method ends on
    that wait, the process having exited. *)
Theorem tool_stop_escalates (w : ProcessWorld) :
  process_spawned w = true -> poll_is_None w = true ->
  exists rest3 rest2,
    calls_made (ShelfScanWorker_stop w)
      = set_stop_flag :: process_poll :: soft_signal w :: rest3
    /\ calls_made (CamDisplayWorker_stop w) = process_poll :: soft_signal w :: rest2
    /\ (length (List.filter is_kill rest3) <= 2)%nat
    /\ (length (List.filter is_kill rest2) <= 2)%nat
    /\ (0 <= waited_seconds rest3 <= 6)%Z
    /\ (0 <= waited_seconds rest2 <= 4)%Z
    /\ (List.filter is_kill rest3 <> [] \/ List.filter is_kill rest2 <> [] ->
        send_signal_raises w <> None \/ terminate_raises w <> None
        \/ second_wait_raises w <> None)
    /\ (send_signal_raises w = None -> terminate_raises w = None ->
        second_wait_raises w = None ->
        last rest3 = Some (wait_timeout 3) /\ last rest2 = Some (wait_timeout 2)).
Proof.
  intros Hs Hp.
  destruct (stop_process_escalates w 3 Hs Hp) as (rest3 & E3 & K3 & W3 & F3 & L3).
  destruct (stop_process_escalates w 2 Hs Hp) as (rest2 & E2 & K2 & W2 & F2 & L2).
  exists rest3, rest2. repeat split; try assumption; try lia.
  - unfold ShelfScanWorker_stop. destruct (stop_process w 3) as [t o].
    cbn in *. now subst.
  - intros [H | H]; auto.
  - now apply L3.
  - now apply L2.
Qed.

(** A POSIX process that ignores SIGTERM: the wait times out. *)
Lemma tool_stop_escalates_witness :
  exists rest3 rest2,
    calls_made (ShelfScanWorker_stop stubborn_process)
      = set_stop_flag :: process_poll :: process_terminate :: rest3
    /\ calls_made (CamDisplayWorker_stop stubborn_process)
       = process_poll :: process_terminate :: rest2
    /\ (length (List.filter is_kill rest3) <= 2)%nat
    /\ (length (List.filter is_kill rest2) <= 2)%nat
    /\ (0 <= waited_seconds rest3 <= 6)%Z
    /\ (0 <= waited_seconds rest2 <= 4)%Z.
Proof.
  destruct (tool_stop_escalates stubborn_process eq_refl eq_refl)
    as (rest3 & rest2 & E3 & E2 & K3 & K2 & W3 & W2 & _).
  exists rest3, rest2. repeat split; assumption || apply W3 || apply W2.
Defined.

(** [stop()] on a worker without a live process ([run()] has not reached
    [Popen], or the process has exited) sends no signal and waits for
    nothing; the scan-tool worker still sets its stop flag first. *)
Theorem tool_stop_without_live_process (w : ProcessWorld) :
  process_spawned w = false \/ poll_is_None w = false ->
  (exists rest, calls_made (ShelfScanWorker_stop w) = set_stop_flag :: rest)
  /\ List.filter is_signal (calls_made (ShelfScanWorker_stop w)) = []
  /\ List.filter is_wait (calls_made (ShelfScanWorker_stop w)) = []
  /\ List.filter is_signal (calls_made (CamDisplayWorker_stop w)) = []
  /\ List.filter is_wait (calls_made (CamDisplayWorker_stop w)) = [].
Proof.
  intros Hidle.
  destruct (stop_process_idle w 3 Hidle) as [S3 W3].
  destruct (stop_process_idle w 2 Hidle) as [S2 W2].
  unfold ShelfScanWorker_stop, CamDisplayWorker_stop.
  destruct (stop_process w 3) as [t o]. cbn in *.
  repeat split; try assumption. now exists t.
Qed.

Lemma tool_stop_without_live_process_witness :
  List.filter is_signal
    (calls_made (ShelfScanWorker_stop
                   (mkProcessWorld true false "nt" None None None None None None))) = []
  /\ List.filter is_wait
       (calls_made (CamDisplayWorker_stop
                      (mkProcessWorld true false "nt" None None None None None None))) = [].
Proof.
  destruct (tool_stop_without_live_process
              (mkProcessWorld true false "nt" None None None None None None)
              (or_intror eq_refl)) as (_ & S3 & _ & _ & W2).
  split; assumption.
Defined.

(* ===================================================================== *)
(** ** What the camera worker deletes                                     *)
(* ===================================================================== *)

Lemma filter_none (p : Effect -> bool) (t : list Effect) :
  forallb (fun ev => negb (p ev)) t = true -> List.filter p t = [].
Proof.
  induction t as [|ev t IH]; simpl; [reflexivity|].
  intros [Hev Ht]%andb_prop. apply negb_true_iff in Hev. rewrite Hev. now apply IH.
Qed.

(** The [try] block of the camera worker: five effects that end with the
    clearing and the creation of the device directory, then effects that
    leave the filesystem alone. *)
Lemma CameraServerWorker_body_prepares (w : CameraWorld) (self : CameraServerWorker)
  (fuel : nat) :
  exists after,
    trace (CameraServerWorker_run_body w self fuel)
    = ([log_emit "Background Camera Server System";
        running_changed_emit true;
        log_emit ("Preparing directory: " ++ root_devices_dir self);
        shutil_rmtree (root_devices_dir self);
        os_makedirs (root_devices_dir self)] ++ after)%list
    /\ forallb (fun ev => negb (touches_filesystem ev)) after = true.
Proof.
  unfold CameraServerWorker_run_body. do 4 rewrite perform_bind. cbn [trace fst].
  destruct (makedirs_raises w (root_devices_dir self)) as [e|].
  - exists []. split; reflexivity.
  - rewrite call_ok, perform_bind. cbn [trace fst].
    eexists. split; [reflexivity|].
    match goal with
    | |- forallb ?p (trace ?m) = true => change (all_effects p m)
    end.
    unfold start_services, stop_services, join_services.
    effects. apply build_services_effects. reflexivity.
Qed.

(** Whatever the directory text and the selection it is constructed with,
    whatever the world does and however far the run gets, a run of the
    camera worker touches the filesystem twice: it clears one directory
    and creates it again, as its first actions after announcing them.
    The last segment of that directory is "devices" up to case: the
    directory the user named is never itself deleted unless it is a
    devices folder. *)
Theorem camera_worker_clears_only_devices_dir (w : CameraWorld) (dir : string)
  (ids : list Z) (fuel : nat) :
  let self := CameraServerWorker_init dir ids in
  lower (posixpath.basename (root_devices_dir self)) = "devices"
  /\ List.filter touches_filesystem (trace (CameraServerWorker_run w self fuel))
     = [shutil_rmtree (root_devices_dir self); os_makedirs (root_devices_dir self)]
  /\ exists after,
       trace (CameraServerWorker_run w self fuel)
       = ([log_emit "Background Camera Server System";
           running_changed_emit true;
           log_emit ("Preparing directory: " ++ root_devices_dir self);
           shutil_rmtree (root_devices_dir self);
           os_makedirs (root_devices_dir self)] ++ after)%list.
Proof.
  intros self. split; [apply normalize_last_segment|].
  pose proof (run_of_frame (run_camera_server w self fuel)) as Hrun.
  cbn [run_of body_of] in Hrun. rewrite Hrun. cbn [trace fst]. clear Hrun.
  destruct (CameraServerWorker_body_prepares w self fuel) as (after & -> & Hafter).
  split.
  - rewrite !List.filter_app. cbn [List.filter touches_filesystem app].
    rewrite (filter_none _ _ Hafter).
    now destruct (outcome (CameraServerWorker_run_body w self fuel)) as [[]|e|].
  - eexists. rewrite <- app_assoc. reflexivity.
Qed.

(* ===================================================================== *)
(** ** The frame files of the capture services                            *)
(* ===================================================================== *)

Lemma uint_of_string_zeros (k : nat) (s : string) (u : Decimal.uint) :
  NilEmpty.uint_of_string s = Some u ->
  NilEmpty.uint_of_string (zeros k ++ s) = Some (Nat.iter k Decimal.D0 u).
Proof.
  intros H. induction k as [|k IH]; cbn [zeros Nat.iter]; str_simpl; [assumption|].
  cbn [NilEmpty.uint_of_string]. now rewrite IH.
Qed.

Lemma of_uint_zeros (k : nat) (u : Decimal.uint) :
  Z.of_uint (Nat.iter k Decimal.D0 u) = Z.of_uint u.
Proof. induction k as [|k IH]; [reflexivity|]. exact IH. Qed.

Lemma zeros_succ_append (k : nat) (s : string) :
  zeros (S k) ++ s = String "0" (zeros k ++ s).
Proof. cbn [zeros]. now rewrite append_cons. Qed.

(** Padding a string of digits with zeros does not change what it reads
    as. *)
Lemma int_of_numeral_zeros (k : nat) (s : string) (u : Decimal.uint) :
  s <> "" -> NilEmpty.uint_of_string s = Some u ->
  int_of_numeral (zeros k ++ s) = Some (Z.of_uint u)
  /\ int_of_numeral (String "-" (zeros k ++ s)) = Some (- Z.of_uint u)%Z.
Proof.
  intros Hne Hs. pose proof (uint_of_string_zeros k s u Hs) as Hz.
  assert (Hnz : NilZero.uint_of_string (zeros k ++ s) = Some (Nat.iter k Decimal.D0 u)).
  { unfold NilZero.uint_of_string. destruct (zeros k ++ s) eqn:E; [|assumption].
    apply append_eq_nil in E as [_ E]. contradiction. }
  unfold int_of_numeral. split.
  - destruct k as [|k].
    + cbn [zeros Nat.iter] in *. rewrite append_nil_l in *.
      unfold NilZero.int_of_string. destruct s as [|a s]; [contradiction|].
      destruct (Ascii.eqb_spec a "-") as [->|_].
      * cbn in Hs. destruct (NilEmpty.uint_of_string s); discriminate.
      * now rewrite Hnz.
    + rewrite zeros_succ_append in *. unfold NilZero.int_of_string.
      change (Ascii.eqb "0" "-") with false. cbv iota. rewrite Hnz.
      cbn [option_map Z.of_int]. now rewrite of_uint_zeros.
  - unfold NilZero.int_of_string. rewrite Ascii.eqb_refl, Hnz.
    cbn [option_map Z.of_int]. now rewrite of_uint_zeros.
Qed.

Lemma string_of_uint_digits (u : Decimal.uint) :
  u <> Decimal.Nil ->
  exists c rest,
    NilEmpty.string_of_uint u = String c rest
    /\ Ascii.eqb c "+" = false /\ Ascii.eqb c "-" = false.
Proof. destruct u; [contradiction|..]; intros _; eexists; eexists; repeat split. Qed.

Lemma zfill_unsigned (c : ascii) (rest : string) (width : nat) :
  Ascii.eqb c "+" = false -> Ascii.eqb c "-" = false ->
  zfill (String c rest) width
  = zeros (width - String.length (String c rest)) ++ String c rest.
Proof.
  intros Hplus Hminus. unfold zfill.
  destruct (Nat.leb_spec width (String.length (String c rest))) as [Hle|Hlt].
  - replace (width - _)%nat with 0%nat by lia. now rewrite append_nil_l.
  - now rewrite Hplus, Hminus.
Qed.

Lemma zfill_minus (rest : string) (width : nat) :
  zfill (String "-" rest) width
  = String "-" (zeros (width - String.length (String "-" rest)) ++ rest).
Proof.
  unfold zfill.
  destruct (Nat.leb_spec width (String.length (String "-" rest))) as [Hle|Hlt].
  - replace (width - _)%nat with 0%nat by lia. now rewrite append_nil_l.
  - reflexivity.
Qed.

(** [str(n).zfill(width)] reads back as [n], whatever the width. *)
Lemma zfill_str_round_trip (n : Z) (width : nat) :
  int_of_numeral (zfill (str_of_int n) width) = Some n.
Proof.
  assert (Hpos : forall u, u <> Decimal.Nil ->
            int_of_numeral (zfill (NilEmpty.string_of_uint u) width) = Some (Z.of_uint u)).
  { intros u Hu. destruct (string_of_uint_digits u Hu) as (c & rest & E & Hplus & Hminus).
    assert (Hne : NilEmpty.string_of_uint u <> "") by (rewrite E; discriminate).
    pose proof (NilEmpty.usu u) as Hus.
    rewrite E, zfill_unsigned, <- E by assumption.
    apply (int_of_numeral_zeros _ _ u Hne Hus). }
  assert (Hneg : forall u, u <> Decimal.Nil ->
            int_of_numeral (zfill (String "-" (NilEmpty.string_of_uint u)) width)
            = Some (- Z.of_uint u)%Z).
  { intros u Hu. destruct (string_of_uint_digits u Hu) as (c & rest & E & _).
    assert (Hne : NilEmpty.string_of_uint u <> "") by (rewrite E; discriminate).
    pose proof (NilEmpty.usu u) as Hus.
    rewrite zfill_minus.
    apply (int_of_numeral_zeros _ _ u Hne Hus). }
  unfold str_of_int. rewrite <- (DecimalZ.of_to n) at 2.
  destruct n as [|p|p]; cbn [Z.to_int NilZero.string_of_int].
  - apply (Hpos (Decimal.D0 Decimal.Nil)). discriminate.
  - pose proof (DecimalPos.Unsigned.to_uint_nonnil p) as Hp.
    unfold NilZero.string_of_uint.
    destruct (Pos.to_uint p) eqn:E; try contradiction; rewrite <- E; apply Hpos; now rewrite E.
  - pose proof (DecimalPos.Unsigned.to_uint_nonnil p) as Hp.
    unfold NilZero.string_of_uint.
    destruct (Pos.to_uint p) eqn:E; try contradiction; rewrite <- E;
      cbn [Z.of_int]; apply Hneg; now rewrite E.
Qed.

Lemma append_inj_l (a b c : string) : a ++ b = a ++ c -> b = c.
Proof.
  induction a as [|x a IH]; [now rewrite !append_nil_l|].
  rewrite !append_cons. intros [= H]. now apply IH.
Qed.

Lemma append_length (a b : string) :
  String.length (a ++ b) = (String.length a + String.length b)%nat.
Proof. induction a as [|x a IH]; [now rewrite append_nil_l|]. rewrite append_cons. cbn. now rewrite IH. Qed.

Lemma append_inj_r (a b c : string) : a ++ c = b ++ c -> a = b.
Proof.
  revert b. induction a as [|x a IH]; intros [|y b]; rewrite ?append_cons, ?append_nil_l.
  - reflexivity.
  - intros H. apply (f_equal String.length) in H. cbn in H. rewrite append_length in H. lia.
  - intros H. apply (f_equal String.length) in H. cbn in H. rewrite append_length in H. lia.
  - intros [= -> H]. f_equal. now apply IH.
Qed.

Lemma join_inj_r (root a b : string) :
  startswith a "/" = false -> startswith b "/" = false ->
  join root a = join root b -> a = b.
Proof.
  intros Ha Hb. unfold join. rewrite Ha, Hb.
  destruct (String.eqb root "" || endswith root "/").
  - apply append_inj_l.
  - intros H%append_inj_l. now injection H.
Qed.

Lemma zeros_length (k : nat) : String.length (zeros k) = k.
Proof. induction k as [|k IH]; [reflexivity|]. cbn. now rewrite IH. Qed.

Lemma zfill_length (s : string) (width : nat) :
  (width <= String.length (zfill s width))%nat.
Proof.
  unfold zfill. destruct (Nat.leb_spec width (String.length s)) as [Hle|Hlt]; [assumption|].
  destruct s as [|c rest].
  - rewrite zeros_length. cbn. lia.
  - destruct (Ascii.eqb c "+" || Ascii.eqb c "-"); cbn [String.length];
      rewrite ?append_length, zeros_length; cbn [String.length]; lia.
Qed.

(** The camera string a capture service is constructed with ([str(i)]
    padded with zeros to three characters, after the sign) reads back as
    the camera index [i] the service gets as second argument: a service
    is never given the name of another camera. *)
Theorem camera_str_round_trip (root : string) (camera_id : Z) :
  int_of_numeral (svc_camera_str (new_service root camera_id))
  = Some (svc_camera_index (new_service root camera_id))
  /\ svc_camera_index (new_service root camera_id) = camera_id
  /\ (3 <= String.length (svc_camera_str (new_service root camera_id)))%nat.
Proof.
  split; [apply zfill_str_round_trip|]. split; [reflexivity | apply zfill_length].
Qed.

(** The frame file of a capture service names its camera: it is
    [<root>/camera_<s>_frame.jpg] for a numeral [s] that reads back as the
    camera index.  So the services of two distinct camera indices never
    write to the same frame file. *)
Theorem camera_frame_files_are_distinct (root : string) (a b : Z) :
  a <> b ->
  svc_latest_frame_file (new_service root a) <> svc_latest_frame_file (new_service root b).
Proof.
  intros Hab Hfile. apply Hab. unfold new_service in Hfile. cbn [svc_latest_frame_file] in Hfile.
  apply join_inj_r in Hfile; [| reflexivity | reflexivity].
  apply (append_inj_l "camera_") in Hfile. apply append_inj_r in Hfile.
  pose proof (zfill_str_round_trip a 3) as Ha. rewrite Hfile, zfill_str_round_trip in Ha.
  congruence.
Qed.

Lemma camera_frame_files_are_distinct_witness :
  svc_latest_frame_file (new_service "/app/devices" 1)
  <> svc_latest_frame_file (new_service "/app/devices" 10).
Proof. apply camera_frame_files_are_distinct. discriminate. Defined.

(* ===================================================================== *)
(** ** The selection of the window and its caches                         *)
(* ===================================================================== *)

Lemma join_not_nil (a b : string) : b <> "" -> join a b <> "".
Proof.
  intros Hb. unfold join. destruct (startswith b "/"); [assumption|].
  destruct (String.eqb a "" || endswith a "/").
  - intros [_ H]%append_eq_nil. contradiction.
  - intros [_ H]%append_eq_nil. now apply append_eq_nil in H as [H _].
Qed.

Lemma is_jpg_name_not_nil (name : string) : is_jpg_name name = true -> name <> "".
Proof. intros H ->. discriminate. Qed.

Lemma collect_jpg_not_nil (devices_dir : string) (names : list string) :
  Forall (fun p => p <> "") (collect_jpg devices_dir names).
Proof.
  induction names as [|name names IH]; cbn [collect_jpg]; [constructor|].
  destruct (is_jpg_name name) eqn:Hjpg; [|assumption].
  constructor; [|assumption]. now apply join_not_nil, is_jpg_name_not_nil.
Qed.

Lemma find_jpg_images_not_nil (fs : FileSystem) (devices_dir : string) (images : list string) :
  find_jpg_images fs devices_dir = inr images -> Forall (fun p => p <> "") images.
Proof.
  unfold find_jpg_images. destruct (negb _); [intros [= <-]; constructor|].
  destruct (listdir fs devices_dir); [discriminate|].
  intros [= <-]. apply collect_jpg_not_nil.
Qed.

(** Every entry of the dictionary maps the base name of an image to that
    image. *)
Lemma dict_of_images_lookup (images : list string) (name path : string) :
  dict_of_images images !! name = Some path ->
  In path images /\ basename path = name.
Proof.
  unfold dict_of_images.
  assert (H : forall m : gmap string string,
             foldl (fun m p => <[basename p := p]> m) m images !! name = Some path ->
             m !! name = Some path \/ (In path images /\ basename path = name)).
  { induction images as [|p images IH]; intros m Hm; cbn [foldl] in Hm; [now left|].
    apply IH in Hm as [Hm | [Hin Hb]].
    - destruct (decide (basename p = name)) as [E | E].
      + rewrite E, lookup_insert_eq in Hm. injection Hm as ->. right. split; [now left | exact E].
      + rewrite lookup_insert_ne in Hm by assumption. now left.
    - right. split; [now right | exact Hb]. }
  intros Hm. apply H in Hm as [Hm | Hm]; [|exact Hm].
  rewrite lookup_empty in Hm. discriminate.
Qed.

Lemma restore_selection_in (all_item : ItemData) (rest : list ItemData) (current : ItemData) :
  In (restore_selection all_item (all_item :: rest) current) (all_item :: rest).
Proof.
  unfold restore_selection.
  repeat match goal with |- context [bool_decide ?P] => destruct (bool_decide_reflect P) end;
    try (now left).
  right. cbn [tail] in *. now apply list_elem_of_In.
Qed.

Lemma selection_consistent_same (self self' : MainWindow) :
  source_combo (inputs self') = source_combo (inputs self) ->
  item_combo_items (inputs self') = item_combo_items (inputs self) ->
  item_combo (inputs self') = item_combo (inputs self) ->
  caches self' = caches self ->
  selection_consistent self -> selection_consistent self'.
Proof. unfold selection_consistent. now intros -> -> -> ->. Qed.

(** A rescan leaves the item combo box and the caches consistent. *)
Lemma rescan_items_consistent fs cams initial self t self' :
  rescan_items fs cams initial self = (t, Returned self') ->
  selection_consistent self'.
Proof.
  unfold rescan_items. intros H.
  destruct (source_combo (inputs self)) eqn:Hsrc.
  - destruct (find_jpg_images fs (get_devices_dir_normalized (path_edit (inputs self))))
      as [e|images] eqn:Hfind; [discriminate|].
    set (items := ALL_IMG :: map image_item (sorted (map fst (map_to_list (dict_of_images images))))) in *.
    assert (Hitems : Forall (image_entry (mkCaches (detected_cameras (caches self)) images
                                            (dict_of_images images))) items).
    { constructor; [now left|]. apply List.Forall_forall. intros d Hd.
      apply in_map_iff in Hd as (name & <- & Hname).
      apply (Permutation_in _ (sorted_perm _)) in Hname.
      apply in_map_iff in Hname as ([name' path] & <- & Hin).
      apply list_elem_of_In, elem_of_map_to_list in Hin. cbn [fst].
      right. exists name', path. repeat split; [exact Hin|].
      apply dict_of_images_lookup in Hin as [Hin _].
      pose proof (find_jpg_images_not_nil fs _ images Hfind) as Hne.
      rewrite List.Forall_forall in Hne. now apply Hne. }
    assert (Hsel : image_entry (mkCaches (detected_cameras (caches self)) images
                                  (dict_of_images images))
                     (restore_selection ALL_IMG items (item_combo (inputs self)))).
    { rewrite List.Forall_forall in Hitems. apply Hitems, restore_selection_in. }
    repeat match type of H with
      | context [if ?b then _ else _] => destruct b
      end; inversion H; subst; unfold selection_consistent; cbn; rewrite ?Hsrc; split; assumption.
  - set (items := ALL_CAM :: map camera_item cams) in *.
    assert (Hitems : Forall camera_entry items).
    { constructor; [now left|]. apply List.Forall_forall. intros d Hd.
      apply in_map_iff in Hd as (idx & <- & _). right. now exists idx. }
    assert (Hsel : camera_entry (restore_selection ALL_CAM items (item_combo (inputs self)))).
    { rewrite List.Forall_forall in Hitems. apply Hitems, restore_selection_in. }
    repeat match type of H with
      | context [if ?b then _ else _] => destruct b
      end; inversion H; subst; unfold selection_consistent; cbn; rewrite ?Hsrc; split; assumption.
Qed.

(** The start requests leave the inputs and the caches as they are. *)
Lemma request_inputs (h : Host) (q : StartRequest) (self self' : MainWindow) t :
  request h q self = (t, Returned self') ->
  inputs self' = inputs self /\ caches self' = caches self.
Proof.
  intros Hreq.
  destruct q; cbn [request] in Hreq;
    unfold start_source, run_shelf_setup, start_shelf_service, start_cam_display in Hreq;
    cbv beta iota zeta delta [wire_source_worker new_thread new_shelf_worker
                               QThread_start_method int_of_item call] in Hreq;
    repeat match type of Hreq with
      | context [match ?x with _ => _ end] => destruct x eqn:?
      end; rewrite ?bind_raised in Hreq; try discriminate;
    inversion Hreq; subst; split; reflexivity.
Qed.

Lemma stop_inputs (self : MainWindow) (holder : option nat) (line idle : string) :
  let self' :=
    match holder with
    | Some i =>
        if holder_is_running self (Some i) then
          set_threads (alter set_stop_requested i (threads (append_log line self)))
            (append_log line self)
        else append_log idle self
    | None => append_log idle self
    end in
  inputs self' = inputs self /\ caches self' = caches self.
Proof.
  destruct holder as [i|]; [destruct (holder_is_running self (Some i))|]; split; reflexivity.
Qed.

Lemma handle_consistent (h : Host) (ev : Event) (self self' : MainWindow) t :
  selection_consistent self ->
  handle h ev self = (t, Returned self') ->
  selection_consistent self'.
Proof.
  intros Hsc Hev.
  assert (Hsame : forall self'', inputs self'' = inputs self -> caches self'' = caches self ->
                    selection_consistent self'').
  { intros self'' Hi Hc. apply (selection_consistent_same self); now rewrite ?Hi. }
  destruct ev; cbn [handle] in Hev.
  - apply (request_inputs h request_start_source) in Hev as [Hi Hc]. now apply Hsame.
  - inversion Hev; subst. apply Hsame; apply stop_inputs.
  - apply (request_inputs h request_run_shelf_setup) in Hev as [Hi Hc]. now apply Hsame.
  - apply (request_inputs h request_start_shelf_service) in Hev as [Hi Hc]. now apply Hsame.
  - inversion Hev; subst. apply Hsame; apply stop_inputs.
  - apply (request_inputs h request_start_cam_display) in Hev as [Hi Hc]. now apply Hsame.
  - inversion Hev; subst. apply Hsame; apply stop_inputs.
  - now apply rescan_items_consistent in Hev.
  - now apply rescan_items_consistent in Hev.
  - destruct (item_combo_items (inputs self) !! index) as [data|] eqn:Hdata;
      inversion Hev; subst; [|assumption].
    apply list_elem_of_lookup_2, list_elem_of_In in Hdata.
    unfold selection_consistent in *. cbn.
    destruct (source_combo (inputs self)); destruct Hsc as [_ Hall]; split; try assumption;
      rewrite List.Forall_forall in Hall; now apply Hall.
  - inversion Hev; subst. now apply (selection_consistent_same self).
  - destruct (String.eqb path ""); [inversion Hev; subst; assumption|].
    now apply rescan_items_consistent in Hev.
  - inversion Hev; subst. now apply (selection_consistent_same self).
  - inversion Hev; subst. now apply Hsame.
  - destruct (threads self !! thread) as [q|]; inversion Hev; subst; [|assumption].
    apply Hsame; now destruct (finished_slot q).
Qed.

Lemma reachable_consistent (h : Host) (self : MainWindow) :
  reachable h self -> selection_consistent self.
Proof.
  induction 1 as [fs home cams t self Hinit | ev self t self' _ IH Hev].
  - unfold MainWindow_init in Hinit.
    destruct (rescan_items fs cams false _) as [t1 [self1| |]] eqn:H1; try discriminate.
    rewrite bind_returned in Hinit.
    destruct (rescan_items fs cams true self1) as [t2 [self2| |]] eqn:H2; try discriminate.
    cbn [trace outcome fst snd] in Hinit. inversion Hinit; subst.
    now apply rescan_items_consistent in H2.
  - exact (handle_consistent h ev self self' t IH Hev).
Qed.

(** A click on Start in a window that can arise never raises and never
    answers "Selected image not found.": the entry that is current in the
    item combo box is always "all", or names an image of the cache (in
    image mode) or a camera index (in camera mode), so that [int(sel)] of
    line 597 gets an int and the lookup of line 577 a path. *)
Theorem start_source_never_faults (h : Host) (self : MainWindow) :
  reachable h self ->
  exists t self',
    start_source h self = (t, Returned self')
    /\ List.filter is_selection_warning t = [].
Proof.
  intros Hsc%reachable_consistent. unfold selection_consistent in Hsc.
  unfold start_source.
  destruct (holder_is_running self (active_worker (holders self))).
  { eexists; eexists; split; reflexivity. }
  cbv beta iota zeta delta [wire_source_worker new_thread QThread_start_method int_of_item].
  destruct (source_combo (inputs self)); destruct Hsc as [Hsel _].
  - destruct Hsel as [-> | (name & path & -> & Hpath & Hne)].
    + cbn [bool_decide decide_rel]. rewrite bool_decide_eq_true_2 by reflexivity.
      destruct (bool_decide _); eexists; eexists; split; reflexivity.
    + rewrite bool_decide_eq_false_2 by discriminate. cbn [str_of_item]. rewrite Hpath.
      apply String.eqb_neq in Hne. rewrite Hne.
      eexists; eexists; split; reflexivity.
  - destruct Hsel as [-> | (idx & ->)].
    + rewrite bool_decide_eq_true_2 by reflexivity.
      destruct (bool_decide _); eexists; eexists; split; reflexivity.
    + rewrite bool_decide_eq_false_2 by discriminate.
      eexists; eexists; split; reflexivity.
Qed.

Lemma reachable_window_selected : reachable example_host window_selected.
Proof.
  eapply reachable_step with (ev := ev_item_selected 1).
  - eapply reachable_step
      with (ev := ev_source_changed src_cameras bare_filesystem [3%Z]).
    + eapply (reachable_init example_host bare_filesystem "/home/user" [3%Z]).
      vm_compute. reflexivity.
    + vm_compute. reflexivity.
  - vm_compute. reflexivity.
Defined.

(** Start with camera 3 selected, on a host whose [int] rejects every
    string. *)
Lemma start_source_never_faults_witness :
  exists t self',
    start_source example_host window_selected = (t, Returned self')
    /\ List.filter is_selection_warning t = [].
Proof.
  exact (start_source_never_faults example_host window_selected reachable_window_selected).
Defined.

(** *** A rescan and the selected image *)







(* ===================================================================== *)
(** ** The process of a tool worker                                       *)
(* ===================================================================== *)




(** A run whose [Popen] raised: the announcement, the call, the line of
    the [except] block, [finished]. *)
Lemma tool_run_launch_failed (w : ToolWorld) (t : ToolWorker) (e : PyException) :
  isfile w (tool_path t) = true ->
  Popen_result w (tool_cmd t) = inl e ->
  tool_run w t =
    ((tool_before_spawn t
      ++ [subprocess_Popen (tool_cmd t) (tool_cwd t) (creationflags_for (os_name w))
            unbuffered_env;
          log_emit (tool_error_line t e);
          finished_emit])%list,
     Returned tt).
Proof.
  intros Hfile Hpopen.
  destruct t as [self | self]; cbn [tool_run tool_path tool_cmd] in *.
  - unfold ShelfScanWorker_run, ShelfScanWorker_frame, ShelfScanWorker_run_body.
    rewrite Hfile. cbn [negb]. fold (scan_cmd self). unfold Popen. rewrite Hpopen.
    reflexivity.
  - unfold CamDisplayWorker_run, CamDisplayWorker_frame, CamDisplayWorker_run_body.
    fold (display_path self). rewrite Hfile. cbn [negb]. fold (display_cmd self).
    unfold Popen. rewrite Hpopen. reflexivity.
Qed.





(** When the tool file exists and [Popen] raises (the interpreter cannot
    be launched), the run of either tool worker is: the announcement, the
    [Popen] call, one log line with the error, [finished].  Nothing is
    read and nothing is waited for. *)
Theorem tool_launch_failure_is_reported (w : ToolWorld) (t : ToolWorker) (e : PyException) :
  isfile w (tool_path t) = true ->
  Popen_result w (tool_cmd t) = inl e ->
  tool_run w t =
    ((tool_before_spawn t
      ++ [subprocess_Popen (tool_cmd t) (tool_cwd t) (creationflags_for (os_name w))
            unbuffered_env;
          log_emit (tool_error_line t e);
          finished_emit])%list,
     Returned tt).
Proof. apply tool_run_launch_failed. Qed.

Lemma tool_launch_failure_is_reported_witness :
  tool_run world_popen_raises
    (tool_display (CamDisplayWorker_init "python" "/proj" "/app/product_visual" "Shelf" None))
  = ([log_emit ("Executing cam display: python -u /proj/cam_display/display_camera.py "
                ++ "--root-dir /app/product_visual --title Shelf");
      subprocess_Popen ["python"; "-u"; "/proj/cam_display/display_camera.py";
                        "--root-dir"; "/app/product_visual"; "--title"; "Shelf"] "/proj"
        0 [("PYTHONUNBUFFERED", "1"); ("PYTHONIOENCODING", "utf-8")];
      log_emit "Error running cam_display: [Errno 8] Exec format error";
      finished_emit],
     Returned tt).
Proof.
  exact (tool_launch_failure_is_reported world_popen_raises
           (tool_display (CamDisplayWorker_init "python" "/proj" "/app/product_visual"
                            "Shelf" None))
           launch_failed eq_refl eq_refl).
Defined.

(** The display-tool worker has no stop flag: once its process is spawned
    it forwards every line the process prints, in order and without the
    trailing white space, until end of file, whenever [stop()] is called;
    then it waits for the process and reports the exit code.  This is
    when every line can be read.  When a [readline()] raises, the lines
    before it have been forwarded, the error is logged, and the process
    is not waited for. *)
Theorem display_worker_forwards_every_line (w : ToolWorld) (self : CamDisplayWorker)
  (pid : Z) :
  isfile w (display_path self) = true ->
  Popen_result w (display_cmd self) = inr pid ->
  Forall (fun line => line <> "") (child_lines w) ->
  (first_read_fault w (S (length (child_lines w))) 0 = None ->
   CamDisplayWorker_run w self =
     ((tool_before_spawn (tool_display self)
       ++ [subprocess_Popen (display_cmd self) (display_project_root self)
             (creationflags_for (os_name w)) unbuffered_env;
           log_emit (tool_started_line (tool_display self) pid)]
       ++ forward_trace (child_lines w)
       ++ [stdout_readline "";
           process_wait (wait_rc w);
           log_emit (tool_exit_line (tool_display self) (wait_rc w));
           finished_emit])%list,
      Returned tt))
  /\ (forall j e,
        first_read_fault w (S (length (child_lines w))) 0 = Some (j, e) ->
        CamDisplayWorker_run w self =
          ((tool_before_spawn (tool_display self)
            ++ [subprocess_Popen (display_cmd self) (display_project_root self)
                  (creationflags_for (os_name w)) unbuffered_env;
                log_emit (tool_started_line (tool_display self) pid)]
            ++ forward_trace (take j (child_lines w))
            ++ [stdout_readline_raises e;
                log_emit (tool_error_line (tool_display self) e);
                finished_emit])%list,
           Returned tt)).
Proof.
  intros Hfile Hpopen Hlines.
  pose proof (tool_run_spawned_reads w (tool_display self) pid Hfile Hpopen Hlines) as Hrun.
  cbn [tool_run tool_cmd tool_cwd] in Hrun. rewrite Hrun. unfold after_spawn.
  cbn [tool_forwarded]. split.
  - intros ->. now rewrite firstn_all, nth_overflow by lia.
  - intros j e ->. reflexivity.
Qed.

Lemma display_worker_forwards_every_line_witness :
  CamDisplayWorker_run world_stopped_early
    (CamDisplayWorker_init "python" "/proj" "/app/product_visual" "Shelf" None)
  = ([log_emit ("Executing cam display: python -u /proj/cam_display/display_camera.py "
                ++ "--root-dir /app/product_visual --title Shelf");
      subprocess_Popen ["python"; "-u"; "/proj/cam_display/display_camera.py";
                        "--root-dir"; "/app/product_visual"; "--title"; "Shelf"] "/proj"
        512 [("PYTHONUNBUFFERED", "1"); ("PYTHONIOENCODING", "utf-8")];
      log_emit "cam_display started (pid=4242)";
      stdout_readline ("scanning shelf 1 " ++ newline); log_emit "scanning shelf 1";
      stdout_readline ("scanning shelf 2" ++ newline); log_emit "scanning shelf 2";
      stdout_readline "done"; log_emit "done";
      stdout_readline "";
      process_wait 1;
      log_emit "cam_display exited with code 1";
      finished_emit],
     Returned tt)
  /\ CamDisplayWorker_run world_undecodable
       (CamDisplayWorker_init "python" "/proj" "/app/product_visual" "Shelf" None)
     = ([log_emit ("Executing cam display: python -u /proj/cam_display/display_camera.py "
                   ++ "--root-dir /app/product_visual --title Shelf");
         subprocess_Popen ["python"; "-u"; "/proj/cam_display/display_camera.py";
                           "--root-dir"; "/app/product_visual"; "--title"; "Shelf"] "/proj"
           0 [("PYTHONUNBUFFERED", "1"); ("PYTHONIOENCODING", "utf-8")];
         log_emit "cam_display started (pid=4242)";
         stdout_readline ("scanning shelf 1" ++ newline); log_emit "scanning shelf 1";
         stdout_readline_raises undecodable;
         log_emit ("Error running cam_display: "
                   ++ "'utf-8' codec can't decode byte 0xff in position 0: invalid start byte");
         finished_emit],
        Returned tt).
Proof.
  split.
  - apply (display_worker_forwards_every_line world_stopped_early
             (CamDisplayWorker_init "python" "/proj" "/app/product_visual" "Shelf" None) 4242).
    + reflexivity.
    + reflexivity.
    + repeat constructor; discriminate.
    + reflexivity.
  - apply (proj2 (display_worker_forwards_every_line world_undecodable
                    (CamDisplayWorker_init "python" "/proj" "/app/product_visual" "Shelf" None)
                    4242 eq_refl eq_refl
                    ltac:(repeat constructor; discriminate)) 1%nat undecodable).
    reflexivity.
Defined.

(* ===================================================================== *)
(** ** The workers the window starts                                      *)
(* ===================================================================== *)

Lemma holders_typed_same_workers (self self' : MainWindow) :
  holders self' = holders self -> threads self' = threads self ->
  holders_typed self -> holders_typed self'.
Proof.
  intros Hh Ht Htyped s i Hs. rewrite Ht.
  apply Htyped. destruct s; cbn [holder_of] in *; now rewrite <- Hh.
Qed.

Lemma holders_typed_alter (f : QThread -> QThread) (k : nat) (self : MainWindow) :
  (forall t, thread_worker (f t) = thread_worker t) ->
  holders_typed self ->
  holders_typed (set_threads (alter f k (threads self)) self).
Proof.
  intros Hw Htyped s i Hs.
  destruct (Htyped s i) as (t & Ht & Hslot); [destruct s; exact Hs|].
  cbn [threads set_threads].
  destruct (decide (k = i)) as [->|Hne].
  - exists (f t). rewrite list_lookup_alter_eq, Ht. split; [reflexivity|]. now rewrite Hw.
  - exists t. now rewrite list_lookup_alter_ne.
Qed.

Lemma holders_typed_launch (self self' : MainWindow) (worker : Worker) (slot : FinishedSlot) :
  holders_typed self ->
  threads self' = alter (set_running true) (length (threads self))
                    (threads self ++ [mkQThread worker slot false false])%list ->
  holder_of (slot_of worker) self' = Some (length (threads self)) ->
  (forall s, s <> slot_of worker -> holder_of s self' = holder_of s self) ->
  holders_typed self'.
Proof.
  intros Htyped Hthreads Hholder Hothers s i Hs. rewrite Hthreads.
  destruct (Slot_eq_dec s (slot_of worker)) as [->|Hdiff].
  - rewrite Hholder in Hs. injection Hs as <-.
    rewrite list_lookup_alter_eq, lookup_app_r, Nat.sub_diag by lia.
    eexists. split; reflexivity.
  - rewrite Hothers in Hs by assumption.
    destruct (Htyped s i Hs) as (t & Ht & Hslot).
    pose proof (lookup_lt_Some _ _ _ Ht) as Hlt.
    exists t. rewrite list_lookup_alter_ne by lia.
    now rewrite lookup_app_l.
Qed.

Ltac launched_typed Htyped :=
  eapply holders_typed_launch;
    [ exact Htyped
    | reflexivity
    | reflexivity
    | intros [] Hs; cbn [slot_of] in Hs; (reflexivity || congruence) ].

Lemma request_typed (h : Host) (q : StartRequest) (self self' : MainWindow) t :
  holders_typed self ->
  request h q self = (t, Returned self') ->
  holders_typed self'.
Proof.
  intros Htyped Hreq.
  destruct q; cbn [request] in Hreq;
    unfold start_source, run_shelf_setup, start_shelf_service, start_cam_display in Hreq;
    cbv beta iota zeta delta [wire_source_worker new_thread new_shelf_worker
                               QThread_start_method int_of_item call] in Hreq;
    repeat match type of Hreq with
      | context [match ?x with _ => _ end] => destruct x eqn:?
      end; rewrite ?bind_raised in Hreq; try discriminate;
    try (inversion Hreq; subst; assumption);
    inversion Hreq; subst; launched_typed Htyped.
Qed.

Lemma stop_typed (self : MainWindow) (holder : option nat) (line idle : string) :
  holders_typed self ->
  holders_typed
    match holder with
    | Some i =>
        if holder_is_running self (Some i) then
          set_threads (alter set_stop_requested i (threads (append_log line self)))
            (append_log line self)
        else append_log idle self
    | None => append_log idle self
    end.
Proof.
  intros Htyped. destruct holder as [i|]; [destruct (holder_is_running self (Some i))|].
  - apply holders_typed_alter; [reflexivity|].
    now apply (holders_typed_same_workers self).
  - now apply (holders_typed_same_workers self).
  - now apply (holders_typed_same_workers self).
Qed.

Lemma handle_typed (h : Host) (ev : Event) (self self' : MainWindow) t :
  holders_typed self ->
  handle h ev self = (t, Returned self') ->
  holders_typed self'.
Proof.
  intros Htyped Hev. destruct ev; cbn [handle] in Hev.
  - exact (request_typed h request_start_source self self' t Htyped Hev).
  - inversion Hev; subst. apply stop_typed, Htyped.
  - exact (request_typed h request_run_shelf_setup self self' t Htyped Hev).
  - exact (request_typed h request_start_shelf_service self self' t Htyped Hev).
  - inversion Hev; subst. apply stop_typed, Htyped.
  - exact (request_typed h request_start_cam_display self self' t Htyped Hev).
  - inversion Hev; subst. apply stop_typed, Htyped.
  - apply rescan_items_workers in Hev as [Hh Ht].
    now apply (holders_typed_same_workers self).
  - apply rescan_items_workers in Hev as [Hh Ht].
    now apply (holders_typed_same_workers self).
  - destruct (item_combo_items (inputs self) !! index); inversion Hev; subst;
      [now apply (holders_typed_same_workers self) | assumption].
  - inversion Hev; subst. now apply (holders_typed_same_workers self).
  - destruct (String.eqb path ""); [inversion Hev; subst; assumption|].
    apply rescan_items_workers in Hev as [Hh Ht].
    now apply (holders_typed_same_workers self).
  - inversion Hev; subst. now apply (holders_typed_same_workers self).
  - inversion Hev; subst. now apply holders_typed_alter.
  - destruct (threads self !! thread); inversion Hev; subst; [|assumption].
    destruct (finished_callback_workers (finished_slot q) self) as [Hh Ht].
    now apply (holders_typed_same_workers self).
Qed.

Lemma reachable_holders_typed (h : Host) (self : MainWindow) :
  reachable h self -> holders_typed self.
Proof.
  induction 1 as [fs home cams t self Hinit | ev self t self' _ IH Hev].
  - unfold MainWindow_init in Hinit.
    destruct (rescan_items fs cams false _) as [t1 [self1| |]] eqn:H1; try discriminate.
    rewrite bind_returned in Hinit.
    destruct (rescan_items fs cams true self1) as [t2 [self2| |]] eqn:H2; try discriminate.
    cbn [trace outcome fst snd] in Hinit. inversion Hinit; subst.
    apply rescan_items_workers in H1 as [Hh1 _]. apply rescan_items_workers in H2 as [Hh2 _].
    intros s i Hs. destruct s; cbn [holder_of] in Hs; rewrite Hh2, Hh1 in Hs; discriminate.
  - exact (handle_typed h ev self self' t IH Hev).
Qed.


(** In every window that can arise, a holder that is set refers to a
    worker object of its own kind: [active_worker] to a camera or image
    source worker (which has [request_stop]), [shelf_worker] to a
    [ShelfScanWorker] and [display_worker] to a [CamDisplayWorker] (which
    have [stop]).  The calls [stop_source], [stop_shelf_service],
    [stop_cam_display] and [closeEvent] make on a holder exist on it. *)
Theorem holders_refer_to_their_workers (h : Host) (self : MainWindow) :
  reachable h self ->
  forall s i,
    holder_of s self = Some i ->
    exists t, threads self !! i = Some t /\ slot_of (thread_worker t) = s.
Proof. apply reachable_holders_typed. Qed.

Lemma holders_refer_to_their_workers_witness :
  exists t,
    threads window_started !! 0%nat = Some t
    /\ slot_of (thread_worker t) = slot_source.
Proof.
  exact (holders_refer_to_their_workers example_host window_started reachable_window_started
           slot_source 0%nat eq_refl).
Defined.

(** *** A source worker started from the window has something to do *)

Lemma CameraServerWorker_run_with_selection (world : CameraWorld) (w : CameraServerWorker)
  (fuel : nat) :
  camera_indices w <> [] ->
  all_effects (fun ev => negb (is_no_selection_line ev)) (CameraServerWorker_run world w fuel).
Proof.
  intros Hsel.
  unfold CameraServerWorker_run, CameraServerWorker_frame, CameraServerWorker_run_body,
    CameraServerWorker_handler, source_worker_finally, start_services, stop_services,
    join_services.
  rewrite bool_decide_eq_false_2 by assumption.
  effects. apply build_services_effects. reflexivity.
Qed.

Lemma ImageSourceWorker_run_with_selection (is_set : nat -> bool) (w : ImageSourceWorker)
  (fuel : nat) :
  selected_images w <> [] ->
  all_effects (fun ev => negb (is_no_selection_line ev)) (ImageSourceWorker_run is_set w fuel).
Proof.
  intros Hsel.
  unfold ImageSourceWorker_run, ImageSourceWorker_frame, ImageSourceWorker_run_body,
    ImageSourceWorker_handler, source_worker_finally.
  rewrite bool_decide_eq_false_2 by assumption.
  effects.
Qed.

(** A source worker that [start_source] starts has a selection: the
    camera worker at least one camera index, the image worker at least
    one image path ([start_source] answers an empty "all" selection with a
    warning instead).  So a worker started from the window never logs
    "No cameras selected." or "No images selected.", in any environment. *)
Theorem started_source_has_selection (h : Host) (self self' : MainWindow)
  (t : list Effect) (i : nat) :
  start_source h self = (t, Returned self') ->
  In (QThread_start i) t ->
  active_worker (holders self') = Some i
  /\ exists q,
       threads self' !! i = Some q
       /\ isRunning q = true
       /\ source_runs_with_selection (thread_worker q).
Proof.
  unfold start_source. intros Hstart Hin.
  cbv beta iota zeta delta [wire_source_worker new_thread QThread_start_method int_of_item]
    in Hstart.
  assert (Hlookup : forall q : QThread,
            alter (set_running true) (length (threads self)) (threads self ++ [q])%list
              !! length (threads self) = Some (set_running true q)).
  { intros q. now rewrite list_lookup_alter_eq, lookup_app_r, Nat.sub_diag by lia. }
  repeat match type of Hstart with
    | context [match ?x with _ => _ end] => destruct x eqn:?
    end; try discriminate; inversion Hstart; subst; cbn in Hin;
    repeat match type of Hin with
      | _ \/ _ => destruct Hin as [Hin | Hin]
      | False => contradiction
      | _ = _ => try discriminate; injection Hin as <-
      end;
    (split; [reflexivity|]); eexists; (split; [apply Hlookup|]); (split; [reflexivity|]);
    cbn [thread_worker set_running source_runs_with_selection];
    match goal with
    | |- ?sel <> [] /\ _ =>
        assert (Hsel : sel <> []);
        [ cbn [camera_indices CameraServerWorker_init selected_images];
          first [ discriminate
                | match goal with
                  | H : bool_decide (_ = []) = false |- _ =>
                      apply bool_decide_eq_false in H; exact H
                  end ]
        | split; [exact Hsel | intros] ]
    end;
    [ now apply ImageSourceWorker_run_with_selection
    | now apply ImageSourceWorker_run_with_selection
    | now apply CameraServerWorker_run_with_selection
    | now apply CameraServerWorker_run_with_selection
    | now apply CameraServerWorker_run_with_selection
    | now apply CameraServerWorker_run_with_selection ].
Qed.

(** Start with camera 3 selected. *)
Lemma started_source_has_selection_witness :
  exists q,
    threads (returned_window (start_source example_host window_selected)) !! 0%nat = Some q
    /\ isRunning q = true
    /\ source_runs_with_selection (thread_worker q).
Proof.
  refine (proj2 (started_source_has_selection example_host window_selected
                   (returned_window (start_source example_host window_selected))
                   [QThread_start 0] 0 _ _)).
  - vm_compute. reflexivity.
  - left. reflexivity.
Defined.

(* ===================================================================== *)
(** ** Start-up, and the folder of the display tool                       *)
(* ===================================================================== *)

(** The window as constructed: no worker, the Start buttons enabled and
    the Stop buttons disabled, image mode with "All images" selected, the
    path field at the default device directory, and the image cache
    filled from that directory.  Cameras are not probed ([scan_camera]
    runs in camera mode only).  The one dialog construction can show is
    the "No .jpg images" information, shown once (by the second of the
    two initial scans) exactly when no image was found.  This is when the
    default device directory can be listed or does not exist: when
    [os.listdir] raises on it, the constructor raises, at its first scan
    and before any dialog. *)
Theorem MainWindow_init_state (fs : FileSystem) (home : string) (cams : list Z) :
  (forall e,
     isdir fs (get_devices_dir_normalized (default_root_devices_dir fs home)) = true ->
     listdir fs (get_devices_dir_normalized (default_root_devices_dir fs home)) = inl e ->
     MainWindow_init fs home cams = ([], Raised e))
  /\ (forall images,
        find_jpg_images fs (get_devices_dir_normalized (default_root_devices_dir fs home))
        = inr images ->
        exists self,
          MainWindow_init fs home cams
          = ((if bool_decide (images = [])
              then [QMessageBox_information "Scan"
                      ("No .jpg images in:" ++ newline
                       ++ get_devices_dir_normalized (default_root_devices_dir fs home))]
              else []),
             Returned self)
          /\ holders self = mkHolders None None None
          /\ threads self = []
          /\ buttons self = mkButtons true false true false true false
          /\ path_edit (inputs self) = default_root_devices_dir fs home
          /\ source_combo (inputs self) = src_images
          /\ item_combo (inputs self) = ALL_IMG
          /\ detected_cameras (caches self) = []
          /\ detected_images (caches self) = images).
Proof.
  split.
  { intros e Hdir Hlist. unfold MainWindow_init, rescan_items.
    cbn [inputs source_combo path_edit].
    now rewrite (find_jpg_images_listdir_raises fs _ e Hdir Hlist). }
  intros images Hfind.
  unfold MainWindow_init.
  match goal with
  | |- context [rescan_items fs cams false ?w] =>
      destruct (rescan_items fs cams false w) as [t1 o1] eqn:H1
  end.
  unfold rescan_items in H1.
  cbn [inputs source_combo path_edit item_combo caches detected_cameras display_title_edit
       set_caches set_inputs andb] in H1.
  rewrite Hfind in H1. injection H1 as <- <-. rewrite bind_returned.
  unfold rescan_items.
  assert (Hsame : forall text self, path_edit (inputs (append_log text self))
                                    = path_edit (inputs self)) by reflexivity.
  destruct (bool_decide (images = [])) eqn:Hnone;
    cbn [inputs source_combo path_edit item_combo caches detected_cameras display_title_edit
         set_caches set_inputs append_log];
    rewrite Hfind, Hnone; cbn [andb];
    eexists; (split; [reflexivity|]); repeat split.
Qed.

(** Construction on a machine without the device directory shows the
    dialog; on a machine whose directories cannot be listed it raises. *)
Lemma MainWindow_init_state_witness :
  (exists self,
     MainWindow_init bare_filesystem "/home/user" [3%Z]
     = ([QMessageBox_information "Scan"
           ("No .jpg images in:" ++ newline
            ++ "/home/user/retruxosaproject/app_root/active_state/devices")],
        Returned self)
     /\ threads self = []
     /\ item_combo (inputs self) = ALL_IMG
     /\ detected_cameras (caches self) = [])
  /\ MainWindow_init locked_filesystem "/home/user" [3%Z] = ([], Raised permission_denied).
Proof.
  split.
  - destruct (proj2 (MainWindow_init_state bare_filesystem "/home/user" [3%Z]) [] eq_refl)
      as (self & Hrun & _ & Hthreads & _ & _ & _ & Hitem & Hcams & _).
    exists self. repeat split; assumption.
  - apply (proj1 (MainWindow_init_state locked_filesystem "/home/user" [3%Z]));
      reflexivity.
Defined.

(** *** Open Cam Display *)




Lemma rstrip_sep_no_trailing (a : string) :
  a <> "" -> endswith a "/" = false -> rstrip_sep a = a /\ all_sep a = false.
Proof.
  induction a as [|x a IH]; [contradiction|]. intros _.
  rewrite endswith_sep_cons. cbn [rstrip_sep all_sep].
  destruct (String.eqb_spec a "") as [->|Hne].
  - intros ->. split; reflexivity.
  - intros He. destruct (IH Hne He) as [-> Hall]. rewrite Hall, andb_false_r.
    split; [|reflexivity]. now destruct a.
Qed.







(* ===================================================================== *)
(** ** The image source worker and the buttons                            *)
(* ===================================================================== *)

Lemma for_each_log {A} (xs : list A) (line : A -> string) :
  for_each xs (fun x => perform (log_emit (line x)))
  = (map (fun x => log_emit (line x)) xs, Returned tt).
Proof.
  induction xs as [|x xs IH]; cbn [for_each map]; [reflexivity|].
  now rewrite perform_bind, IH.
Qed.

(** The polling loop sleeps until the first poll that sees the flag set. *)
Lemma wait_for_stop_first (is_set : nat -> bool) (n fuel k : nat) :
  (forall j, (j < n)%nat -> is_set (k + j)%nat = false) ->
  is_set (k + n)%nat = true -> (n < fuel)%nat ->
  wait_for_stop is_set fuel k = (repeat sleep_1 n, Returned tt).
Proof.
  revert fuel k. induction n as [|n IH]; intros fuel k Hbefore Hset Hfuel.
  - destruct fuel as [|fuel]; [lia|]. cbn [wait_for_stop].
    rewrite Nat.add_0_r in Hset. now rewrite Hset.
  - destruct fuel as [|fuel]; [lia|]. cbn [wait_for_stop].
    rewrite <- (Nat.add_0_r k) at 1. rewrite (Hbefore 0%nat) by lia.
    rewrite perform_bind, (IH fuel (S k)); [reflexivity | | | lia].
    + intros j Hj. rewrite Nat.add_succ_comm. apply Hbefore. lia.
    + now rewrite Nat.add_succ_comm.
Qed.

(** The run of the image source worker on a selection of images, when its
    stop flag is first seen set at the [k]-th poll: it announces the
    device directory and the base name of every selected image, in order,
    sleeps [k] times one second, and ends with "Image source stopped.",
    [running_changed(False)] and [finished]. *)
Theorem image_source_run_trace (is_set : nat -> bool) (self : ImageSourceWorker)
  (fuel k : nat) :
  selected_images self <> [] ->
  (forall j, (j < k)%nat -> is_set j = false) ->
  is_set k = true ->
  (k < fuel)%nat ->
  ImageSourceWorker_run is_set self fuel
  = (([running_changed_emit true;
       log_emit "Image Source Mode (no camera capture)";
       log_emit ("Devices folder: " ++ devices_dir self);
       log_emit ("Using " ++ str_of_int (len (selected_images self)) ++ " image(s):")]
      ++ map (fun p => log_emit (" - " ++ basename p)) (selected_images self)
      ++ repeat sleep_1 k
      ++ [log_emit "Image source stopped."; running_changed_emit false; finished_emit])%list,
     Returned tt).
Proof.
  intros Hsel Hbefore Hset Hfuel.
  unfold ImageSourceWorker_run, ImageSourceWorker_frame, ImageSourceWorker_run_body.
  rewrite bool_decide_eq_false_2 by assumption.
  rewrite (for_each_log (selected_images self) (fun p => " - " ++ basename p)).
  rewrite (wait_for_stop_first is_set k fuel 0)
    by (assumption || (intros j Hj; now apply Hbefore)).
  do 3 rewrite perform_bind. cbn [trace outcome fst snd].
  rewrite perform_bind. cbn [trace outcome fst snd].
  rewrite !bind_returned. cbn [trace outcome fst snd perform].
  unfold try_except, try_finally, source_worker_finally. rewrite perform_bind.
  cbn [trace outcome fst snd perform app].
  repeat (rewrite <- app_assoc; cbn [app]). reflexivity.
Qed.

(** Two images, the stop request seen at the third poll. *)
Lemma image_source_run_trace_witness :
  ImageSourceWorker_run (fun n => (2 <=? n)%nat)
    (mkImageSourceWorker "/app/devices" ["/app/devices/a.jpg"; "/app/devices/b.JPG"]) 5
  = ([running_changed_emit true;
      log_emit "Image Source Mode (no camera capture)";
      log_emit "Devices folder: /app/devices";
      log_emit "Using 2 image(s):";
      log_emit " - a.jpg";
      log_emit " - b.JPG";
      sleep_1; sleep_1;
      log_emit "Image source stopped."; running_changed_emit false; finished_emit],
     Returned tt).
Proof.
  apply (image_source_run_trace (fun n => (2 <=? n)%nat)
           (mkImageSourceWorker "/app/devices" ["/app/devices/a.jpg"; "/app/devices/b.JPG"])
           5 2).
  - discriminate.
  - intros j Hj. apply Nat.leb_gt. exact Hj.
  - reflexivity.
  - lia.
Defined.

(** *** The buttons *)

Ltac buttons_step Hb :=
  unfold buttons_follow_workers in *; cbn;
  destruct Hb as (Hb1 & Hb2 & Hb3 & Hb4 & Hb5 & Hb6);
  repeat split; first [assumption | reflexivity | discriminate | idtac].

Lemma request_buttons (h : Host) (q : StartRequest) (self self' : MainWindow) t :
  buttons_follow_workers self ->
  request h q self = (t, Returned self') ->
  buttons_follow_workers self'.
Proof.
  intros Hb Hreq.
  destruct q; cbn [request] in Hreq;
    unfold start_source, run_shelf_setup, start_shelf_service, start_cam_display in Hreq;
    cbv beta iota zeta delta [wire_source_worker new_thread new_shelf_worker
                               QThread_start_method int_of_item call] in Hreq;
    repeat match type of Hreq with
      | context [match ?x with _ => _ end] => destruct x eqn:?
      end; rewrite ?bind_raised in Hreq; try discriminate;
    try (inversion Hreq; subst; assumption);
    inversion Hreq; subst; buttons_step Hb.
Qed.

Lemma stop_buttons (self : MainWindow) (holder : option nat) (line idle : string) :
  buttons_follow_workers self ->
  buttons_follow_workers
    match holder with
    | Some i =>
        if holder_is_running self (Some i) then
          set_threads (alter set_stop_requested i (threads (append_log line self)))
            (append_log line self)
        else append_log idle self
    | None => append_log idle self
    end.
Proof.
  intros Hb. destruct holder as [i|]; [destruct (holder_is_running self (Some i))|];
    exact Hb.
Qed.

Lemma rescan_items_buttons fs cams initial self t self' :
  rescan_items fs cams initial self = (t, Returned self') ->
  buttons self' = buttons self.
Proof.
  unfold rescan_items. intros H.
  repeat match type of H with
    | context [match ?x with _ => _ end] => destruct x
    end; inversion H; subst; reflexivity.
Qed.

Lemma buttons_follow_workers_same (self self' : MainWindow) :
  buttons self' = buttons self -> holders self' = holders self ->
  buttons_follow_workers self -> buttons_follow_workers self'.
Proof. unfold buttons_follow_workers. now intros -> ->. Qed.

Lemma handle_buttons (h : Host) (ev : Event) (self self' : MainWindow) t :
  buttons_follow_workers self ->
  handle h ev self = (t, Returned self') ->
  buttons_follow_workers self'.
Proof.
  intros Hb Hev. destruct ev; cbn [handle] in Hev.
  - exact (request_buttons h request_start_source self self' t Hb Hev).
  - inversion Hev; subst. apply stop_buttons, Hb.
  - exact (request_buttons h request_run_shelf_setup self self' t Hb Hev).
  - exact (request_buttons h request_start_shelf_service self self' t Hb Hev).
  - inversion Hev; subst. apply stop_buttons, Hb.
  - exact (request_buttons h request_start_cam_display self self' t Hb Hev).
  - inversion Hev; subst. apply stop_buttons, Hb.
  - pose proof (rescan_items_buttons _ _ _ _ _ _ Hev) as Hbtn.
    apply rescan_items_workers in Hev as [Hh _].
    now apply (buttons_follow_workers_same self).
  - pose proof (rescan_items_buttons _ _ _ _ _ _ Hev) as Hbtn.
    apply rescan_items_workers in Hev as [Hh _].
    now apply (buttons_follow_workers_same self).
  - destruct (item_combo_items (inputs self) !! index); inversion Hev; subst; exact Hb.
  - inversion Hev; subst. exact Hb.
  - destruct (String.eqb path ""); [inversion Hev; subst; assumption|].
    pose proof (rescan_items_buttons _ _ _ _ _ _ Hev) as Hbtn.
    apply rescan_items_workers in Hev as [Hh _].
    now apply (buttons_follow_workers_same self).
  - inversion Hev; subst. exact Hb.
  - inversion Hev; subst. exact Hb.
  - destruct (threads self !! thread) as [q|]; inversion Hev; subst; [|assumption].
    destruct (finished_slot q); buttons_step Hb.
Qed.

(** In every window that can arise, the Start and the Stop button of each
    pair (source, shelf service, cam display) are never both enabled nor
    both disabled, and a Stop button is enabled only when a worker of its
    slot has been constructed (its holder is not [None]). *)
Theorem buttons_stay_paired (h : Host) (self : MainWindow) :
  reachable h self -> buttons_follow_workers self.
Proof.
  induction 1 as [fs home cams t self Hinit | ev self t self' _ IH Hev].
  - unfold MainWindow_init in Hinit.
    destruct (rescan_items fs cams false _) as [t1 [self1| |]] eqn:H1; try discriminate.
    rewrite bind_returned in Hinit.
    destruct (rescan_items fs cams true self1) as [t2 [self2| |]] eqn:H2; try discriminate.
    cbn [trace outcome fst snd] in Hinit. inversion Hinit; subst.
    pose proof (rescan_items_buttons _ _ _ _ _ _ H1) as Hb1.
    pose proof (rescan_items_buttons _ _ _ _ _ _ H2) as Hb2.
    unfold buttons_follow_workers. rewrite Hb2, Hb1. cbn. repeat split; discriminate.
  - exact (handle_buttons h ev self self' t IH Hev).
Qed.

Lemma buttons_stay_paired_witness :
  start_btn (buttons window_started) = negb (stop_btn (buttons window_started))
  /\ (stop_btn (buttons window_started) = true ->
      active_worker (holders window_started) <> None).
Proof.
  destruct (buttons_stay_paired example_host window_started reachable_window_started)
    as (H1 & _ & _ & H4 & _).
  split; assumption.
Defined.

(* ===================================================================== *)
(** ** MainWindow.closeEvent                                              *)
(* ===================================================================== *)


Lemma wait_until_stopped_counts (still_running : nat -> bool) (budget k : nat) :
  (count_calls is_sleep_50ms (wait_until_stopped still_running budget k) <= budget)%nat
  /\ count_calls is_processEvents (wait_until_stopped still_running budget k)
     = count_calls is_sleep_50ms (wait_until_stopped still_running budget k)
  /\ count_calls is_event_accept (wait_until_stopped still_running budget k) = 0%nat
  /\ List.filter is_stop_call (wait_until_stopped still_running budget k) = [].
Proof.
  revert k. induction budget as [|budget IH]; intros k; cbn [wait_until_stopped].
  - repeat split; cbn; lia.
  - destruct (still_running k); [|repeat split; cbn; lia].
    destruct (IH (S k)) as (H1 & H2 & H3 & H4). unfold count_calls in *. cbn.
    repeat split; try lia. assumption.
Qed.

(** The waiting loop ends at the first poll that finds the worker stopped. *)
Lemma wait_until_stopped_first (still_running : nat -> bool) (budget k n : nat) :
  (forall j, (j < n)%nat -> still_running (k + j)%nat = true) ->
  still_running (k + n)%nat = false -> (n < budget)%nat ->
  wait_until_stopped still_running budget k = polls n.
Proof.
  revert budget k. induction n as [|n IH]; intros budget k Hbefore Hstop Hlt.
  - destruct budget as [|budget]; [lia|]. cbn [wait_until_stopped].
    rewrite Nat.add_0_r in Hstop. now rewrite Hstop.
  - destruct budget as [|budget]; [lia|]. cbn [wait_until_stopped polls].
    rewrite <- (Nat.add_0_r k) at 1. rewrite (Hbefore 0%nat) by lia.
    do 2 f_equal. apply (IH budget (S k)).
    + intros j Hj. rewrite Nat.add_succ_comm. apply Hbefore. lia.
    + now rewrite Nat.add_succ_comm.
    + lia.
Qed.

(** The waiting loop gives up when the budget is spent. *)
Lemma wait_until_stopped_gives_up (still_running : nat -> bool) (budget k : nat) :
  (forall j, (j < budget)%nat -> still_running (k + j)%nat = true) ->
  wait_until_stopped still_running budget k = polls budget.
Proof.
  revert k. induction budget as [|budget IH]; intros k Hbefore; [reflexivity|].
  cbn [wait_until_stopped polls].
  rewrite <- (Nat.add_0_r k) at 1. rewrite (Hbefore 0%nat) by lia.
  do 2 f_equal. apply IH. intros j Hj. rewrite Nat.add_succ_comm. apply Hbefore. lia.
Qed.

Lemma close_slot_counts stop_call has_method budget guard first_poll still_running self
  holder :
  (forall i, is_stop_call (stop_call i) = true) ->
  (forall i, is_sleep_50ms (stop_call i) = false) ->
  (forall i, is_processEvents (stop_call i) = false) ->
  (forall i, is_event_accept (stop_call i) = false) ->
  let t := fst (close_slot stop_call has_method budget guard first_poll still_running self
                  holder) in
  (count_calls is_sleep_50ms t <= budget)%nat
  /\ count_calls is_processEvents t = count_calls is_sleep_50ms t
  /\ count_calls is_event_accept t = 0%nat
  /\ ((forall i, holder = Some i -> has_method i = true) ->
      List.filter is_stop_call t = stop_due stop_call guard holder)
  /\ (stop_due stop_call guard holder = [] -> t = []).
Proof.
  intros Hstop Hsl Hpe Hacc. unfold close_slot, stop_due.
  destruct holder as [i|]; [|cbn; repeat split; lia].
  destruct (guard i) eqn:Hrun; [|cbn; repeat split; lia].
  destruct (wait_until_stopped_counts (still_running i) budget first_poll)
    as (H1 & H2 & H3 & H4).
  destruct (has_method i) eqn:Hm; cbn [fst]; unfold count_calls in *; cbn [List.filter];
    rewrite ?Hstop, ?Hsl, ?Hpe, ?Hacc, ?H4; cbn [length];
    repeat split; try lia; try discriminate.
  intros Hall. specialize (Hall i eq_refl). congruence.
Qed.

Lemma close_slot_holders stop_call has_method budget guard first_poll still_running self
  holder :
  holders (snd (close_slot stop_call has_method budget guard first_poll still_running self
                  holder))
  = holders self
  /\ forall other,
       holder_is_running
         (snd (close_slot stop_call has_method budget guard first_poll still_running self
                 holder)) other
       = holder_is_running self other.
Proof.
  unfold close_slot. destruct holder as [i|]; [|now split].
  destruct (guard i); [|now split].
  destruct (has_method i); [|now split].
  cbn [snd]. split; [reflexivity|]. intros [j|]; [|reflexivity].
  unfold holder_is_running. cbn [threads set_threads].
  destruct (decide (i = j)) as [->|Hne].
  - rewrite list_lookup_alter_eq. now destruct (threads self !! j).
  - now rewrite list_lookup_alter_ne.
Qed.

Lemma stop_due_same (stop_call : nat -> ShutdownCall) (guard guard' : nat -> bool)
  (holder : option nat) :
  (forall i, guard' i = guard i) ->
  stop_due stop_call guard' holder = stop_due stop_call guard holder.
Proof. intros H. unfold stop_due. destruct holder; [now rewrite H | reflexivity]. Qed.

(** The three blocks of [closeEvent]: the tests of the second and third
    read the record of the window as it was when the method was entered,
    and the thread as it is when the block is reached. *)
Lemma closeEvent_blocks (still_running : nat -> nat -> bool) (self : MainWindow) :
  exists self1 self2,
    fst (closeEvent still_running self)
    = (fst (close_slot request_stop_call (hasattr_request_stop self) 20
              (running_at_entry self) 0 still_running self
              (active_worker (holders self)))
       ++ fst (close_slot worker_stop_call (fun _ => true) 60
                 (running_when_reached still_running self1) 1 still_running self1
                 (shelf_worker (holders self)))
       ++ fst (close_slot worker_stop_call (fun _ => true) 20
                 (running_when_reached still_running self2) 1 still_running self2
                 (display_worker (holders self)))
       ++ [event_accept])%list
    /\ (forall i, running_when_reached still_running self1 i
                  = running_when_reached still_running self i)
    /\ (forall i, running_when_reached still_running self2 i
                  = running_when_reached still_running self i).
Proof.
  unfold closeEvent.
  pose proof (close_slot_holders request_stop_call (hasattr_request_stop self) 20
                (running_at_entry self) 0 still_running self
                (active_worker (holders self))) as [Hh1 Hr1].
  destruct (close_slot request_stop_call (hasattr_request_stop self) 20
              (running_at_entry self) 0 still_running self
              (active_worker (holders self)))
    as [t1 self1]. cbn [fst snd] in *.
  pose proof (close_slot_holders worker_stop_call (fun _ => true) 60
                (running_when_reached still_running self1) 1 still_running self1
                (shelf_worker (holders self1))) as [Hh2 Hr2].
  destruct (close_slot worker_stop_call (fun _ => true) 60
              (running_when_reached still_running self1) 1 still_running self1
              (shelf_worker (holders self1)))
    as [t2 self2] eqn:E2. cbn [fst snd] in *.
  destruct (close_slot worker_stop_call (fun _ => true) 20
              (running_when_reached still_running self2) 1 still_running self2
              (display_worker (holders self2)))
    as [t3 self3] eqn:E3. cbn [fst snd] in *.
  exists self1, self2. rewrite <- Hh1, E2. rewrite <- Hh2, E3. cbn [fst].
  split; [reflexivity|]. unfold running_when_reached.
  split; intros i; [now rewrite Hr1 | now rewrite Hr2, Hr1].
Qed.

Ltac close_slot_facts stop_call has_method budget guard first_poll still_running self holder :=
  pose proof (close_slot_counts stop_call has_method budget guard first_poll still_running
                self holder
                (fun _ => eq_refl) (fun _ => eq_refl) (fun _ => eq_refl) (fun _ => eq_refl)).


Lemma typed_hasattr_request_stop (self : MainWindow) :
  holders_typed self ->
  forall i, active_worker (holders self) = Some i -> hasattr_request_stop self i = true.
Proof.
  intros Htyped i Hi. destruct (Htyped slot_source i Hi) as (t & Ht & Hslot).
  unfold hasattr_request_stop. rewrite Ht.
  now destruct (thread_worker t).
Qed.

Lemma stop_due_in (stop_call : nat -> ShutdownCall) (guard guard' : nat -> bool)
  (holder : option nat) (c : ShutdownCall) :
  (forall i, guard i = true -> guard' i = true) ->
  In c (stop_due stop_call guard holder) -> In c (stop_due stop_call guard' holder).
Proof.
  intros Himp. unfold stop_due. destruct holder as [i|]; [|intros []].
  destruct (guard i) eqn:Hg; [|intros []]. now rewrite (Himp i Hg).
Qed.

(** In a window that can arise, [closeEvent] asks a worker to stop when
    it is running as its block is reached: the source worker when it is
    running as the window is closed ([request_stop()], which it always
    has), a tool worker when it was running then and has not ended
    during the waits before its block ([stop()]).  Each is asked once, in
    the order source, scan tool, display tool.  So only workers that
    were running as the window was closed are asked, and all of them
    when no tool worker ends before its block is reached.  When no stop
    is due, [closeEvent] does nothing but accept the event. *)
Theorem closeEvent_stops_running_workers (h : Host) (still_running : nat -> nat -> bool)
  (self : MainWindow) :
  reachable h self ->
  List.filter is_stop_call (fst (closeEvent still_running self))
  = stops_due still_running self
  /\ (stops_due still_running self = [] ->
      fst (closeEvent still_running self) = [event_accept])
  /\ (forall c, In c (List.filter is_stop_call (fst (closeEvent still_running self))) ->
        In c (running_at_close self))
  /\ ((forall i, still_running i 0%nat = true) ->
      List.filter is_stop_call (fst (closeEvent still_running self))
      = running_at_close self).
Proof.
  intros Htyped%reachable_holders_typed.
  destruct (closeEvent_blocks still_running self) as (self1 & self2 & -> & Hr1 & Hr2).
  close_slot_facts request_stop_call (hasattr_request_stop self) 20%nat
    (running_at_entry self) 0%nat still_running self (active_worker (holders self)).
  close_slot_facts worker_stop_call (fun _ : nat => true) 60%nat
    (running_when_reached still_running self1) 1%nat still_running self1
    (shelf_worker (holders self)).
  close_slot_facts worker_stop_call (fun _ : nat => true) 20%nat
    (running_when_reached still_running self2) 1%nat still_running self2
    (display_worker (holders self)).
  cbv zeta in *.
  destruct H as (_ & _ & _ & A4 & A5), H0 as (_ & _ & _ & B4 & B5),
    H1 as (_ & _ & _ & C4 & C5).
  specialize (A4 (typed_hasattr_request_stop self Htyped)).
  specialize (B4 (fun _ _ => eq_refl)). specialize (C4 (fun _ _ => eq_refl)).
  rewrite (stop_due_same _ (running_when_reached still_running self)
             (running_when_reached still_running self1)) in B4, B5 by assumption.
  rewrite (stop_due_same _ (running_when_reached still_running self)
             (running_when_reached still_running self2)) in C4, C5 by assumption.
  assert (Hstops : List.filter is_stop_call
                     (fst (close_slot request_stop_call (hasattr_request_stop self) 20
                             (running_at_entry self) 0 still_running self
                             (active_worker (holders self)))
                      ++ fst (close_slot worker_stop_call (fun _ => true) 60
                                (running_when_reached still_running self1) 1 still_running
                                self1 (shelf_worker (holders self)))
                      ++ fst (close_slot worker_stop_call (fun _ => true) 20
                                (running_when_reached still_running self2) 1 still_running
                                self2 (display_worker (holders self)))
                      ++ [event_accept])
                   = stops_due still_running self).
  { unfold stops_due. rewrite !List.filter_app, A4, B4, C4. cbn [List.filter is_stop_call].
    now rewrite app_nil_r. }
  assert (Hweaker : forall i, running_when_reached still_running self i = true ->
                      running_when_reached (fun _ _ => true) self i = true).
  { unfold running_when_reached. intros i [-> _]%andb_prop. reflexivity. }
  rewrite Hstops. split; [reflexivity|]. split; [|split].
  - unfold stops_due. intros Hnone. apply app_eq_nil in Hnone as [Ha Hnone].
    apply app_eq_nil in Hnone as [Hb Hc].
    now rewrite (A5 Ha), (B5 Hb), (C5 Hc).
  - unfold running_at_close, stops_due. intros c Hc.
    rewrite !in_app_iff in *.
    destruct Hc as [Hc | [Hc | Hc]]; [now left | right; left | right; right];
      now apply (stop_due_in _ (running_when_reached still_running self)).
  - intros Hall. unfold running_at_close, stops_due.
    rewrite !(stop_due_same _ (running_when_reached (fun _ _ => true) self)
                (running_when_reached still_running self)); [reflexivity | |];
      intros i; unfold running_when_reached; now rewrite Hall.
Qed.

Lemma reachable_window_two_running : reachable example_host window_two_running.
Proof.
  eapply reachable_step with (ev := ev_start_shelf_service).
  - exact reachable_window_started.
  - vm_compute. reflexivity.
Defined.

(** A window whose source worker and scan tool are running.  When both
    keep running, both are asked to stop, in this order; when the thread
    of the scan tool ends while [closeEvent] waits for the source worker,
    the scan tool is not asked. *)
Lemma closeEvent_stops_running_workers_witness :
  List.filter is_stop_call (fst (closeEvent (fun _ _ => true) window_two_running))
  = [request_stop_call 0; worker_stop_call 1]
  /\ List.filter is_stop_call
       (fst (closeEvent (fun i _ => negb (i =? 1)%nat) window_two_running))
     = [request_stop_call 0].
Proof.
  split.
  - exact (proj1 (closeEvent_stops_running_workers example_host (fun _ _ => true)
                    window_two_running reachable_window_two_running)).
  - exact (proj1 (closeEvent_stops_running_workers example_host
                    (fun i _ => negb (i =? 1)%nat)
                    window_two_running reachable_window_two_running)).
Defined.

(** When only the source worker is running and its thread is first seen
    stopped at the [n]-th poll, before the budget of 20 is spent,
    [closeEvent] is: the stop request, [n] rounds of processing events and
    sleeping, and the acceptance of the event.  It does not sleep on after
    the worker has stopped. *)
Theorem closeEvent_returns_when_stopped (h : Host) (still_running : nat -> nat -> bool)
  (self : MainWindow) (i n : nat) :
  reachable h self ->
  active_worker (holders self) = Some i ->
  holder_is_running self (Some i) = true ->
  holder_is_running self (shelf_worker (holders self)) = false ->
  holder_is_running self (display_worker (holders self)) = false ->
  (forall j, (j < n)%nat -> still_running i j = true) ->
  still_running i n = false ->
  (n < 20)%nat ->
  fst (closeEvent still_running self)
  = (request_stop_call i :: polls n ++ [event_accept])%list.
Proof.
  intros Htyped%reachable_holders_typed Ha Hrun Hshelf Hdisplay Hbefore Hstop Hlt.
  destruct (closeEvent_blocks still_running self) as (self1 & self2 & -> & Hr1 & Hr2).
  close_slot_facts worker_stop_call (fun _ : nat => true) 60%nat
    (running_when_reached still_running self1) 1%nat still_running self1
    (shelf_worker (holders self)).
  close_slot_facts worker_stop_call (fun _ : nat => true) 20%nat
    (running_when_reached still_running self2) 1%nat still_running self2
    (display_worker (holders self)).
  cbv zeta in *.
  destruct H as (_ & _ & _ & _ & B5), H0 as (_ & _ & _ & _ & C5).
  rewrite B5, C5.
  - rewrite Ha. unfold close_slot, running_at_entry.
    rewrite Hrun, (typed_hasattr_request_stop self Htyped i Ha). cbn [fst app].
    now rewrite (wait_until_stopped_first (still_running i) 20 0 n).
  - unfold stop_due. destruct (display_worker (holders self)); [|reflexivity].
    rewrite Hr2. unfold running_when_reached. now rewrite Hdisplay.
  - unfold stop_due. destruct (shelf_worker (holders self)); [|reflexivity].
    rewrite Hr1. unfold running_when_reached. now rewrite Hshelf.
Qed.

(** The started window of the camera example, closed while its worker
    needs three polls to stop. *)
Lemma closeEvent_returns_when_stopped_witness :
  fst (closeEvent (fun _ k => (k <? 3)%nat) window_started)
  = [request_stop_call 0; processEvents; sleep_50ms; processEvents; sleep_50ms;
     processEvents; sleep_50ms; event_accept].
Proof.
  apply (closeEvent_returns_when_stopped example_host (fun _ k => (k <? 3)%nat)
           window_started 0 3).
  - exact reachable_window_started.
  - reflexivity.
  - reflexivity.
  - reflexivity.
  - reflexivity.
  - intros j Hj. apply Nat.ltb_lt. exact Hj.
  - reflexivity.
  - lia.
Defined.
